(** * Flashcard: cards, card sets and the console state machine

    A shallow embedding of the Python sources [fc_card.py], [fc_set.py],
    [consolemenu.py] and [fc_main.py].

    - Python [int] is [Z]; a [list] is a [list]; a [str] is the [string] of
      its UTF-8 bytes, decoded where the code looks at characters
      ([str.strip], [float], [int]).
    - A Python float is an IEEE 754 double: a finite one is the rational
      number [Qc] it denotes, and an arithmetic operation returns the exact
      result rounded to the nearest double ([round_double]), [inf] or an
      [OverflowError] as Python does.
    - A raised exception is the [Raise] case of [result]; a method is a
      function of the monad [M S], which threads the mutated object (or the
      whole program state) and stops at the first exception.
    - Card objects live in a heap and are named by their address, since the
      card list of a set, the card list of a run and the card of the edit
      screen all share them. *)

From Stdlib Require Import ZArith QArith Qcanon Qround Qpower Qabs.
From Stdlib Require Import String Ascii List Lia Lqa.
From Stdlib Require Import Permutation Sorted.
From stdpp Require Import base tactics option list strings numbers pretty gmap.

Open Scope string_scope.
Open Scope list_scope.
Open Scope Z_scope.

(** ** Python values, exceptions and the method monad *)

Inductive exn : Type :=
| IndexError
| NameError (name : string)
| KeyError (key : string)
| ValueError
| EOFError
| OverflowError
| ZeroDivisionError
| csv_Error.

Inductive result (A : Type) : Type :=
| Return (a : A)
| Raise (e : exn).
Arguments Return {A} a.
Arguments Raise {A} e.

(** An argument of no fixed type, as far as [checkAnswer] looks at it. *)
Inductive pyval : Type :=
| PyNone
| PyBool (b : bool)
| PyInt (z : Z)
| PyStr (s : string).

Definition M (S A : Type) : Type := S -> result A * S.

Definition ret {S A : Type} (a : A) : M S A := fun s => (Return a, s).
Definition raise {S A : Type} (e : exn) : M S A := fun s => (Raise e, s).
Definition bind {S A B : Type} (m : M S A) (k : A -> M S B) : M S B :=
  fun s =>
    match m s with
    | (Return a, s') => k a s'
    | (Raise e, s') => (Raise e, s')
    end.
Definition get {S : Type} : M S S := fun s => (Return s, s).
Definition gets {S A : Type} (f : S -> A) : M S A := fun s => (Return (f s), s).
Definition modify {S : Type} (f : S -> S) : M S unit := fun s => (Return tt, f s).
Definition lift_result {S A : Type} (r : result A) : M S A := fun s => (r, s).

Declare Scope py_scope.
Delimit Scope py_scope with py.
Notation "x <- m ;; k" := (bind m (fun x => k))
  (at level 100, m at next level, right associativity) : py_scope.
Notation "m ;; k" := (bind m (fun _ => k))
  (at level 100, right associativity) : py_scope.
Open Scope py_scope.

(** [l[i]] with Python's negative indices. *)
Definition py_index {A : Type} (l : list A) (i : Z) : result A :=
  let n := Z.of_nat (length l) in
  let j := if i <? 0 then i + n else i in
  if (j <? 0) || (n <=? j) then Raise IndexError
  else match l !! Z.to_nat j with
       | Some a => Return a
       | None => Raise IndexError
       end.

(** [l[:n]] with Python's negative bounds. *)
Definition py_slice_to {A : Type} (l : list A) (n : Z) : list A :=
  if n <? 0 then take (Z.to_nat (Z.of_nat (length l) + n)) l
  else take (Z.to_nat n) l.

(** [l[1:]] *)
Definition py_slice_from1 {A : Type} (l : list A) : list A := drop 1 l.

(** ** Python floats

    A finite double is modelled by the rational number it denotes, so [0.0],
    [-0.0] and the [int] 0 are one value (as they are for [==], [<], [int()]
    and as sort keys).  Every operation returns the exact result rounded to
    the nearest double, ties to the even one; a result beyond the largest
    double is [inf], or an [OverflowError] where Python raises one. *)

Definition pow2 (e : Z) : Q := Qpower 2 e.

(** [floor (log2 x)] for [0 < x]. *)
Definition ilog2 (x : Q) : Z :=
  let k := Z.log2 (Qnum x) - Z.log2 (Zpos (Qden x)) in
  if Qle_bool (pow2 k) x then k else k - 1.

(** The integer nearest to [x], the even one of two that are equally near. *)
Definition rne (x : Q) : Z :=
  let f := Qfloor x in
  match Qcompare (x - inject_Z f) (1 # 2) with
  | Lt => f
  | Gt => f + 1
  | Eq => if Z.even f then f else f + 1
  end.

(** The exponent of the last binary place of the doubles near [x]: 53
    significant bits, and no place below [2^-1074]. *)
Definition ulp_exp (x : Q) : Z := Z.max (ilog2 x - 52) (-1074).

Definition round_pos (x : Q) : Q :=
  (inject_Z (rne (x / pow2 (ulp_exp x))) * pow2 (ulp_exp x))%Q.

(** The double nearest to [x], were the exponent unbounded above. *)
Definition round_double (x : Q) : Q :=
  match Qcompare x 0 with
  | Eq => 0%Q
  | Gt => round_pos x
  | Lt => (- round_pos (- x))%Q
  end.

(** The doubles, but for the bound on the exponent above: [m * 2^e] with
    53 bits for [m] and [e] from [-1074] on. *)
Definition is_double (d : Q) : Prop :=
  exists m e : Z,
    (Z.abs m < 2 ^ 53)%Z /\ (-1074 <= e)%Z /\ d == inject_Z m * pow2 e.

(** The rounded result is beyond the largest double,
    [2^1024 - 2^971]. *)
Definition double_overflows (y : Q) : bool := Qle_bool (pow2 1024) (Qabs y).

Inductive pyfloat : Type :=
| Finite (q : Qc)
| Infinite (negative : bool)
| NaN.

Definition Qnegative (x : Q) : bool := negb (Qle_bool 0 x).

(** The float for the exact result [x] of an operation. *)
Definition to_double (x : Q) : pyfloat :=
  let y := round_double x in
  if double_overflows y then Infinite (Qnegative y) else Finite (Q2Qc y).

(** An [int] operand of a float operation is converted first. *)
Definition float_of_int (z : Z) : result Qc :=
  match to_double (inject_Z z) with
  | Finite q => Return q
  | _ => Raise OverflowError
  end.

(** [a / b] on two [int]s: the quotient itself is rounded, once. *)
Definition int_true_div (a b : Z) : result Qc :=
  if b =? 0 then Raise ZeroDivisionError
  else
    match to_double (inject_Z a / inject_Z b) with
    | Finite q => Return q
    | _ => Raise OverflowError
    end.

(** [x * y] on floats. *)
Definition float_mul (x y : pyfloat) : pyfloat :=
  match x, y with
  | Finite a, Finite b => to_double (a * b)
  | Finite a, Infinite s | Infinite s, Finite a =>
      if Qeq_bool a 0 then NaN else Infinite (xorb s (Qnegative a))
  | Infinite s, Infinite t => Infinite (xorb s t)
  | _, _ => NaN
  end.

(** [x / y] on floats. *)
Definition float_div (x y : pyfloat) : result pyfloat :=
  match y with
  | Finite b =>
      if Qeq_bool b 0 then Raise ZeroDivisionError
      else
        match x with
        | Finite a => Return (to_double (a / b))
        | Infinite s => Return (Infinite (xorb s (Qnegative b)))
        | NaN => Return NaN
        end
  | Infinite _ =>
      match x with
      | Finite _ => Return (Finite 0%Qc)
      | _ => Return NaN
      end
  | NaN => Return NaN
  end.

(** [int(x)]: towards zero. *)
Definition int_of_float (x : pyfloat) : result Z :=
  match x with
  | Finite q => Return (Z.quot (Qnum q) (Zpos (Qden q)))
  | Infinite _ => Raise OverflowError
  | NaN => Raise ValueError
  end.

(** ** Strings: [str.strip], [' ' in s], [float(s)] and [int(s)]

    A [string] holds the UTF-8 encoding of a Python [str], one [ascii] for
    each byte, as the string literals of this file do.  Equality,
    concatenation and [' ' in s] are the same on the bytes as on the
    characters.  [str.strip], [float] and [int] look at the characters
    (white space and digits of any script), which [chars] decodes.  A byte
    that belongs to no well-formed UTF-8 sequence is a character of its own,
    neither white space nor a digit (the code [U+DC00 + byte] that Python's
    [surrogateescape] gives it). *)

Definition ascii_code (c : ascii) : nat := nat_of_ascii c.

(** The six low bits of a continuation byte [10xxxxxx]. *)
Definition continuation (c : ascii) : option N :=
  let n := N_of_ascii c in
  if ((128 <=? n) && (n <? 192))%N then Some (n - 128)%N else None.

(** The characters of a text: the code point and the bytes of each. *)
Fixpoint chars (s : string) : list (N * string) :=
  match s with
  | EmptyString => []
  | String c0 s0 =>
      let b0 := N_of_ascii c0 in
      let stray := ((56320 + b0)%N, String c0 EmptyString) :: chars s0 in
      if (b0 <? 128)%N then (b0, String c0 EmptyString) :: chars s0
      else if (b0 <? 194)%N then stray
      else if (b0 <? 224)%N then
        match s0 with
        | String c1 s1 =>
            match continuation c1 with
            | Some x1 =>
                (((b0 - 192) * 64 + x1)%N, String c0 (String c1 EmptyString))
                :: chars s1
            | None => stray
            end
        | _ => stray
        end
      else if (b0 <? 240)%N then
        match s0 with
        | String c1 (String c2 s2) =>
            match continuation c1, continuation c2 with
            | Some x1, Some x2 =>
                let ch := ((b0 - 224) * 4096 + x1 * 64 + x2)%N in
                if ((2048 <=? ch) && negb ((55296 <=? ch) && (ch <? 57344)))%N
                then (ch, String c0 (String c1 (String c2 EmptyString)))
                     :: chars s2
                else stray
            | _, _ => stray
            end
        | _ => stray
        end
      else if (b0 <? 245)%N then
        match s0 with
        | String c1 (String c2 (String c3 s3)) =>
            match continuation c1, continuation c2, continuation c3 with
            | Some x1, Some x2, Some x3 =>
                let ch :=
                  ((b0 - 240) * 262144 + x1 * 4096 + x2 * 64 + x3)%N in
                if ((65536 <=? ch) && (ch <? 1114112))%N
                then (ch, String c0 (String c1 (String c2 (String c3 EmptyString))))
                     :: chars s3
                else stray
            | _, _, _ => stray
            end
        | _ => stray
        end
      else stray
  end.

(** The text of a list of characters. *)
Fixpoint unchars (l : list (N * string)) : string :=
  match l with
  | [] => EmptyString
  | t :: l' => snd t +:+ unchars l'
  end.

(** White space, as [str.isspace] and [str.strip] see it. *)
Definition Py_UNICODE_ISSPACE (ch : N) : bool :=
  ((9 <=? ch) && (ch <=? 13) || (28 <=? ch) && (ch <=? 32)
   || (ch =? 133) || (ch =? 160) || (ch =? 5760)
   || (8192 <=? ch) && (ch <=? 8202)
   || (ch =? 8232) || (ch =? 8233) || (ch =? 8239) || (ch =? 8287)
   || (ch =? 12288))%N.

Fixpoint lstrip (l : list (N * string)) : list (N * string) :=
  match l with
  | t :: l' => if Py_UNICODE_ISSPACE (fst t) then lstrip l' else l
  | [] => []
  end.

Fixpoint rstrip (l : list (N * string)) : list (N * string) :=
  match l with
  | [] => []
  | t :: l' =>
      match rstrip l' with
      | [] => if Py_UNICODE_ISSPACE (fst t) then [] else [t]
      | r => t :: r
      end
  end.

(** [s.strip()] *)
Definition strip (s : string) : string := unchars (rstrip (lstrip (chars s))).

(** [' ' in s] *)
Fixpoint contains_space (s : string) : bool :=
  match s with
  | EmptyString => false
  | String c s' => Ascii.eqb c " " || contains_space s'
  end.

(** The code points of the digit zero of every script that has decimal
    digits (Unicode 14); the other nine digits follow each. *)
Definition decimal_zeros : list N :=
  [48; 1632; 1776; 1984; 2406; 2534; 2662; 2790; 2918; 3046; 3174; 3302;
   3430; 3558; 3664; 3792; 3872; 4160; 4240; 6112; 6160; 6470; 6608; 6784;
   6800; 6992; 7088; 7232; 7248; 42528; 43216; 43264; 43472; 43504; 43600;
   44016; 65296; 66720; 68912; 69734; 69872; 69942; 70096; 70384; 70736;
   70864; 71248; 71360; 71472; 71904; 72016; 72784; 73040; 73120; 92768;
   92864; 93008; 120782; 120792; 120802; 120812; 120822; 123200; 123632;
   125264; 130032]%N.

(** The value of a decimal digit. *)
Definition Py_UNICODE_TODECIMAL (ch : N) : option N :=
  match
    List.find (fun zero => ((zero <=? ch) && (ch <? zero + 10))%N)
      decimal_zeros
  with
  | Some zero => Some (ch - zero)%N
  | None => None
  end.

Definition PyUnicode_IS_ASCII (s : string) : bool :=
  forallb (fun c => (N_of_ascii c <? 128)%N) (list_ascii_of_string s).

(** The loop of [_PyUnicode_TransformDecimalAndSpaceToASCII]: white space
    becomes a space, a digit the ASCII digit, and the text ends with [?] at
    the first character that is neither. *)
Fixpoint transform_chars (l : list (N * string)) : string :=
  match l with
  | [] => EmptyString
  | t :: l' =>
      let ch := fst t in
      if (ch <? 127)%N then String (ascii_of_N ch) (transform_chars l')
      else if Py_UNICODE_ISSPACE ch then String " " (transform_chars l')
      else
        match Py_UNICODE_TODECIMAL ch with
        | Some decimal => String (ascii_of_N (48 + decimal)) (transform_chars l')
        | None => "?"
        end
  end.

(** What [float] and [int] parse: the text itself when it is ASCII. *)
Definition _PyUnicode_TransformDecimalAndSpaceToASCII (s : string) : string :=
  if PyUnicode_IS_ASCII s then s else transform_chars (chars s).

(** The white space [float] and [int] skip at both ends of that. *)
Definition Py_ISSPACE (c : ascii) : bool :=
  let n := ascii_code c in
  ((9 <=? n) && (n <=? 13) || (n =? 32))%nat.

Fixpoint skip_leading (s : string) : string :=
  match s with
  | String c s' => if Py_ISSPACE c then skip_leading s' else s
  | EmptyString => EmptyString
  end.

Fixpoint skip_trailing (s : string) : string :=
  match s with
  | EmptyString => EmptyString
  | String c s' =>
      match skip_trailing s' with
      | EmptyString => if Py_ISSPACE c then EmptyString else String c EmptyString
      | r => String c r
      end
  end.

(** The text of a number: transformed, without the white space around. *)
Definition number_text (s : string) : string :=
  skip_trailing (skip_leading (_PyUnicode_TransformDecimalAndSpaceToASCII s)).

Definition is_digit (c : ascii) : bool :=
  let n := ascii_code c in ((48 <=? n) && (n <=? 57))%nat.

Definition ascii_lower (c : ascii) : ascii :=
  let n := ascii_code c in
  if ((65 <=? n) && (n <=? 90))%nat then ascii_of_nat (n + 32) else c.

Fixpoint lower (s : string) : string :=
  match s with
  | EmptyString => EmptyString
  | String c s' => String (ascii_lower c) (lower s')
  end.

(** The grammar [float()] accepts, after stripping:
    [[sign] (floatnumber | "inf" | "infinity" | "nan")], letters in any case,
    [floatnumber ::= number [exponent]],
    [number ::= [digitpart] "." digitpart | digitpart ["."]],
    [digitpart ::= digit (["_"] digit)*],
    [exponent ::= ("e" | "E") [sign] digitpart]. *)

(** After a digit: the rest of [(["_"] digit)*]. *)
Fixpoint skip_digits (s : string) : string :=
  match s with
  | EmptyString => EmptyString
  | String c s' =>
      if is_digit c then skip_digits s'
      else if Ascii.eqb c "_" then
        match s' with
        | String d s'' => if is_digit d then skip_digits s'' else s
        | EmptyString => s
        end
      else s
  end.

Definition digitpart (s : string) : option string :=
  match s with
  | String c s' => if is_digit c then Some (skip_digits s') else None
  | EmptyString => None
  end.

Definition skip_sign (s : string) : string :=
  match s with
  | String c s' => if Ascii.eqb c "+" || Ascii.eqb c "-" then s' else s
  | EmptyString => s
  end.

Definition number (s : string) : option string :=
  match digitpart s with
  | Some r =>
      match r with
      | String c r' =>
          if Ascii.eqb c "." then
            match digitpart r' with
            | Some r'' => Some r''
            | None => Some r'
            end
          else Some r
      | EmptyString => Some r
      end
  | None =>
      match s with
      | String c r => if Ascii.eqb c "." then digitpart r else None
      | EmptyString => None
      end
  end.

Definition floatnumber (s : string) : bool :=
  match number s with
  | Some EmptyString => true
  | Some (String c r) =>
      if Ascii.eqb c "e" || Ascii.eqb c "E" then
        match digitpart (skip_sign r) with
        | Some EmptyString => true
        | _ => false
        end
      else false
  | None => false
  end.

(** [float(s)] returns (does not raise [ValueError]). *)
Definition float_parses (s : string) : bool :=
  let body := skip_sign (number_text s) in
  floatnumber body
  || String.eqb (lower body) "inf"
  || String.eqb (lower body) "infinity"
  || String.eqb (lower body) "nan".

(** ** fc_card.py: FlashcardCard *)

Record FlashcardCard : Type := mkCard {
  _instance_version : list Z;
  _question : string;
  _valid_answers : list string;
  _answer_type : string;
  _override_confirms : option bool;
  _attempts : Z;
  _correct : Z
}.

Definition CLASS_VERSION : list Z := [1; 1].

Definition set_question (q : string) (c : FlashcardCard) : FlashcardCard :=
  mkCard (_instance_version c) q (_valid_answers c) (_answer_type c)
         (_override_confirms c) (_attempts c) (_correct c).
Definition set_attempts (n : Z) (c : FlashcardCard) : FlashcardCard :=
  mkCard (_instance_version c) (_question c) (_valid_answers c) (_answer_type c)
         (_override_confirms c) n (_correct c).
Definition set_correct (n : Z) (c : FlashcardCard) : FlashcardCard :=
  mkCard (_instance_version c) (_question c) (_valid_answers c) (_answer_type c)
         (_override_confirms c) (_attempts c) n.

(** [_guessAnswerType]: it reads only [self._valid_answers].  The bare
    [except] around [float(...)] also swallows the [IndexError] of an empty
    list; the comparison with ['True'] is outside any [try]. *)
Definition _guessAnswerType (valid_answers : list string) : result string :=
  let isnum :=
    match py_index valid_answers 0 with
    | Return a => float_parses a
    | Raise _ => false
    end in
  if 1 <? Z.of_nat (length valid_answers) then Return "multiple_choice"
  else
    match py_index valid_answers 0 with
    | Raise e => Raise e
    | Return a0 =>
        if String.eqb a0 "True" || String.eqb a0 "False" then Return "boolean"
        else if isnum then Return "numeric"
        else if negb (contains_space a0) then Return "word"
        else Return "text"
    end.

(** [FlashcardCard(question, valid_answers, answer_type, override_confirms)] *)
Definition FlashcardCard_init (question : string) (valid_answers : list string)
    (answer_type : option string) (override_confirms : option bool)
  : result FlashcardCard :=
  match
    match answer_type with
    | None => _guessAnswerType valid_answers
    | Some t => Return t
    end
  with
  | Raise e => Raise e
  | Return t =>
      Return (mkCard CLASS_VERSION question valid_answers t override_confirms 0 0)
  end.

(** [__eq__] *)
Definition card_eq (self other : FlashcardCard) : bool :=
  String.eqb (_question self) (_question other).

(** [self._correct*self._correct/self._attempts]: an [int] divided by an
    [int]. *)
Definition ranking (self : FlashcardCard) : result Qc :=
  if _attempts self =? 0 then Return 0%Qc
  else int_true_div (_correct self * _correct self) (_attempts self).

(** [100.0 * self._correct/self._attempts]: a float product, then a float
    quotient. *)
Definition score (self : FlashcardCard) : result pyfloat :=
  if _attempts self =? 0 then Return (Finite 0%Qc)
  else
    match float_of_int (_correct self) with
    | Raise e => Raise e
    | Return correct =>
        let product := float_mul (Finite (Qc_of_Z 100)) (Finite correct) in
        match float_of_int (_attempts self) with
        | Raise e => Raise e
        | Return attempts => float_div product (Finite attempts)
        end
    end.

(** The ranking as a sort key.  Where [ranking()] raises (an
    [OverflowError], for counters beyond 1e154) the sort of the source
    raises too; that case is not followed, the key is 0 there. *)
Definition ranking_value (self : FlashcardCard) : Qc :=
  match ranking self with
  | Return r => r
  | Raise _ => 0%Qc
  end.

Definition checkAnswer (answer_text : string) (confirmed : pyval)
  : M FlashcardCard bool :=
  let increment_correct := false in
  modify (fun self => set_attempts (_attempts self + 1) self) ;;
  increment_correct <-
    match confirmed with
    | PyBool b => ret (if b then true else increment_correct)
    | _ =>
        valid_answers <- gets _valid_answers ;;
        a0 <- lift_result (py_index valid_answers 0) ;;
        ret (if String.eqb answer_text a0 then true else increment_correct)
    end ;;
  if increment_correct : bool then
    modify (fun self => set_correct (_correct self + 1) self) ;;
    ret true
  else ret false.

(** A sequence of calls on one card; a caller that catches an exception goes
    on with the card as the failed call left it. *)
Definition checkAnswers (calls : list (string * pyval)) (self : FlashcardCard)
  : FlashcardCard :=
  fold_left (fun c call => snd (checkAnswer (fst call) (snd call) c)) calls self.

(** ** The [random] module and [sorted] *)

(** The generator's hidden state: the floats it will return, and how many of
    them it has returned. *)
Record RandomState : Type := mkRandom {
  draws : nat -> Qc;
  drawn : nat
}.

(** [random.random()] *)
Definition random : M RandomState Qc :=
  fun r => (Return (draws r (drawn r)), mkRandom (draws r) (S (drawn r))).

Fixpoint map_M {S A B : Type} (f : A -> M S B) (l : list A) : M S (list B) :=
  match l with
  | [] => ret []
  | a :: l' => b <- f a ;; bs <- map_M f l' ;; ret (b :: bs)
  end.

(** Python's sort is stable and compares keys with [<] only; on keys that
    [<] orders totally, every stable sort returns the list below. *)
Fixpoint insert_by {K A : Type} (lt : K -> K -> bool) (x : K * A)
    (l : list (K * A)) : list (K * A) :=
  match l with
  | [] => [x]
  | y :: l' => if lt (fst y) (fst x) then y :: insert_by lt x l' else x :: l
  end.

Definition stable_sort {K A : Type} (lt : K -> K -> bool) (l : list (K * A))
  : list (K * A) :=
  foldr (insert_by lt) [] l.

(** [sorted(l, key=key)]: one call of [key] per element, in list order, before
    any comparison. *)
Definition decorate {S A K : Type} (key : A -> M S K) (l : list A)
  : M S (list (K * A)) :=
  keys <- map_M key l ;; ret (zip keys l).

Definition sorted {S A K : Type} (lt : K -> K -> bool) (l : list A)
    (key : A -> M S K) : M S (list A) :=
  kl <- decorate key l ;; ret (map snd (stable_sort lt kl)).

Definition float_lt (x y : Qc) : bool := bool_decide (x < y)%Qc.

(** [<] on 2-tuples: the first components decide unless they are equal. *)
Definition tuple_lt (a b : Qc * Qc) : bool :=
  if bool_decide (fst a = fst b) then float_lt (snd a) (snd b)
  else float_lt (fst a) (fst b).

(** ** fc_set.py: FlashcardSet *)

(** The address of a card object. *)
Definition loc : Type := nat.

Global Instance FlashcardCard_inhabited : Inhabited FlashcardCard :=
  populate (mkCard [] EmptyString [] EmptyString None 0 0).

(** The card at an address. *)
Definition deref (h : list FlashcardCard) (l : loc) : FlashcardCard := h !!! l.

(** [self._data]: ['setname'], ['options']['confirms'] and ['cards']. *)
Record FlashcardSet : Type := mkSet {
  set_instance_version : list Z;
  setname : string;
  confirms : gmap string bool;
  cards : list loc
}.

Definition ANSWER_TYPES : list string :=
  ["boolean"; "numeric"; "word"; "text"; "multiple_choice"].

Definition DEFAULT_confirms : gmap string bool :=
  <["boolean" := false]> (<["numeric" := true]> (<["word" := true]>
  (<["text" := true]> (<["multiple_choice" := false]> ∅)))).

Definition FlashcardSet_init (name : string) : FlashcardSet :=
  mkSet CLASS_VERSION name DEFAULT_confirms [].

Definition set_cards (cs : list loc) (self : FlashcardSet) : FlashcardSet :=
  mkSet (set_instance_version self) (setname self) (confirms self) cs.

Definition getSetName (self : FlashcardSet) : string := setname self.

Definition getAllCards (self : FlashcardSet) : list loc := cards self.

(** [x == y] on two card objects, through [FlashcardCard.__eq__]; list
    membership and [list.remove] try identity first. *)
Definition same_card (h : list FlashcardCard) (x y : loc) : bool :=
  (x =? y)%nat || card_eq (deref h x) (deref h y).

(** [x in l] *)
Definition py_in (h : list FlashcardCard) (x : loc) (l : list loc) : bool :=
  existsb (fun y => same_card h y x) l.

(** [l.remove(x)] *)
Fixpoint py_remove (h : list FlashcardCard) (x : loc) (l : list loc)
  : result (list loc) :=
  match l with
  | [] => Raise ValueError
  | y :: l' =>
      if same_card h y x then Return l'
      else match py_remove h x l' with
           | Return r => Return (y :: r)
           | Raise e => Raise e
           end
  end.

Definition addCard (h : list FlashcardCard) (newcard : loc)
    (replaceduplicate : bool) : M FlashcardSet bool :=
  cs <- gets cards ;;
  if negb (py_in h newcard cs) then
    modify (fun self => set_cards (cards self ++ [newcard]) self) ;;
    ret true
  else if replaceduplicate then
    cs' <- lift_result (py_remove h newcard cs) ;;
    modify (set_cards cs') ;;
    modify (fun self => set_cards (cards self ++ [newcard]) self) ;;
    ret true
  else ret false.

Definition getSortedCards (h : list FlashcardCard) (self : FlashcardSet)
    (numcards numrandomcards : Z) : M RandomState (list loc) :=
  successlist <-
    sorted tuple_lt (cards self)
      (fun k => r <- random ;; ret (ranking_value (deref h k), r)) ;;
  randomlist <- sorted float_lt (cards self) (fun k => random) ;;
  ret (py_slice_to successlist numcards ++ py_slice_to randomlist numrandomcards).

Definition usesUserConfirm (self : FlashcardSet) (card : FlashcardCard)
  : result bool :=
  match _override_confirms card with
  | Some b => Return b
  | None =>
      match confirms self !! _answer_type card with
      | Some b => Return b
      | None => Raise (KeyError (_answer_type card))
      end
  end.

(** ** The program state *)

(** Everything the program can read or change: the card objects, the one
    [FlashcardSet], the lines the user will still type, what was printed so
    far (one entry per [print] or prompt), and the random generator. *)
Record World : Type := mkWorld {
  heap : list FlashcardCard;
  the_set : FlashcardSet;
  stdin : list string;
  stdout : list string;
  rng : RandomState
}.

Definition set_heap (h : list FlashcardCard) (w : World) : World :=
  mkWorld h (the_set w) (stdin w) (stdout w) (rng w).
Definition set_the_set (s : FlashcardSet) (w : World) : World :=
  mkWorld (heap w) s (stdin w) (stdout w) (rng w).
Definition set_stdin (i : list string) (w : World) : World :=
  mkWorld (heap w) (the_set w) i (stdout w) (rng w).
Definition set_stdout (o : list string) (w : World) : World :=
  mkWorld (heap w) (the_set w) (stdin w) o (rng w).
Definition set_rng (r : RandomState) (w : World) : World :=
  mkWorld (heap w) (the_set w) (stdin w) (stdout w) r.

(** [print(s)] *)
Definition print (s : string) : M World unit :=
  modify (fun w => set_stdout (stdout w ++ [s]) w).

(** [input(prompt)]: at the end of the input it raises [EOFError]. *)
Definition input (prompt : string) : M World string :=
  print prompt ;;
  lines <- gets stdin ;;
  match lines with
  | [] => raise EOFError
  | line :: rest => modify (set_stdin rest) ;; ret line
  end.

(** A call that uses the random generator. *)
Definition with_random {A : Type} (m : M RandomState A) : M World A :=
  fun w => let (a, r) := m (rng w) in (a, set_rng r w).

(** A method call on the one card set. *)
Definition with_set {A : Type} (m : M FlashcardSet A) : M World A :=
  fun w => let (a, s) := m (the_set w) in (a, set_the_set s w).

(** A method call on the card object at [l]. *)
Definition with_card {A : Type} (l : loc) (m : M FlashcardCard A) : M World A :=
  fun w => let (a, c) := m (deref (heap w) l) in
           (a, set_heap (<[l := c]> (heap w)) w).

(** A newly constructed card object gets the next free address. *)
Definition new_card (c : result FlashcardCard) : M World loc :=
  card <- lift_result c ;;
  h <- gets heap ;;
  modify (set_heap (h ++ [card])) ;;
  ret (length h).

(** [str(x)] for the keys of a choices dictionary. *)
Definition py_str (v : pyval) : string :=
  match v with
  | PyNone => "None"
  | PyBool true => "True"
  | PyBool false => "False"
  | PyInt z => pretty z
  | PyStr s => s
  end.

(** A dictionary with string keys, in insertion order. *)
Fixpoint dict_set {V : Type} (k : string) (v : V) (d : list (string * V))
  : list (string * V) :=
  match d with
  | [] => [(k, v)]
  | (k', v') :: d' =>
      if String.eqb k' k then (k, v) :: d' else (k', v') :: dict_set k v d'
  end.

Fixpoint dict_get {V : Type} (k : string) (d : list (string * V)) : option V :=
  match d with
  | [] => None
  | (k', v') :: d' => if String.eqb k' k then Some v' else dict_get k d'
  end.

(** [dict(enumerate(l, 1))] *)
Definition enumerate1 {V : Type} (l : list V) : list (pyval * V) :=
  imap (fun i v => (PyInt (Z.of_nat i + 1), v)) l.

(** ** consolemenu.py: ConsoleMenu *)

Record MenuOptions : Type := mkOptions {
  manual : bool;
  abstain : bool;
  ignore_case : bool;
  choice_suffix : string;
  intro_text : string;
  input_text : string;
  abstain_key : string;
  abstain_value : string;
  manual_key : string;
  manual_value : string;
  manual_prompt : string;
  invalid_entry_error : string
}.

Definition DEFAULT_OPTIONS : MenuOptions :=
  mkOptions false false true ") " "Choose an option from below"
    "Enter your choice: " "998" "No choice" "999" "Manually enter value"
    "Enter a value: "
    "Not a valid choice. Please choose from the keys on the left.".

(** [{'abstain':True, 'abstain_key':key, 'abstain_value':value}] over the
    defaults, and the same with ['intro_text']. *)
Definition abstain_options (key value : string) : MenuOptions :=
  mkOptions false true true ") " "Choose an option from below"
    "Enter your choice: " key value "999" "Manually enter value"
    "Enter a value: "
    "Not a valid choice. Please choose from the keys on the left.".

Definition abstain_intro_options (key value intro : string) : MenuOptions :=
  mkOptions false true true ") " intro
    "Enter your choice: " key value "999" "Manually enter value"
    "Enter a value: "
    "Not a valid choice. Please choose from the keys on the left.".

Definition DEFAULT_CHOICE_KEY : string := "1".
Definition DEFAULT_CHOICE_VALUE : string := "Nothing".

Record ConsoleMenu : Type := mkMenu {
  _choices : list (string * string);
  _options : MenuOptions
}.

(** [ConsoleMenu(choices, options)] *)
Definition ConsoleMenu_init (choices : list (pyval * string))
    (options : MenuOptions) : ConsoleMenu :=
  let c0 := fold_left (fun d kv => dict_set (py_str (fst kv)) (snd kv) d)
              choices [] in
  let c1 := if manual options
            then dict_set (manual_key options) (manual_value options) c0
            else c0 in
  let c2 := if abstain options
            then dict_set (abstain_key options) (abstain_value options) c1
            else c1 in
  let c3 := if (length c2 =? 0)%nat
            then dict_set DEFAULT_CHOICE_KEY DEFAULT_CHOICE_VALUE c2
            else c2 in
  mkMenu c3 options.

(** The lines [displayChoices] prints. *)
Definition choice_lines (self : ConsoleMenu) : list string :=
  map (fun kv => fst kv +:+ choice_suffix (_options self) +:+ snd kv)
    (_choices self).

Definition displayChoices (self : ConsoleMenu) : M World unit :=
  fold_right (fun line k => print line ;; k) (ret tt) (choice_lines self).

(** The loop of [gatherUserChoice].  Every round reads a line, so [fuel]
    rounds are enough when [fuel] exceeds the number of lines left. *)
Fixpoint gather_rounds (fuel : nat) (self : ConsoleMenu)
  : M World (option (string * string)) :=
  match fuel with
  | O => raise EOFError
  | S fuel' =>
      print (intro_text (_options self)) ;;
      displayChoices self ;;
      textchoice <- input (input_text (_options self)) ;;
      match dict_get textchoice (_choices self) with
      | None =>
          print (invalid_entry_error (_options self)) ;;
          gather_rounds fuel' self
      | Some value =>
          if manual (_options self)
             && String.eqb textchoice (manual_key (_options self))
          then
            manualtext <- input (manual_prompt (_options self)) ;;
            ret (Some (textchoice, manualtext))
          else if abstain (_options self)
                  && String.eqb textchoice (abstain_key (_options self))
          then ret None
          else ret (Some (textchoice, value))
      end
  end.

Definition gatherUserChoice (self : ConsoleMenu)
  : M World (option (string * string)) :=
  lines <- gets stdin ;;
  gather_rounds (S (length lines)) self.

Definition static_quickChoice (choices : list (pyval * string))
    (options : MenuOptions) : M World (option (string * string)) :=
  gatherUserChoice (ConsoleMenu_init choices options).

(** ** fc_main.py: the states *)

(** [int(s)], on the text of the number: an optional sign, then digits
    with single underscores between them.  (The bound that Python 3.11 puts
    on the number of digits, 4300 unless it is changed or switched off, is
    left out.) *)
Definition digit_value (c : ascii) : Z := Z.of_nat (ascii_code c) - 48.

Fixpoint int_digits (acc : Z) (after_underscore : bool) (s : string)
  : option Z :=
  match s with
  | EmptyString => if after_underscore then None else Some acc
  | String c s' =>
      if is_digit c then int_digits (acc * 10 + digit_value c) false s'
      else if Ascii.eqb c "_" && negb after_underscore
      then int_digits acc true s'
      else None
  end.

Definition py_int (s : string) : result Z :=
  let body := number_text s in
  let negative := match body with
                  | String c _ => Ascii.eqb c "-"
                  | EmptyString => false
                  end in
  match skip_sign body with
  | String c s' =>
      if is_digit c then
        match int_digits (digit_value c) false s' with
        | Some z => Return (if negative then - z else z)
        | None => Raise ValueError
        end
      else Raise ValueError
  | EmptyString => Raise ValueError
  end.

(** The state object of a run through a card list. *)
Record RunCardList : Type := mkRun {
  _cardlist : list loc;
  _endless : pyval;
  _answered : Z;
  _passed : Z;
  _index : Z
}.

Inductive FCState : Type :=
| FCStateMainMenu
| FCStateImportCSV
| FCStateRunCardsMenu
| FCStateRunCardList (run : RunCardList)
| FCStateEditCardsMain
| FCStateEditCard (card : loc).

(** [self.next] after [run()]: still the state itself (as [enter] set it),
    another state, or [None]. *)
Inductive next_state : Type :=
| Self
| Next (s : FCState)
| Exit.

(** [FCStateRunCardList(cardlist, mainmenu, cardset, endless=False)] *)
Definition FCStateRunCardList_init (cardlist : list loc) (endless : pyval)
  : RunCardList :=
  mkRun cardlist endless 0 0 0.

(** Truth value of an object in a condition. *)
Definition truthy (v : pyval) : bool :=
  match v with
  | PyNone => false
  | PyBool b => b
  | PyInt z => negb (z =? 0)
  | PyStr s => negb (String.eqb s EmptyString)
  end.

(** The names bound at the top level of [fc_main.py] when a state runs: its
    imports, functions and classes (and [sys] and [fcmain] of the main
    block).  A name a method uses without assigning it is looked up here;
    builtins follow, and they hold no name used below. *)
Definition fc_main_globals : list string :=
  ["os"; "re"; "pickle"; "csv"; "random"; "ConsoleMenu"; "FlashcardSet";
   "FlashcardCard"; "setnameToFilename"; "setnameToQuestionFilename";
   "FlashcardMain"; "FCState"; "FCStateMainMenu"; "FCStateImportCSV";
   "FCStateRunCardsMenu"; "FCStateRunCardList"; "FCStateEditCardsMain";
   "FCStateEditCard"; "sys"; "fcmain"].

(** The value of a global name, when it is one a condition can test. *)
Definition load_global (name : string) : M World pyval :=
  if bool_decide (name ∈ fc_main_globals) then ret (PyStr name)
  else raise (NameError name).

(** [self._set.getSortedCards(numcards, numrandomcards)] from a state. *)
Definition set_getSortedCards (numcards numrandomcards : Z)
  : M World (list loc) :=
  w <- get ;;
  with_random (getSortedCards (heap w) (the_set w) numcards numrandomcards).

Definition RunCardsMenu_choices : list (pyval * string) :=
  [(PyStr "1", "Run the lowest-scoring card");
   (PyStr "5", "Run 5 lowest-scoring cards");
   (PyStr "10", "Run 10 lowest-scoring cards");
   (PyStr "10r", "Run 10 random cards");
   (PyStr "15", "Run 10 lowest-scoring cards with 5 random cards");
   (PyStr "third", "Run the lowest-scoring 1/3rd of the cards");
   (PyStr "half", "Run the lowest-scoring 1/2 of the cards");
   (PyStr "all", "Run all the cards in the order they were added");
   (PyStr "endless", "Run the lowest-ranking card in the set until you quit");
   (PyStr "custom", "Define a custom run of the cards")].

(** The card list for a choice of [FCStateRunCardsMenu.run]; [None] when
    the method returned early. *)
Definition RunCardsMenu_cardlist (key : string) : M World (option (list loc)) :=
  s <- gets the_set ;;
  let size := Z.of_nat (length (getAllCards s)) in
  if String.eqb key "1" then l <- set_getSortedCards 1 0 ;; ret (Some l)
  else if String.eqb key "5" then l <- set_getSortedCards 5 0 ;; ret (Some l)
  else if String.eqb key "10" then l <- set_getSortedCards 10 0 ;; ret (Some l)
  else if String.eqb key "10r" then l <- set_getSortedCards 0 10 ;; ret (Some l)
  else if String.eqb key "15" then l <- set_getSortedCards 10 5 ;; ret (Some l)
  else if String.eqb key "third" then
    l <- set_getSortedCards (size / 3) 0 ;; ret (Some l)
  else if String.eqb key "half" then
    l <- set_getSortedCards (size / 2) 0 ;; ret (Some l)
  else if String.eqb key "all" then ret (Some (getAllCards s))
  else if String.eqb key "endless" then
    l <- set_getSortedCards 1 0 ;; ret (Some l)
  else if String.eqb key "custom" then
    inputranked <- input "Enter the number of lowest-scoring cards to run: " ;;
    inputrandom <- input "Enter the number of random cards to run: " ;;
    match py_int inputranked, py_int inputrandom with
    | Return numranked, Return numrandom =>
        l <- set_getSortedCards numranked numrandom ;; ret (Some l)
    | _, _ =>
        print "ERROR: One of the inputs above was not an integer. Returning to run menu." ;;
        ret None
    end
  else ret (Some []).

Definition FCStateRunCardsMenu_run : M World next_state :=
  s <- gets the_set ;;
  let options :=
    abstain_intro_options "q" "Return to main menu"
      (pretty (Z.of_nat (length (getAllCards s))) +:+ " cards in set. "
       +:+ "Choose a run from the list below") in
  choice <- static_quickChoice RunCardsMenu_choices options ;;
  match choice with
  | None => ret (Next FCStateMainMenu)
  | Some (key, _) =>
      cardlist <- RunCardsMenu_cardlist key ;;
      match cardlist with
      | None => ret Self
      | Some cardlist =>
          cardlist <- with_random (sorted float_lt cardlist (fun k => random)) ;;
          if String.eqb key "endless" then
            endless <- load_global "endless" ;;
            ret (Next (FCStateRunCardList
                         (FCStateRunCardList_init cardlist endless)))
          else
            ret (Next (FCStateRunCardList
                         (FCStateRunCardList_init cardlist (PyBool false))))
      end
  end.

Definition set_cardlist (l : list loc) (self : RunCardList) : RunCardList :=
  mkRun l (_endless self) (_answered self) (_passed self) (_index self).
Definition set_answered (n : Z) (self : RunCardList) : RunCardList :=
  mkRun (_cardlist self) (_endless self) n (_passed self) (_index self).
Definition set_passed (n : Z) (self : RunCardList) : RunCardList :=
  mkRun (_cardlist self) (_endless self) (_answered self) n (_index self).
Definition set_index (n : Z) (self : RunCardList) : RunCardList :=
  mkRun (_cardlist self) (_endless self) (_answered self) (_passed self) n.

Definition _askFreeform (question : string) : M World string :=
  print ("Question: " +:+ question) ;;
  input "Enter your answer (or q to return to the menu): ".

(** The [choices] dictionary [_askMultipleChoice] builds. *)
Definition _askMultipleChoice_choices (answers : list string)
  : M World (list (pyval * string)) :=
  if (Z.of_nat (length answers) =? 1)
     && match py_index answers 0 with
        | Return a => String.eqb a "True" || String.eqb a "False"
        | Raise _ => false
        end
  then ret [(PyStr "1", "True"); (PyStr "2", "False")]
  else
    shuffled <- with_random (sorted float_lt answers (fun k => random)) ;;
    ret (enumerate1 shuffled).

Definition _askMultipleChoice (question : string) (answers : list string)
  : M World string :=
  print ("Question: " +:+ question) ;;
  choices <- _askMultipleChoice_choices answers ;;
  choice <- static_quickChoice choices (abstain_options "q" "Return to menu") ;;
  match choice with
  | None => ret "q"
  | Some (_, value) => ret value
  end.

(** How [FCStateRunCardList.run] asks the question of a card. *)
Definition ask_question (c : FlashcardCard) : M World string :=
  if String.eqb (_answer_type c) "multiple_choice"
     || String.eqb (_answer_type c) "boolean"
  then _askMultipleChoice (_question c) (_valid_answers c)
  else _askFreeform (_question c).

(** [FCStateRunCardList.run]: the state object after the call, and its
    [next].  An exception ends the program ([FlashcardMain.run] catches
    none), so the state object is followed only through calls that return:
    when the call raises after [self._answered += 1], as it does for a card
    without answers, that count is lost with the object. *)
Definition FCStateRunCardList_run (self : RunCardList)
  : M World (RunCardList * next_state) :=
  (if negb (truthy (_endless self)) then
     print ("Questions remaining: "
            +:+ pretty (Z.of_nat (length (_cardlist self)) - _answered self))
   else ret tt) ;;
  card <- lift_result (py_index (_cardlist self) (_index self)) ;;
  c <- gets (fun w => deref (heap w) card) ;;
  answer <- ask_question c ;;
  if String.eqb answer "q" then ret (self, Next FCStateMainMenu)
  else
    let self := set_answered (_answered self + 1) self in
    a0 <- lift_result (py_index (_valid_answers c) 0) ;;
    print ("The correct answer is '" +:+ a0 +:+ "'.") ;;
    s <- gets the_set ;;
    uses <- lift_result (usesUserConfirm s c) ;;
    confirmed <-
      (if uses : bool then
         confirmtext <-
           input "Did you answer the question correctly? (enter 'y' for yes, anything else for no): " ;;
         ret (PyBool (String.eqb confirmtext "y" || String.eqb confirmtext "Y"))
       else ret PyNone) ;;
    passed <- with_card card (checkAnswer answer confirmed) ;;
    self <-
      (if passed : bool then
         print "Answer marked as correct" ;;
         ret (set_passed (_passed self + 1) self)
       else
         print "Answer marked as incorrect" ;;
         ret self) ;;
    print EmptyString ;;
    if truthy (_endless self) then
      l <- set_getSortedCards 1 0 ;;
      ret (set_cardlist l self, Self)
    else if _index self =? Z.of_nat (length (_cardlist self)) - 1 then
      ret (self, Next FCStateMainMenu)
    else ret (set_index (_index self + 1) self, Self).

(** *** The [csv] module: the dialect [excel] with the delimiter [~]

    The text of a file is a [string]; the special characters of the dialect
    are ASCII, so the writer and the reader can go through the text byte by
    byte.  How the text is encoded in the file is not modelled: what was
    written is what is read. *)

Definition CR : ascii := ascii_of_nat 13.
Definition LF : ascii := ascii_of_nat 10.
Definition quotechar : ascii := ascii_of_nat 34.
Definition delimiter : ascii := "~".
Definition lineterminator : string := String CR (String LF EmptyString).

(** A character that makes [csv.writer] put the field in quotes: the
    delimiter, the quote character, and the characters of the line
    terminator. *)
Definition csv_special (c : ascii) : bool :=
  Ascii.eqb c delimiter || Ascii.eqb c quotechar
  || Ascii.eqb c CR || Ascii.eqb c LF.

Fixpoint contains_special (s : string) : bool :=
  match s with
  | EmptyString => false
  | String c s' => csv_special c || contains_special s'
  end.

(** The field with every quote character doubled. *)
Fixpoint double_quotes (s : string) : string :=
  match s with
  | EmptyString => EmptyString
  | String c s' =>
      if Ascii.eqb c quotechar
      then String quotechar (String quotechar (double_quotes s'))
      else String c (double_quotes s')
  end.

Definition csv_field (s : string) : string :=
  if contains_special s
  then String quotechar (double_quotes s +:+ String quotechar EmptyString)
  else s.

Fixpoint join_fields (fields : list string) : string :=
  match fields with
  | [] => EmptyString
  | [f] => f
  | f :: fields' => f +:+ String delimiter (join_fields fields')
  end.

(** What [csvwriter.writerow(fields)] writes: a record that would be empty,
    a single empty field, is written as two quotes. *)
Definition writerow (fields : list string) : string :=
  let record := join_fields (map csv_field fields) in
  match fields, record with
  | _ :: _, EmptyString =>
      String quotechar (String quotechar lineterminator)
  | _, _ => record +:+ lineterminator
  end.

(** Reading a file opened in text mode: every line end, [\r\n], [\r] or
    [\n], arrives as [\n]. *)
Fixpoint universal_newlines (s : string) : string :=
  match s with
  | EmptyString => EmptyString
  | String c s' =>
      if Ascii.eqb c CR then
        String LF
          match s' with
          | String c' s'' =>
              if Ascii.eqb c' LF then universal_newlines s''
              else universal_newlines s'
          | EmptyString => EmptyString
          end
      else String c (universal_newlines s')
  end.

(** The lines of a text, each with its [\n]; the last one may lack it. *)
Fixpoint file_lines (s : string) : list string :=
  match s with
  | EmptyString => []
  | String c s' =>
      if Ascii.eqb c LF then String c EmptyString :: file_lines s'
      else
        match file_lines s' with
        | line :: lines => String c line :: lines
        | [] => [String c EmptyString]
        end
  end.

(** The states of the reader's parser that the dialect can reach (it has
    no escape character). *)
Inductive ParserState : Type :=
| START_RECORD
| START_FIELD
| IN_FIELD
| IN_QUOTED_FIELD
| QUOTE_IN_QUOTED_FIELD
| EAT_CRNL.

Record ReaderObj : Type := mkReader {
  state : ParserState;
  fields : list string;
  field : string
}.

Definition parse_reset : ReaderObj := mkReader START_RECORD [] EmptyString.

(** [csv.field_size_limit()], in characters. *)
Definition field_limit : Z := 131072.

(** The parser refuses the character that makes a field longer than the
    limit; here the field is refused when it is complete, which ends the
    same record with the same error. *)
Definition parse_save_field (self : ReaderObj) (next : ParserState)
  : result ReaderObj :=
  if field_limit <? Z.of_nat (length (chars (field self)))
  then Raise csv_Error
  else Return (mkReader next (fields self ++ [field self]) EmptyString).

Definition parse_add_char (self : ReaderObj) (c : ascii) (next : ParserState)
  : result ReaderObj :=
  Return (mkReader next (fields self)
            (field self +:+ String c EmptyString)).

Definition is_newline (c : ascii) : bool := Ascii.eqb c LF || Ascii.eqb c CR.

(** [parse_process_char]; [None] is the end of a line. *)
Definition parse_process_char (self : ReaderObj) (c : option ascii)
  : result ReaderObj :=
  let start_field :=
    match c with
    | None => parse_save_field self START_RECORD
    | Some ch =>
        if is_newline ch then parse_save_field self EAT_CRNL
        else if Ascii.eqb ch quotechar
        then Return (mkReader IN_QUOTED_FIELD (fields self) (field self))
        else if Ascii.eqb ch delimiter then parse_save_field self START_FIELD
        else parse_add_char self ch IN_FIELD
    end in
  match state self with
  | START_RECORD =>
      match c with
      | None => Return self
      | Some ch =>
          if is_newline ch
          then Return (mkReader EAT_CRNL (fields self) (field self))
          else start_field
      end
  | START_FIELD => start_field
  | IN_FIELD =>
      match c with
      | None => parse_save_field self START_RECORD
      | Some ch =>
          if is_newline ch then parse_save_field self EAT_CRNL
          else if Ascii.eqb ch delimiter then parse_save_field self START_FIELD
          else parse_add_char self ch IN_FIELD
      end
  | IN_QUOTED_FIELD =>
      match c with
      | None => Return self
      | Some ch =>
          if Ascii.eqb ch quotechar
          then Return (mkReader QUOTE_IN_QUOTED_FIELD (fields self)
                         (field self))
          else parse_add_char self ch IN_QUOTED_FIELD
      end
  | QUOTE_IN_QUOTED_FIELD =>
      match c with
      | None => parse_save_field self START_RECORD
      | Some ch =>
          if Ascii.eqb ch quotechar then parse_add_char self ch IN_QUOTED_FIELD
          else if Ascii.eqb ch delimiter then parse_save_field self START_FIELD
          else if is_newline ch then parse_save_field self EAT_CRNL
          else parse_add_char self ch IN_FIELD
      end
  | EAT_CRNL =>
      match c with
      | None => Return (mkReader START_RECORD (fields self) (field self))
      | Some ch => if is_newline ch then Return self else Raise csv_Error
      end
  end.

(** The characters of a line, then the end of the line. *)
Fixpoint parse_line (self : ReaderObj) (line : string) : result ReaderObj :=
  match line with
  | EmptyString => parse_process_char self None
  | String c line' =>
      match parse_process_char self (Some c) with
      | Return self' => parse_line self' line'
      | Raise e => Raise e
      end
  end.

(** The rows [csv.reader] yields for the lines, and the error that ends the
    iteration, if one does: a record takes lines until the parser is back
    at the start of a record. *)
Fixpoint reader_rows (self : ReaderObj) (lines : list string)
  : list (list string) * option exn :=
  match lines with
  | [] =>
      let quoted := match state self with
                    | IN_QUOTED_FIELD => true
                    | _ => false
                    end in
      if negb (String.eqb (field self) EmptyString) || quoted then
        match parse_save_field self (state self) with
        | Return self' => ([fields self'], None)
        | Raise e => ([], Some e)
        end
      else ([], None)
  | line :: lines' =>
      match parse_line self line with
      | Raise e => ([], Some e)
      | Return self' =>
          match state self' with
          | START_RECORD =>
              let (rows, e) := reader_rows parse_reset lines' in
              (fields self' :: rows, e)
          | _ => reader_rows self' lines'
          end
      end
  end.

Definition csv_reader (text : string) : list (list string) * option exn :=
  reader_rows parse_reset (file_lines (universal_newlines text)).

(** *** Importing a CSV file *)

(** The fields of one line as [csv.reader(f, delimiter='~')] returns them,
    for a line without quote characters: an empty line has no fields. *)
Fixpoint split_fields (s : string) : list string :=
  match s with
  | EmptyString => [EmptyString]
  | String c s' =>
      if Ascii.eqb c "~" then EmptyString :: split_fields s'
      else match split_fields s' with
           | f :: fs => String c f :: fs
           | [] => [String c EmptyString]
           end
  end.

Definition csv_row (line : string) : list string :=
  match line with
  | EmptyString => []
  | _ => split_fields line
  end.

(** The answers kept from the columns after the first. *)
Fixpoint usable_answers (columns : list string) : list string :=
  match columns with
  | [] => []
  | answer :: columns' =>
      if negb (String.eqb (strip answer) EmptyString)
      then strip answer :: usable_answers columns'
      else usable_answers columns'
  end.

(** The loop over the rows of the chosen file; it returns
    [questionsimported]. *)
Fixpoint import_rows (rows : list (list string))
    (linenumber questionsimported : Z) : M World Z :=
  match rows with
  | [] => ret questionsimported
  | row :: rows' =>
      let linenumber := linenumber + 1 in
      if Z.of_nat (length row) <? 2 then
        print ("Error on line " +:+ pretty linenumber
               +:+ ": Not enough fields. Need at "
               +:+ "least 2 (question and correct answer).") ;;
        import_rows rows' linenumber questionsimported
      else
        field0 <- lift_result (py_index row 0) ;;
        let question := strip field0 in
        let valid_answers := usable_answers (py_slice_from1 row) in
        card <- new_card (FlashcardCard_init question valid_answers None None) ;;
        h <- gets heap ;;
        cardadded <- with_set (addCard h card false) ;;
        if cardadded : bool then
          import_rows rows' linenumber (questionsimported + 1)
        else
          print ("Warning on line " +:+ pretty linenumber
                 +:+ ": Question already exists "
                 +:+ "in flashcard set: " +:+ question) ;;
          import_rows rows' linenumber questionsimported
  end.

(** [FCStateImportCSV.run] from the point where the file is open, [rows]
    being what the reader yields. *)
Definition FCStateImportCSV_read (rows : list (list string))
  : M World next_state :=
  questionsimported <- import_rows rows 0 0 ;;
  print (pretty questionsimported +:+ " questions successfully imported") ;;
  ret (Next FCStateMainMenu).

(** [FCStateImportCSV.run] from the point where the file is open, [text]
    being what the file holds: the rows are imported as the reader yields
    them, up to the error of the reader, if it meets one. *)
Definition FCStateImportCSV_text (text : string) : M World next_state :=
  let (rows, error) := csv_reader text in
  match error with
  | None => FCStateImportCSV_read rows
  | Some e => import_rows rows 0 0 ;; raise e
  end.

(** *** Editing a card *)

Definition double_quote : string := String (ascii_of_nat 34) EmptyString.

(** [FCStateEditCard._changeQuestionText], for the state whose [_card] is
    the object at [card]. *)
Definition _changeQuestionText (card : loc) : M World unit :=
  c <- gets (fun w => deref (heap w) card) ;;
  print ("Current question text: " +:+ double_quote +:+ _question c
         +:+ double_quote) ;;
  print "Press enter without entering text to not change the question text." ;;
  newtext <- input "Enter new question text: " ;;
  if negb (String.eqb newtext EmptyString)
  then with_card card (modify (set_question newtext))
  else ret tt.

(** ** Definitions used to state the properties *)

(** The card of the scenario after one wrong answer: 0 of 1. *)
Definition card_0_of_1 : FlashcardCard :=
  snd (checkAnswer "5" PyNone (mkCard CLASS_VERSION "2+2?" ["4"] "numeric" None 0 0)).

(** The card of the scenario after one right answer and two wrong ones:
    1 of 3. *)
Definition card_1_of_3 : FlashcardCard :=
  checkAnswers [("4", PyNone); ("5", PyNone); ("6", PyNone)]
    (mkCard CLASS_VERSION "2+2?" ["4"] "numeric" None 0 0).

(** Some character of [s] is one [str.strip] would remove. *)
Definition contains_whitespace (s : string) : bool :=
  existsb (fun t => Py_UNICODE_ISSPACE (fst t)) (chars s).

(** The rule for the guessed type in the words of the specification, for a
    list with first answer [a0] and further answers [rest]. *)
Definition spec_guessed_type (a0 : string) (rest : list string) : string :=
  match rest with
  | _ :: _ => "multiple_choice"
  | [] =>
      if String.eqb a0 "True" || String.eqb a0 "False" then "boolean"
      else if float_parses a0 then "numeric"
      else if negb (contains_whitespace a0) then "word"
      else "text"
  end.

(** The answer [a<TAB>b]. *)
Definition tabbed_answer : string :=
  String "a" (String (ascii_of_nat 9) (String "b" EmptyString)).

(** The characters U+00A0 (no-break space), U+0085 (next line), U+2003 (em
    space) and U+001C (file separator), each as a text of its own. *)
Definition no_break_space : string :=
  String (ascii_of_nat 194) (String (ascii_of_nat 160) EmptyString).
Definition next_line : string :=
  String (ascii_of_nat 194) (String (ascii_of_nat 133) EmptyString).
Definition em_space : string :=
  String (ascii_of_nat 226)
    (String (ascii_of_nat 128) (String (ascii_of_nat 131) EmptyString)).
Definition file_separator : string :=
  String (ascii_of_nat 28) EmptyString.

(** The digits 3 of Arabic (U+0663) and 1 2 of full width (U+FF11,
    U+FF12). *)
Definition arabic_three : string :=
  String (ascii_of_nat 217) (String (ascii_of_nat 163) EmptyString).
Definition fullwidth_twelve : string :=
  String (ascii_of_nat 239)
    (String (ascii_of_nat 188) (String (ascii_of_nat 145)
       (String (ascii_of_nat 239)
          (String (ascii_of_nat 188) (String (ascii_of_nat 146)
             EmptyString))))).

(** The next [n] floats of the generator, and the generator after them. *)
Definition draw_keys (r : RandomState) (n : nat) : list Qc :=
  map (fun i => draws r (drawn r + i)%nat) (seq 0 n).

Definition advance (n : nat) (r : RandomState) : RandomState :=
  mkRandom (draws r) (n + drawn r).



(** The ranking of the card at an address. *)
Definition ranking_at (h : list FlashcardCard) (x : loc) : Qc :=
  ranking_value (deref h x).

(** A generator that returns 0 for its first [k] floats and then the floats
    of the list [ds]. *)
Definition draws_from (k : nat) (ds : list Qc) : RandomState :=
  mkRandom (fun i => if (i <? k)%nat then 0%Qc else nth (i - k) ds 0%Qc) 0.

(** What one round of a menu prints before it reads. *)
Definition round_lines (self : ConsoleMenu) : list string :=
  intro_text (_options self) :: choice_lines self
  ++ [input_text (_options self)].

(** The lines of a menu for the choices [1], [2], ... *)
Definition numbered_lines (l : list string) : list string :=
  imap (fun i a => pretty (Z.of_nat i + 1) +:+ ") " +:+ a) l.

(** A program state with an empty card set, nothing printed yet, and the
    given lines of input to come. *)
Definition console_start (lines : list string) : World :=
  mkWorld [] (FlashcardSet_init "deck") lines [] (draws_from 0 []).

(** A card of type boolean that stores a distractor. *)
Definition boolean_with_distractor : FlashcardCard :=
  mkCard CLASS_VERSION "Is it?" ["True"; "Maybe"] "boolean" None 0 0.

(** The questions of the cards of the set, in list order. *)
Definition questions (h : list FlashcardCard) (l : list loc) : list string :=
  map (fun x => _question (deref h x)) l.

(** No two cards of the set have the same question. *)
Definition unique_questions (w : World) : Prop :=
  NoDup (questions (heap w) (cards (the_set w))).

(** The set after importing the rows [Q1~4] and [Q2~True] into an empty one. *)
Definition two_cards : World :=
  snd (FCStateImportCSV_read [csv_row "Q1~4"; csv_row "Q2~True"]
         (console_start [])).

(** The answer list is the single answer ["True"] or ["False"]. *)
Definition true_false_answers (answers : list string) : bool :=
  match answers with
  | [a] => String.eqb a "True" || String.eqb a "False"
  | _ => false
  end.

(** The card is asked through a menu of choices. *)
Definition asked_by_menu (c : FlashcardCard) : bool :=
  String.eqb (_answer_type c) "multiple_choice"
  || String.eqb (_answer_type c) "boolean".

(** Every card of the set is an allocated object. *)
Definition cards_allocated (w : World) : Prop :=
  Forall (fun x => (x < length (heap w))%nat) (cards (the_set w)).

(** ** Unpickling: [__setstate__] *)

(** What a pickled state holds under ['_instance_version']: a list of
    integers, or an object of another type. *)
Inductive stored_version : Type :=
| VersionList (v : list Z)
| VersionOther (v : pyval).

(** The exception of the module [versionexception], with the arguments the
    two classes pass to it. *)
Inductive VersionException : Type :=
| BAD_TYPE (version : stored_version)
| TOO_NEW (version class_version : list Z).

(** [a < b] on lists of integers: the first difference decides, and a proper
    prefix is smaller. *)
Fixpoint list_lt (a b : list Z) : bool :=
  match a, b with
  | [], [] => false
  | [], _ :: _ => true
  | _ :: _, [] => false
  | x :: a', y :: b' => if x =? y then list_lt a' b' else x <? y
  end.

(** The version checks that [FlashcardCard.__setstate__] and
    [FlashcardSet.__setstate__] both make: the version the unpickled object
    gets, or the exception. *)
Definition setstate_version (stored : option stored_version)
  : VersionException + list Z :=
  let version :=
    match stored with
    | None => VersionList [0]
    | Some v => v
    end in
  match version with
  | VersionOther _ => inl (BAD_TYPE version)
  | VersionList v =>
      if list_lt CLASS_VERSION v then inl (TOO_NEW v CLASS_VERSION)
      else if list_lt v [1; 1] then inr [1; 1]
      else inr v
  end.

(** [FlashcardCard.__setstate__(state)]: [state] holds the other attributes. *)
Definition FlashcardCard_setstate (stored : option stored_version)
    (state : FlashcardCard) : VersionException + FlashcardCard :=
  match setstate_version stored with
  | inl e => inl e
  | inr v =>
      inr (mkCard v (_question state) (_valid_answers state)
             (_answer_type state) (_override_confirms state)
             (_attempts state) (_correct state))
  end.

(** [FlashcardSet.__setstate__(state)] *)
Definition FlashcardSet_setstate (stored : option stored_version)
    (state : FlashcardSet) : VersionException + FlashcardSet :=
  match setstate_version stored with
  | inl e => inl e
  | inr v => inr (mkSet v (setname state) (confirms state) (cards state))
  end.

(** How many elements [l[:n]] has, for a list of [size] elements. *)
Definition slice_length (size : nat) (n : Z) : nat :=
  if n <? 0 then Z.to_nat (Z.of_nat size + n) else Nat.min (Z.to_nat n) size.

(** ** fc_main.py: the remaining screens *)

Definition setnameToFilename (setname : string) : string :=
  setname +:+ ".flashcards".

Definition setnameToQuestionFilename (setname : string) : string :=
  setname +:+ "-questions.csv".

(** The loop of [_exportCSV]: what the calls of [csvwriter.writerow] write,
    one record per card, and the count. *)
Fixpoint export_rows (h : list FlashcardCard) (cards : list loc)
    (cardsExported : Z) : string * Z :=
  match cards with
  | [] => (EmptyString, cardsExported)
  | card :: cards' =>
      let row := _question (deref h card) :: _valid_answers (deref h card) in
      let (text, n) := export_rows h cards' (cardsExported + 1) in
      (writerow row +:+ text, n)
  end.

(** [FCStateMainMenu._exportCSV]; the result is the text written to the
    file, which is opened with [newline=''], so that the text is written as
    it is. *)
Definition _exportCSV : M World string :=
  w <- get ;;
  let cards := getAllCards (the_set w) in
  let filename := setnameToQuestionFilename (getSetName (the_set w)) in
  let (text, cardsExported) := export_rows (heap w) cards 0 in
  print (pretty cardsExported +:+ " questions exported to " +:+ filename) ;;
  ret text.

(** [c * n] for a one-character string. *)
Fixpoint str_repeat (c : ascii) (n : nat) : string :=
  match n with
  | O => EmptyString
  | S n' => String c (str_repeat c n')
  end.

(** The percentage of [FCStateRunCardList.exit]:
    [int(100.0 * self._passed/self._answered)]. *)
Definition passedpct (self : RunCardList) : result Z :=
  if 0 <? _answered self then
    match float_of_int (_passed self) with
    | Raise e => Raise e
    | Return passed =>
        let product := float_mul (Finite (Qc_of_Z 100)) (Finite passed) in
        match float_of_int (_answered self) with
        | Raise e => Raise e
        | Return answered =>
            match float_div product (Finite answered) with
            | Raise e => Raise e
            | Return quotient => int_of_float quotient
            end
        end
    end
  else Return 0.

Definition exit_line (self : RunCardList) (passedpct : Z) : string :=
  "* Passed/Answered = " +:+ pretty (_passed self) +:+ "/"
  +:+ pretty (_answered self) +:+ " = " +:+ pretty passedpct +:+ "% *".

(** [FCStateRunCardList.exit], after the blank line of [FCState.exit].  The
    text line is ASCII, so its length in bytes is its [len]. *)
Definition FCStateRunCardList_exit (self : RunCardList) : M World unit :=
  print EmptyString ;;
  passedpct <- lift_result (passedpct self) ;;
  let printstr := exit_line self passedpct in
  let borders := str_repeat "*" (String.length printstr) in
  print borders ;;
  print printstr ;;
  print borders ;;
  print EmptyString.

(** *** The list of cards to edit *)

Definition EditCardsMain_options : MenuOptions :=
  mkOptions true true true ") " "Choose an option from below"
    "Enter your choice: " "q" "Return to main menu" "n" "Enter a new question"
    "Enter the new question: "
    "Not a valid choice. Please choose from the keys on the left.".

(** The inner loop: answers are read until an empty line. *)
Fixpoint read_answers (fuel : nat) (valid_answers : list string)
  : M World (list string) :=
  match fuel with
  | O => raise EOFError
  | S fuel' =>
      inputtext <- input "Enter answer: " ;;
      if negb (String.eqb inputtext EmptyString)
      then read_answers fuel' (valid_answers ++ [inputtext])
      else ret valid_answers
  end.

(** The outer loop: asked again until there is an answer.  Every round reads
    a line. *)
Fixpoint enter_answers (fuel : nat) : M World (list string) :=
  match fuel with
  | O => raise EOFError
  | S fuel' =>
      print "For freeform questions, enter the correct answer." ;;
      print "For True/False questions, enter 'True' or 'False' (case/spelling sensitive!)." ;;
      print "For multiple-choice questions, enter all possible answers, starting with the correct answer." ;;
      print "To stop entering answers, hit enter without typing text." ;;
      lines <- gets stdin ;;
      valid_answers <- read_answers (S (length lines)) [] ;;
      if (length valid_answers =? 0)%nat then
        print "ERROR: At least one answer must be entered." ;;
        enter_answers fuel'
      else ret valid_answers
  end.

Definition FCStateEditCardsMain_run : M World next_state :=
  w <- get ;;
  let cardlist := getAllCards (the_set w) in
  let questionlist := questions (heap w) cardlist in
  choice <- static_quickChoice (enumerate1 questionlist) EditCardsMain_options ;;
  match choice with
  | None => ret (Next FCStateMainMenu)
  | Some (key, value) =>
      if String.eqb key "n" then
        let question := value in
        lines <- gets stdin ;;
        valid_answers <- enter_answers (S (length lines)) ;;
        card <- new_card (FlashcardCard_init question valid_answers None None) ;;
        h <- gets heap ;;
        with_set (addCard h card true) ;;
        ret Self
      else
        i <- lift_result (py_int key) ;;
        card <- lift_result (py_index cardlist (i - 1)) ;;
        ret (Next (FCStateEditCard card))
  end.

(** *** The screens that edit one card *)

Definition set_valid_answers (l : list string) (c : FlashcardCard)
  : FlashcardCard :=
  mkCard (_instance_version c) (_question c) l (_answer_type c)
         (_override_confirms c) (_attempts c) (_correct c).
Definition set_answer_type (t : string) (c : FlashcardCard) : FlashcardCard :=
  mkCard (_instance_version c) (_question c) (_valid_answers c) t
         (_override_confirms c) (_attempts c) (_correct c).
Definition set_override_confirms (o : option bool) (c : FlashcardCard)
  : FlashcardCard :=
  mkCard (_instance_version c) (_question c) (_valid_answers c)
         (_answer_type c) o (_attempts c) (_correct c).

(** [l[i] = v] with Python's negative indices. *)
Definition py_setitem {A : Type} (l : list A) (i : Z) (v : A)
  : result (list A) :=
  let n := Z.of_nat (length l) in
  let j := if i <? 0 then i + n else i in
  if (j <? 0) || (n <=? j) then Raise IndexError
  else Return (<[Z.to_nat j := v]> l).

Definition _changeAnswer (card : loc) (answerindex : Z) : M World unit :=
  c <- gets (fun w => deref (heap w) card) ;;
  current <- lift_result (py_index (_valid_answers c) answerindex) ;;
  print ("Current answer text: " +:+ double_quote +:+ current
         +:+ double_quote) ;;
  print "Press enter without entering text to not change the answer text." ;;
  newtext <- input "Enter new answer text: " ;;
  if negb (String.eqb newtext EmptyString) then
    l <- lift_result (py_setitem (_valid_answers c) answerindex newtext) ;;
    with_card card (modify (set_valid_answers l))
  else ret tt.

Definition _chooseAnswer_options : MenuOptions :=
  mkOptions true true true ") "
    "Choose one of the answers, or change the correct answer"
    "Enter your choice: " "q" "Return to edit card menu" "a" "Add new answer"
    "Enter new answer: "
    "Not a valid choice. Please choose from the keys on the left.".

(** An index typed by the user, less one; [None] when it is no integer. *)
Definition typed_index (inputtext : string) : option Z :=
  match py_int inputtext with
  | Return z => Some (z - 1)
  | Raise _ => None
  end.

Definition _chooseAnswer (card : loc) : M World unit :=
  c <- gets (fun w => deref (heap w) card) ;;
  let valid_answers := _valid_answers c in
  let choices :=
    enumerate1 valid_answers
    ++ [(PyStr "c", "Change correct answer"); (PyStr "d", "Delete an answer")] in
  choice <- static_quickChoice choices _chooseAnswer_options ;;
  match choice with
  | None => ret tt
  | Some (key, value) =>
      if String.eqb key "a" then
        with_card card (modify (set_valid_answers (valid_answers ++ [value])))
      else if String.eqb key "c" then
        inputtext <-
          input ("Enter key for correct answer (integer between 1 and "
                 +:+ pretty (Z.of_nat (length valid_answers)) +:+ "): ") ;;
        match typed_index inputtext with
        | Some newcorrect =>
            if (0 <=? newcorrect)
               && (newcorrect <? Z.of_nat (length valid_answers))
            then
              popped <- lift_result (py_index valid_answers newcorrect) ;;
              with_card card
                (modify (set_valid_answers
                           (popped :: delete (Z.to_nat newcorrect) valid_answers)))
            else ret tt
        | None => ret tt
        end
      else if String.eqb key "d" then
        inputtext <- input "Enter key for the answer to delete: " ;;
        match typed_index inputtext with
        | Some deleteindex =>
            if (0 <=? deleteindex)
               && (deleteindex <? Z.of_nat (length valid_answers))
            then
              with_card card
                (modify (set_valid_answers
                           (delete (Z.to_nat deleteindex) valid_answers)))
            else ret tt
        | None => ret tt
        end
      else
        i <- lift_result (py_int key) ;;
        _changeAnswer card (i - 1)
  end.

Definition _changeAnswerType (card : loc) : M World unit :=
  c <- gets (fun w => deref (heap w) card) ;;
  let options :=
    abstain_intro_options "q" "Return to edit card menu"
      ("Choose an answer type (current: " +:+ _answer_type c +:+ ")") in
  choice <- static_quickChoice (enumerate1 ANSWER_TYPES) options ;;
  match choice with
  | None => ret tt
  | Some (key, _) =>
      i <- lift_result (py_int key) ;;
      t <- lift_result (py_index ANSWER_TYPES (i - 1)) ;;
      with_card card (modify (set_answer_type t))
  end.

(** [str(self._card._override_confirms)] *)
Definition override_str (o : option bool) : string :=
  match o with
  | None => "None"
  | Some b => py_str (PyBool b)
  end.

(** [_changeOverrideConfirm]: the values of its two choices are the booleans
    [True] and [False]; the menu holds them as it prints them. *)
Definition _changeOverrideConfirm (card : loc) : M World unit :=
  c <- gets (fun w => deref (heap w) card) ;;
  let choices :=
    [(PyStr "1", py_str (PyBool true)); (PyStr "2", py_str (PyBool false))] in
  let options :=
    abstain_intro_options "q" "Return to edit card menu"
      ("Choose an override confirm setting (current: "
       +:+ override_str (_override_confirms c) +:+ ")") in
  choice <- static_quickChoice choices options ;;
  match choice with
  | None => ret tt
  | Some (_, value) =>
      with_card card
        (modify (set_override_confirms
                   (Some (String.eqb value (py_str (PyBool true))))))
  end.

(** The question and the answers of the card at an address. *)
Definition card_data (h : list FlashcardCard) (x : loc)
  : string * list string :=
  (_question (deref h x), _valid_answers (deref h x)).

(** A question with its answers goes through the import as it is: there
    is an answer, and no field is blank or has white space at its ends. *)
Definition survives_csv (qa : string * list string) : Prop :=
  strip (fst qa) = fst qa
  /\ snd qa <> []
  /\ Forall (fun a => strip a = a /\ a <> EmptyString) (snd qa).

(** A field that [csv.writer] writes as it is and [csv.reader] takes as it
    is: none of [~], the quote character, [\r] and [\n] in it, and no
    longer than the reader allows. *)
Definition csv_plain (f : string) : Prop :=
  contains_special f = false
  /\ Z.of_nat (length (chars f)) <= field_limit.

Definition csv_plain_row (qa : string * list string) : Prop :=
  Forall csv_plain (fst qa :: snd qa).

(** A line without quote characters and without line ends. *)
Fixpoint plain_line (s : string) : bool :=
  match s with
  | EmptyString => true
  | String c s' =>
      negb (Ascii.eqb c quotechar) && negb (is_newline c) && plain_line s'
  end.

(** The text of the records of some rows. *)
Definition records (rows : list (list string)) : string :=
  fold_right (fun row text => writerow row +:+ text) EmptyString rows.

(** The card objects and the card set are the same in two program states. *)
Definition same_cards (w w' : World) : Prop :=
  heap w' = heap w /\ the_set w' = the_set w.

(** A run over the two cards of [two_cards], second card first, with the
    user about to choose [1] (True). *)
Definition run_start : RunCardList :=
  FCStateRunCardList_init [1%nat; 0%nat] (PyBool false).

Definition run_world : World := set_stdin ["1"] two_cards.

(** ** Notions of the further properties *)

(** A string of decimal digits. *)
Fixpoint all_digits (s : string) : bool :=
  match s with
  | EmptyString => true
  | String c s' => is_digit c && all_digits s'
  end.

(** The exceptions a call can end with all satisfy [P]. *)
Definition raises_only {A : Type} (P : exn -> Prop) (m : M World A) : Prop :=
  forall w e, fst (m w) = Raise e -> P e.

(** What the answers screen of a card can make of the answer list [l]: a new
    answer at the end, one of the answers moved to the front, one of them
    deleted, or the text of one of them replaced. *)
Inductive answers_change (l : list string) : list string -> Prop :=
| change_add (a : string) : answers_change l (l ++ [a])
| change_correct (i : nat) (a : string) :
    l !! i = Some a -> answers_change l (a :: delete i l)
| change_delete (i : nat) :
    (i < length l)%nat -> answers_change l (delete i l)
| change_text (i : nat) (a : string) :
    (i < length l)%nat -> a <> EmptyString ->
    answers_change l (<[i := a]> l).

(** The loop [while currstate.next == currstate: currstate.run()] of
    [FlashcardMain.run], for a run through a card list: the state object
    when the loop is left, and its [next]; [None] when [fuel] calls were not
    enough. *)
Fixpoint run_while_self (fuel : nat) (self : RunCardList)
  : M World (option (RunCardList * next_state)) :=
  match fuel with
  | O => ret None
  | S fuel' =>
      step <- FCStateRunCardList_run self ;;
      match step with
      | (self', Self) => run_while_self fuel' self'
      | (self', nxt) => ret (Some (self', nxt))
      end
  end.

(** * Properties *)

Example guess_numeric : _guessAnswerType ["4"] = Return "numeric".
Proof. reflexivity. Qed.

(** ** Text: white space and numbers *)

(** [str.strip] removes white space of every script, and the separators
    U+001C to U+001F with it. *)
Example strip_scenario :
  strip (no_break_space +:+ " a b" +:+ em_space +:+ next_line) = "a b"
  /\ strip (file_separator +:+ "4" +:+ tabbed_answer +:+ " ")
     = "4" +:+ tabbed_answer
  /\ strip (em_space +:+ no_break_space) = EmptyString
  /\ strip (String (ascii_of_nat 160) "4") = String (ascii_of_nat 160) "4".
Proof. repeat split. Qed.

(** [float] and [int] take white space and digits of every script, but of
    the separators U+001C to U+001F they take none: [str.strip] removes
    them, the numbers do not. *)
Example float_scenario :
  float_parses (no_break_space +:+ "4") = true
  /\ float_parses (file_separator +:+ "4") = false
  /\ float_parses arabic_three = true
  /\ float_parses (fullwidth_twelve +:+ ".5") = true
  /\ float_parses " 1_000.5e-3 " = true
  /\ float_parses "1__0" = false
  /\ float_parses "-Infinity" = true
  /\ float_parses "nan" = true
  /\ float_parses "0x10" = false
  /\ float_parses "1e" = false
  /\ float_parses "." = false
  /\ float_parses EmptyString = false.
Proof. repeat split. Qed.

Example int_scenario :
  py_int (no_break_space +:+ "5") = Return 5
  /\ py_int (file_separator +:+ "2") = Raise ValueError
  /\ py_int arabic_three = Return 3
  /\ py_int (em_space +:+ "-" +:+ fullwidth_twelve +:+ " ") = Return (-12)
  /\ py_int "1_000" = Return 1000
  /\ py_int "007" = Return 7
  /\ py_int "+ 5" = Raise ValueError
  /\ py_int "1.0" = Raise ValueError
  /\ py_int "two" = Raise ValueError
  /\ py_int EmptyString = Raise ValueError.
Proof. repeat split. Qed.

Example guess_scenario :
  _guessAnswerType [no_break_space +:+ "4"] = Return "numeric"
  /\ _guessAnswerType [file_separator +:+ "4"] = Return "word"
  /\ _guessAnswerType [arabic_three] = Return "numeric"
  /\ _guessAnswerType ["4 apples"] = Return "text"
  /\ _guessAnswerType [tabbed_answer] = Return "word".
Proof. repeat split. Qed.

(** ** Doubles *)

Section Doubles.
Local Open Scope Q_scope.

Lemma pow2_pos (e : Z) : 0 < pow2 e.
Proof. apply Qpower_0_lt. reflexivity. Qed.

Lemma pow2_add (a b : Z) : pow2 (a + b) == pow2 a * pow2 b.
Proof. apply Qpower_plus. discriminate. Qed.

Lemma pow2_le (a b : Z) : (a <= b)%Z -> pow2 a <= pow2 b.
Proof. intros H. apply Qpower_le_compat_l; [exact H|discriminate]. Qed.

Lemma pow2_lt (a b : Z) : (a < b)%Z -> pow2 a < pow2 b.
Proof. intros H. apply Qpower_lt_compat_l; [exact H|reflexivity]. Qed.

Lemma pow2_lt_inv (a b : Z) : pow2 a < pow2 b -> (a < b)%Z.
Proof. intros H. apply (Qpower_lt_compat_l_inv 2); [exact H|reflexivity]. Qed.

Lemma pow2_inject (e : Z) : (0 <= e)%Z -> pow2 e == inject_Z (2 ^ e).
Proof. intros H. symmetry. apply (Zpower_Qpower 2 e H). Qed.

Lemma pow2_sub (a b : Z) : pow2 (a - b) * pow2 b == pow2 a.
Proof. rewrite <- pow2_add. replace (a - b + b)%Z with a by ring. reflexivity. Qed.

Lemma inject_Z_le_pow2 (n a : Z) :
  (0 <= a)%Z -> (2 ^ a <= n)%Z -> pow2 a <= inject_Z n.
Proof. intros Ha H. rewrite pow2_inject by exact Ha. rewrite <- Zle_Qle. exact H. Qed.

Lemma inject_Z_lt_pow2 (n a : Z) :
  (0 <= a)%Z -> (n < 2 ^ a)%Z -> inject_Z n < pow2 a.
Proof. intros Ha H. rewrite pow2_inject by exact Ha. rewrite <- Zlt_Qlt. exact H. Qed.

Lemma ilog2_spec (x : Q) :
  0 < x -> pow2 (ilog2 x) <= x /\ x < pow2 (ilog2 x + 1).
Proof.
  intros Hx. unfold ilog2.
  destruct x as [n d]. cbn [Qnum Qden].
  assert (Hn : (0 < n)%Z) by (unfold Qlt in Hx; cbn in Hx; lia).
  set (a := Z.log2 n). set (b := Z.log2 (Z.pos d)).
  pose proof (Z.log2_nonneg n) as Ha0. fold a in Ha0.
  pose proof (Z.log2_nonneg (Z.pos d)) as Hb0. fold b in Hb0.
  destruct (Z.log2_spec n Hn) as [Ha1 Ha2]. fold a in Ha1, Ha2.
  destruct (Z.log2_spec (Z.pos d) ltac:(lia)) as [Hb1 Hb2]. fold b in Hb1, Hb2.
  replace (Z.succ a) with (a + 1)%Z in Ha2 by lia.
  replace (Z.succ b) with (b + 1)%Z in Hb2 by lia.
  assert (Hxd : (n # d) * inject_Z (Z.pos d) == inject_Z n).
  { rewrite (Qmake_Qdiv n d). field. discriminate. }
  pose proof (inject_Z_le_pow2 n a Ha0 Ha1) as Qa1.
  pose proof (inject_Z_lt_pow2 n (a + 1) ltac:(lia) Ha2) as Qa2.
  pose proof (inject_Z_le_pow2 (Z.pos d) b Hb0 Hb1) as Qb1.
  pose proof (inject_Z_lt_pow2 (Z.pos d) (b + 1) ltac:(lia) Hb2) as Qb2.
  pose proof (pow2_pos b) as Pb. pose proof (pow2_pos (b + 1)) as Pb1.
  (* x below 2^(k+1) and above 2^(k-1) *)
  assert (Hup : (n # d) < pow2 (a - b + 1)).
  { apply (Qmult_lt_r _ _ (pow2 b) Pb).
    replace (a - b + 1)%Z with (a + 1 - b)%Z by ring. rewrite pow2_sub.
    apply Qle_lt_trans with ((n # d) * inject_Z (Z.pos d)).
    - apply Qmult_le_l; [exact Hx|exact Qb1].
    - rewrite Hxd. exact Qa2. }
  assert (Hlo : pow2 (a - b - 1) < (n # d)).
  { apply (Qmult_lt_r _ _ (pow2 (b + 1)) Pb1).
    replace (a - b - 1)%Z with (a - (b + 1))%Z by ring. rewrite pow2_sub.
    apply Qle_lt_trans with ((n # d) * inject_Z (Z.pos d)).
    - rewrite Hxd. exact Qa1.
    - apply Qmult_lt_l; [exact Hx|exact Qb2]. }
  destruct (Qle_bool (pow2 (a - b)) (n # d)) eqn:Hle.
  - apply Qle_bool_iff in Hle. split; [exact Hle|exact Hup].
  - split; [apply Qlt_le_weak, Hlo|].
    replace (a - b - 1 + 1)%Z with (a - b)%Z by ring.
    apply Qnot_le_lt. intros H. apply Qle_bool_iff in H. congruence.
Qed.

Lemma ilog2_ge (k : Z) (x : Q) : 0 < x -> pow2 k <= x -> (k <= ilog2 x)%Z.
Proof.
  intros Hx Hk. destruct (ilog2_spec x Hx) as [_ Hup].
  assert (H : pow2 k < pow2 (ilog2 x + 1)) by (eapply Qle_lt_trans; eassumption).
  apply pow2_lt_inv in H. lia.
Qed.

Lemma ilog2_lt (k : Z) (x : Q) : 0 < x -> x < pow2 k -> (ilog2 x < k)%Z.
Proof.
  intros Hx Hk. destruct (ilog2_spec x Hx) as [Hlo _].
  apply pow2_lt_inv. eapply Qle_lt_trans; eassumption.
Qed.

Lemma ilog2_mono (x y : Q) : 0 < x -> x <= y -> (ilog2 x <= ilog2 y)%Z.
Proof.
  intros Hx Hxy. apply ilog2_ge; [eapply Qlt_le_trans; eassumption|].
  destruct (ilog2_spec x Hx) as [Hlo _]. eapply Qle_trans; eassumption.
Qed.

(** *** Rounding to an integer *)

Lemma rne_floor (x : Q) : (Qfloor x <= rne x <= Qfloor x + 1)%Z.
Proof.
  unfold rne. destruct (Qcompare _ _); [destruct (Z.even _)| |]; lia.
Qed.

Lemma rne_eq (x : Q) (z : Z) : x == inject_Z z -> rne x = z.
Proof.
  intros Hx. unfold rne.
  assert (Hf : Qfloor x = z).
  { rewrite <- (Qfloor_Z z). apply Z.le_antisymm; apply Qfloor_resp_le; lra. }
  rewrite Hf.
  destruct (Qcompare_spec (x - inject_Z z) (1 # 2)) as [H|H|H];
    [exfalso; lra|reflexivity|exfalso; lra].
Qed.

Lemma rne_mono (x y : Q) : x <= y -> (rne x <= rne y)%Z.
Proof.
  intros Hxy. pose proof (Qfloor_resp_le x y Hxy) as Hf.
  pose proof (rne_floor x) as Hx. pose proof (rne_floor y) as Hy.
  destruct (Z.eq_dec (Qfloor x) (Qfloor y)) as [Heq|Hne]; [|lia].
  unfold rne in *. rewrite <- Heq in *.
  destruct (Qcompare_spec (x - inject_Z (Qfloor x)) (1 # 2)) as [H1|H1|H1];
    destruct (Qcompare_spec (y - inject_Z (Qfloor x)) (1 # 2)) as [H2|H2|H2];
    try lia; try (destruct (Z.even (Qfloor x)); lia); exfalso; lra.
Qed.

Lemma rne_le (x : Q) (n : Z) : x <= inject_Z n -> (rne x <= n)%Z.
Proof. intros H. rewrite <- (rne_eq (inject_Z n) n) by reflexivity. apply rne_mono, H. Qed.

Lemma rne_ge (x : Q) (n : Z) : inject_Z n <= x -> (n <= rne x)%Z.
Proof. intros H. rewrite <- (rne_eq (inject_Z n) n) by reflexivity. apply rne_mono, H. Qed.

(** *** Rounding a positive number *)

Lemma div_pow2 (x : Q) (u : Z) : x / pow2 u * pow2 u == x.
Proof. field. intros H. pose proof (pow2_pos u). lra. Qed.

Lemma round_pos_nonneg (x : Q) : 0 < x -> 0 <= round_pos x.
Proof.
  intros Hx. unfold round_pos. apply Qmult_le_0_compat.
  - change 0 with (inject_Z 0). rewrite <- Zle_Qle. apply rne_ge.
    apply Qle_shift_div_l; [apply pow2_pos|].
    change (inject_Z 0) with 0. rewrite Qmult_0_l. lra.
  - apply Qlt_le_weak, pow2_pos.
Qed.

Lemma round_pos_exact (m e : Z) (x : Q) :
  (0 < m < 2 ^ 53)%Z -> (-1074 <= e)%Z -> x == inject_Z m * pow2 e ->
  round_pos x == x.
Proof.
  intros Hm He Hx.
  assert (Hpos : 0 < x).
  { rewrite Hx. apply Qmult_lt_0_compat; [|apply pow2_pos].
    change 0 with (inject_Z 0). rewrite <- Zlt_Qlt. lia. }
  assert (Hu : (ulp_exp x <= e)%Z).
  { unfold ulp_exp. apply Z.max_lub; [|exact He].
    assert (ilog2 x < 53 + e)%Z; [|lia].
    apply ilog2_lt; [exact Hpos|]. rewrite Hx, pow2_add.
    apply Qmult_lt_r; [apply pow2_pos|].
    apply inject_Z_lt_pow2; lia. }
  unfold round_pos. set (u := ulp_exp x) in *.
  assert (Hq : x / pow2 u == inject_Z (m * 2 ^ (e - u))).
  { rewrite inject_Z_mult, <- pow2_inject by lia. rewrite Hx.
    rewrite <- (pow2_sub e u). field.
    intros H. pose proof (pow2_pos u). lra. }
  rewrite (rne_eq _ _ Hq), <- Hq. apply div_pow2.
Qed.

Lemma round_pos_mono (x y : Q) : 0 < x -> x <= y -> round_pos x <= round_pos y.
Proof.
  intros Hx Hxy.
  assert (Hy : 0 < y) by (eapply Qlt_le_trans; eassumption).
  pose proof (ilog2_mono x y Hx Hxy) as Hlog.
  unfold round_pos.
  set (u := ulp_exp x). set (v := ulp_exp y).
  assert (Huv : (u <= v)%Z) by (unfold u, v, ulp_exp; lia).
  pose proof (pow2_pos u) as Pu. pose proof (pow2_pos v) as Pv.
  destruct (Z.eq_dec u v) as [Heq|Hne].
  - rewrite <- Heq. apply Qmult_le_compat_r; [|lra].
    rewrite <- Zle_Qle. apply rne_mono.
    apply Qmult_le_r with (pow2 u); [exact Pu|]. rewrite !div_pow2. exact Hxy.
  - set (k := (v + 52)%Z).
    assert (Hk : k = ilog2 y) by (unfold k, v, u, ulp_exp in *; lia).
    assert (Hxk : x < pow2 k).
    { destruct (ilog2_spec x Hx) as [_ Hup].
      eapply Qlt_le_trans; [exact Hup|]. apply pow2_le.
      unfold k, v, u, ulp_exp in *. lia. }
    assert (Hyk : pow2 k <= y) by (rewrite Hk; apply ilog2_spec, Hy).
    apply Qle_trans with (pow2 k).
    + rewrite <- (pow2_sub k u). apply Qmult_le_compat_r; [|lra].
      rewrite (pow2_inject (k - u)) by (unfold k; lia). rewrite <- Zle_Qle.
      apply rne_le. rewrite <- (pow2_inject (k - u)) by (unfold k; lia).
      apply Qmult_le_r with (pow2 u); [exact Pu|].
      rewrite div_pow2, pow2_sub. lra.
    + rewrite <- (pow2_sub k v). apply Qmult_le_compat_r; [|lra].
      rewrite (pow2_inject (k - v)) by (unfold k; lia). rewrite <- Zle_Qle.
      apply rne_ge. rewrite <- (pow2_inject (k - v)) by (unfold k; lia).
      apply Qmult_le_r with (pow2 v); [exact Pv|].
      rewrite div_pow2, pow2_sub. exact Hyk.
Qed.

(** *** Rounding to a double *)

Lemma round_double_zero (x : Q) : x == 0 -> round_double x == 0.
Proof.
  intros Hx. unfold round_double.
  rewrite (proj1 (Qeq_alt x 0) Hx). reflexivity.
Qed.

Lemma round_double_pos (x : Q) : 0 < x -> round_double x = round_pos x.
Proof.
  intros Hx. unfold round_double.
  rewrite (proj1 (Qgt_alt x 0) Hx). reflexivity.
Qed.

Lemma round_double_neg (x : Q) : x < 0 -> round_double x = - round_pos (- x).
Proof.
  intros Hx. unfold round_double.
  rewrite (proj1 (Qlt_alt x 0) Hx). reflexivity.
Qed.

Lemma round_double_mono (x y : Q) : x <= y -> round_double x <= round_double y.
Proof.
  intros Hxy.
  destruct (Qcompare_spec x 0) as [Hx|Hx|Hx];
    destruct (Qcompare_spec y 0) as [Hy|Hy|Hy]; try (exfalso; lra).
  - rewrite (round_double_zero x Hx), (round_double_zero y Hy). lra.
  - rewrite (round_double_zero x Hx), (round_double_pos y Hy).
    apply round_pos_nonneg, Hy.
  - rewrite (round_double_neg x Hx), (round_double_zero y Hy).
    pose proof (round_pos_nonneg (- x) ltac:(lra)). lra.
  - rewrite (round_double_neg x Hx), (round_double_neg y Hy).
    pose proof (round_pos_mono (- y) (- x) ltac:(lra) ltac:(lra)). lra.
  - rewrite (round_double_neg x Hx), (round_double_pos y Hy).
    pose proof (round_pos_nonneg (- x) ltac:(lra)).
    pose proof (round_pos_nonneg y Hy). lra.
  - rewrite (round_double_pos x Hx), (round_double_pos y Hy).
    apply round_pos_mono; assumption.
Qed.

(** A number that is a double is rounded to itself. *)
Lemma round_double_exact (m e : Z) (x : Q) :
  (Z.abs m < 2 ^ 53)%Z -> (-1074 <= e)%Z -> x == inject_Z m * pow2 e ->
  round_double x == x.
Proof.
  intros Hm He Hx. pose proof (pow2_pos e) as Pe.
  destruct (Z.lt_trichotomy m 0) as [Hneg|[H0|Hp]].
  - assert (Hlt : x < 0).
    { rewrite Hx. setoid_replace 0 with (0 * pow2 e) using relation Qeq by ring.
      apply Qmult_lt_r; [exact Pe|]. change 0 with (inject_Z 0).
      rewrite <- Zlt_Qlt. exact Hneg. }
    rewrite (round_double_neg x Hlt).
    rewrite (round_pos_exact (- m) e (- x)); [ring|lia|exact He|].
    rewrite Hx, inject_Z_opp. ring.
  - assert (Hz : x == 0) by (rewrite Hx, H0; ring).
    rewrite (round_double_zero x Hz), Hz. reflexivity.
  - assert (Hgt : 0 < x).
    { rewrite Hx. apply Qmult_lt_0_compat; [|exact Pe].
      change 0 with (inject_Z 0). rewrite <- Zlt_Qlt. exact Hp. }
    rewrite (round_double_pos x Hgt).
    apply (round_pos_exact m e); [lia|exact He|exact Hx].
Qed.

Lemma round_double_Z (z : Z) :
  (Z.abs z < 2 ^ 53)%Z -> round_double (inject_Z z) == inject_Z z.
Proof.
  intros Hz. apply (round_double_exact z 0); [exact Hz|lia|].
  unfold pow2. cbn. ring.
Qed.

Lemma round_double_comp (x y : Q) : x == y -> round_double x == round_double y.
Proof.
  intros H. apply Qle_antisym; apply round_double_mono; rewrite H; apply Qle_refl.
Qed.

Lemma round_double_opp (x : Q) : round_double (- x) == - round_double x.
Proof.
  destruct (Qcompare_spec x 0) as [Hx|Hx|Hx].
  - rewrite (round_double_zero x Hx), (round_double_zero (- x)); lra.
  - rewrite (round_double_neg x Hx), (round_double_pos (- x)) by lra. ring.
  - rewrite (round_double_neg (- x)) by lra.
    rewrite <- (round_double_pos (- - x)) by lra.
    rewrite (round_double_comp (- - x) x) by ring. reflexivity.
Qed.

Lemma round_double_0 : round_double 0 == 0.
Proof. apply round_double_zero. reflexivity. Qed.

Lemma round_double_abs (x : Q) : Qabs (round_double x) == round_double (Qabs x).
Proof.
  destruct (Qlt_le_dec x 0) as [Hx|Hx].
  - rewrite (round_double_comp (Qabs x) (- x)) by (apply Qabs_neg; lra).
    rewrite round_double_opp. apply Qabs_neg.
    rewrite <- round_double_0. apply round_double_mono. lra.
  - rewrite (round_double_comp (Qabs x) x) by (apply Qabs_pos; exact Hx).
    apply Qabs_pos. rewrite <- round_double_0. apply round_double_mono, Hx.
Qed.

(** Rounding does not cross a double. *)
Lemma round_double_abs_le (m e : Z) (x : Q) :
  (Z.abs m < 2 ^ 53)%Z -> (-1074 <= e)%Z ->
  Qabs x <= inject_Z m * pow2 e -> Qabs (round_double x) <= inject_Z m * pow2 e.
Proof.
  intros Hm He Hx. rewrite round_double_abs.
  rewrite <- (round_double_exact m e (inject_Z m * pow2 e) Hm He) by reflexivity.
  apply round_double_mono, Hx.
Qed.

Lemma round_double_abs_ge (m e : Z) (x : Q) :
  (Z.abs m < 2 ^ 53)%Z -> (-1074 <= e)%Z ->
  inject_Z m * pow2 e <= Qabs x -> inject_Z m * pow2 e <= Qabs (round_double x).
Proof.
  intros Hm He Hx. rewrite round_double_abs.
  rewrite <- (round_double_exact m e (inject_Z m * pow2 e) Hm He) at 1
    by reflexivity.
  apply round_double_mono, Hx.
Qed.

(** *** The result of an operation *)

Lemma to_double_comp (x y : Q) : x == y -> to_double x = to_double y.
Proof.
  intros H. apply round_double_comp in H.
  unfold to_double, double_overflows, Qnegative. cbv zeta.
  rewrite (Qleb_comp _ _ (Qeq_refl _) _ _ (Qabs_wd _ _ H)).
  rewrite (Qleb_comp 0 0 (Qeq_refl 0) _ _ H).
  rewrite (proj2 (Q2Qc_eq_iff _ _) H). reflexivity.
Qed.

Lemma to_double_finite (k : Z) (x : Q) :
  (-1074 <= k < 1024)%Z -> Qabs x <= pow2 k ->
  to_double x = Finite (Q2Qc (round_double x)).
Proof.
  intros Hk Hx. unfold to_double. cbv zeta.
  assert (Hr : Qabs (round_double x) <= pow2 k).
  { setoid_replace (pow2 k) with (inject_Z 1 * pow2 k) using relation Qeq by ring.
    apply round_double_abs_le; [reflexivity|lia|].
    setoid_replace (inject_Z 1 * pow2 k) with (pow2 k) using relation Qeq by ring. exact Hx. }
  unfold double_overflows.
  destruct (Qle_bool (pow2 1024) (Qabs (round_double x))) eqn:Hov;
    [|reflexivity].
  apply Qle_bool_iff in Hov. exfalso.
  pose proof (pow2_lt k 1024 ltac:(lia)). lra.
Qed.

Lemma Qabs_inject_Z (z : Z) : Qabs (inject_Z z) = inject_Z (Z.abs z).
Proof. reflexivity. Qed.

Lemma to_double_Z (z : Z) :
  (Z.abs z < 2 ^ 53)%Z -> to_double (inject_Z z) = Finite (Qc_of_Z z).
Proof.
  intros Hz. rewrite (to_double_finite 53).
  - f_equal. apply Qc_is_canon. cbn [this Q2Qc Qc_of_Z].
    rewrite Qred_correct. apply round_double_Z, Hz.
  - lia.
  - rewrite Qabs_inject_Z. apply Qlt_le_weak, inject_Z_lt_pow2; [lia|exact Hz].
Qed.

Lemma float_of_int_exact (z : Z) :
  (Z.abs z < 2 ^ 53)%Z -> float_of_int z = Return (Qc_of_Z z).
Proof. intros Hz. unfold float_of_int. rewrite (to_double_Z z Hz). reflexivity. Qed.

(** The quotient of two integers is no larger than the dividend, and, if it
    is not 0, no smaller than the inverse of the divisor. *)
Lemma Qabs_div_int (n a : Z) :
  a <> 0%Z -> Qabs (inject_Z n / inject_Z a) <= inject_Z (Z.abs n).
Proof.
  intros Ha. unfold Qdiv. rewrite Qabs_Qmult, Qabs_Qinv, !Qabs_inject_Z.
  apply Qle_shift_div_r.
  - change 0 with (inject_Z 0). rewrite <- Zlt_Qlt. lia.
  - rewrite <- inject_Z_mult, <- Zle_Qle. nia.
Qed.

Lemma Qabs_div_int_ge (n a : Z) (k : Z) :
  n <> 0%Z -> a <> 0%Z -> (0 <= k)%Z -> (Z.abs a <= 2 ^ k)%Z ->
  pow2 (- k) <= Qabs (inject_Z n / inject_Z a).
Proof.
  intros Hn Ha Hk Hak. unfold Qdiv.
  rewrite Qabs_Qmult, Qabs_Qinv, !Qabs_inject_Z.
  apply Qle_shift_div_l.
  - change 0 with (inject_Z 0). rewrite <- Zlt_Qlt. lia.
  - apply Qle_trans with (pow2 (- k) * pow2 k).
    + apply Qmult_le_l; [apply pow2_pos|].
      rewrite (pow2_inject k Hk), <- Zle_Qle. exact Hak.
    + rewrite <- pow2_add. replace (- k + k)%Z with 0%Z by ring.
      change (pow2 0) with (inject_Z 1). rewrite <- Zle_Qle. lia.
Qed.

Lemma inject_Z_eq_0 (z : Z) : inject_Z z == 0 <-> z = 0%Z.
Proof. unfold Qeq. cbn. lia. Qed.

Lemma int_div_eq_0 (n a : Z) :
  a <> 0%Z -> (inject_Z n / inject_Z a == 0 <-> n = 0%Z).
Proof.
  intros Ha.
  assert (HA : ~ inject_Z a == 0) by (rewrite inject_Z_eq_0; exact Ha).
  split.
  - intros H. apply inject_Z_eq_0.
    setoid_replace (inject_Z n)
      with (inject_Z n / inject_Z a * inject_Z a) using relation Qeq
      by (field; exact HA).
    rewrite H. ring.
  - intros ->. unfold Qdiv. apply Qmult_0_l.
Qed.

(** A quotient of integers below [2^53] is not rounded to 0. *)
Lemma round_int_div_eq_0 (n a : Z) :
  a <> 0%Z -> (Z.abs a < 2 ^ 53)%Z ->
  (round_double (inject_Z n / inject_Z a) == 0 <-> n = 0%Z).
Proof.
  intros Ha Hlt. split.
  - intros H. destruct (Z.eq_dec n 0%Z) as [Hn|Hn]; [exact Hn|exfalso].
    pose proof (Qabs_div_int_ge n a 53 Hn Ha ltac:(lia) ltac:(lia)) as Hge.
    assert (Hr : inject_Z 1 * pow2 (- 53)
                 <= Qabs (round_double (inject_Z n / inject_Z a))).
    { apply round_double_abs_ge; [reflexivity|lia|].
      setoid_replace (inject_Z 1 * pow2 (- 53)) with (pow2 (- 53)) using relation Qeq by ring.
      exact Hge. }
    rewrite (Qabs_wd _ _ H) in Hr. change (Qabs 0) with 0 in Hr.
    pose proof (pow2_pos (- 53)).
    setoid_replace (inject_Z 1 * pow2 (- 53)) with (pow2 (- 53)) using relation Qeq in Hr by ring.
    lra.
  - intros ->. apply round_double_zero. unfold Qdiv. apply Qmult_0_l.
Qed.

(** The quotient of two integers below [2^53], as [int / int] and as
    [float / float], is the exact quotient rounded once. *)
Lemma to_double_div (n a : Z) (k : Z) :
  a <> 0%Z -> (0 <= k < 1024)%Z -> (Z.abs n <= 2 ^ k)%Z ->
  to_double (inject_Z n / inject_Z a)
  = Finite (Q2Qc (round_double (inject_Z n / inject_Z a))).
Proof.
  intros Ha Hk Hn. apply (to_double_finite k); [lia|].
  eapply Qle_trans; [apply Qabs_div_int, Ha|].
  rewrite (pow2_inject k) by lia. rewrite <- Zle_Qle. exact Hn.
Qed.

Lemma float_div_ints (n a : Z) :
  a <> 0%Z -> (Z.abs n < 2 ^ 53)%Z ->
  float_div (Finite (Qc_of_Z n)) (Finite (Qc_of_Z a))
  = Return (Finite (Q2Qc (round_double (inject_Z n / inject_Z a)))).
Proof.
  intros Ha Hn. unfold float_div. cbn [this Qc_of_Z].
  destruct (Qeq_bool (inject_Z a) 0) eqn:H0.
  { exfalso. apply Ha. apply (proj1 (inject_Z_eq_0 a)). apply Qeq_bool_eq, H0. }
  rewrite (to_double_div n a 53) by lia. reflexivity.
Qed.

Lemma float_mul_ints (x y : Z) :
  (Z.abs (x * y) < 2 ^ 53)%Z ->
  float_mul (Finite (Qc_of_Z x)) (Finite (Qc_of_Z y)) = Finite (Qc_of_Z (x * y)).
Proof.
  intros H. unfold float_mul. cbn [this Qc_of_Z].
  rewrite (to_double_comp _ (inject_Z (x * y)))
    by (rewrite inject_Z_mult; reflexivity).
  apply to_double_Z, H.
Qed.

(** A float operation evaluated: the rounded value is given. *)
Lemma to_double_value (x q : Q) :
  round_double x == q -> double_overflows q = false ->
  to_double x = Finite (Q2Qc q).
Proof.
  intros Hq Hov. unfold to_double, double_overflows in *. cbv zeta.
  rewrite (Qleb_comp _ _ (Qeq_refl _) _ _ (Qabs_wd _ _ Hq)), Hov.
  rewrite (proj2 (Q2Qc_eq_iff _ _) Hq). reflexivity.
Qed.

(** Bounds of a rounded quotient by integers. *)
Lemma round_div_le (n a k : Z) :
  (0 < a)%Z -> (Z.abs k < 2 ^ 53)%Z -> (n <= k * a)%Z ->
  round_double (inject_Z n / inject_Z a) <= inject_Z k.
Proof.
  intros Ha Hk Hn. rewrite <- (round_double_Z k Hk). apply round_double_mono.
  apply Qle_shift_div_r.
  - change 0 with (inject_Z 0). rewrite <- Zlt_Qlt. exact Ha.
  - rewrite <- inject_Z_mult, <- Zle_Qle. exact Hn.
Qed.

Lemma round_div_ge (n a k : Z) :
  (0 < a)%Z -> (Z.abs k < 2 ^ 53)%Z -> (k * a <= n)%Z ->
  inject_Z k <= round_double (inject_Z n / inject_Z a).
Proof.
  intros Ha Hk Hn. rewrite <- (round_double_Z k Hk). apply round_double_mono.
  apply Qle_shift_div_l.
  - change 0 with (inject_Z 0). rewrite <- Zlt_Qlt. exact Ha.
  - rewrite <- inject_Z_mult, <- Zle_Qle. exact Hn.
Qed.

(** Rounded quotients compare as the fractions do, in the weak sense. *)
Lemma round_div_mono (n a n' a' : Z) :
  (0 < a)%Z -> (0 < a')%Z -> (n * a' <= n' * a)%Z ->
  round_double (inject_Z n / inject_Z a)
  <= round_double (inject_Z n' / inject_Z a').
Proof.
  intros Ha Ha' H. apply round_double_mono.
  assert (HA : 0 < inject_Z a)
    by (change 0 with (inject_Z 0); rewrite <- Zlt_Qlt; exact Ha).
  assert (HA' : 0 < inject_Z a')
    by (change 0 with (inject_Z 0); rewrite <- Zlt_Qlt; exact Ha').
  apply Qle_shift_div_r; [exact HA|].
  setoid_replace (inject_Z n' / inject_Z a' * inject_Z a)
    with (inject_Z n' * inject_Z a / inject_Z a') using relation Qeq
    by (field; lra).
  apply Qle_shift_div_l; [exact HA'|].
  rewrite <- !inject_Z_mult, <- Zle_Qle. exact H.
Qed.

Lemma Q2Qc_le (x y : Q) : x <= y -> (Q2Qc x <= Q2Qc y)%Qc.
Proof. intros H. unfold Qcle. cbn [this Q2Qc]. rewrite !Qred_correct. exact H. Qed.

Lemma Q2Qc_inject_Z (z : Z) : Q2Qc (inject_Z z) = Qc_of_Z z.
Proof. apply Qc_is_canon. cbn [this Q2Qc Qc_of_Z]. apply Qred_correct. Qed.

(** *** The statistics of a card *)

Lemma ranking_rounded (self : FlashcardCard) :
  _attempts self <> 0%Z -> (Z.abs (_correct self) < 2 ^ 53)%Z ->
  ranking self
  = Return (Q2Qc (round_double
                    (inject_Z (_correct self * _correct self)
                     / inject_Z (_attempts self)))).
Proof.
  intros Ha Hc. unfold ranking, int_true_div.
  destruct (Z.eqb_spec (_attempts self) 0) as [H0|_]; [contradiction|].
  rewrite (to_double_div _ _ 106); [reflexivity|exact Ha|lia|].
  rewrite Z.abs_mul.
  change (2 ^ 106)%Z with (2 ^ 53 * 2 ^ 53)%Z.
  apply Z.mul_le_mono_nonneg; lia.
Qed.

Lemma score_rounded (self : FlashcardCard) :
  _attempts self <> 0%Z ->
  (Z.abs (100 * _correct self) < 2 ^ 53)%Z ->
  (Z.abs (_attempts self) < 2 ^ 53)%Z ->
  score self
  = Return (Finite (Q2Qc (round_double
                            (inject_Z (100 * _correct self)
                             / inject_Z (_attempts self))))).
Proof.
  intros Ha Hc Hlt. unfold score.
  destruct (Z.eqb_spec (_attempts self) 0) as [H0|_]; [contradiction|].
  rewrite (float_of_int_exact (_correct self)) by lia.
  rewrite (float_of_int_exact (_attempts self)) by exact Hlt.
  cbv zeta. rewrite (float_mul_ints 100 (_correct self) Hc).
  apply float_div_ints; assumption.
Qed.

(** For counters of everyday size the statistics are rounded once. *)
Lemma statistics_rounded (self : FlashcardCard) :
  (0 <= _correct self <= _attempts self)%Z -> (0 < _attempts self)%Z ->
  (_attempts self <= 2 ^ 46)%Z ->
  ranking self
  = Return (Q2Qc (round_double
                    (inject_Z (_correct self * _correct self)
                     / inject_Z (_attempts self))))
  /\ score self
     = Return (Finite (Q2Qc (round_double
                               (inject_Z (100 * _correct self)
                                / inject_Z (_attempts self))))).
Proof.
  intros Hc Ha Hlt. split; [apply ranking_rounded|apply score_rounded]; lia.
Qed.

(** [int(x)] of a float that is not negative. *)
Lemma int_of_float_floor (y : Q) (k : Z) :
  inject_Z k <= y -> y < inject_Z (k + 1) -> (0 <= k)%Z ->
  int_of_float (Finite (Q2Qc y)) = Return k.
Proof.
  intros Hlo Hhi Hk. unfold int_of_float. cbn [this Q2Qc]. f_equal.
  assert (H0 : 0 <= Qred y).
  { rewrite Qred_correct. eapply Qle_trans; [|exact Hlo].
    change 0 with (inject_Z 0). rewrite <- Zle_Qle. exact Hk. }
  rewrite Z.quot_div_nonneg;
    [|unfold Qle in H0; cbn in H0; lia|reflexivity].
  assert (Hf : (Qnum (Qred y) / Z.pos (Qden (Qred y)))%Z = Qfloor (Qred y))
    by (destruct (Qred y); reflexivity).
  rewrite Hf.
  rewrite (Qfloor_comp _ _ (Qred_correct y)).
  apply Z.le_antisymm.
  - assert (H : (Qfloor y < k + 1)%Z); [|lia].
    rewrite Zlt_Qlt. eapply Qle_lt_trans; [apply Qfloor_le|exact Hhi].
  - rewrite <- (Qfloor_Z k). apply Qfloor_resp_le, Hlo.
Qed.

(** The quotient of two integers, rounded to a double and then down to an
    integer, is the quotient rounded down: below [2^46] no quotient is so
    near to the next integer that rounding reaches it. *)
Lemma round_div_floor (n a : Z) :
  (0 <= n)%Z -> (0 < a <= 2 ^ 46)%Z -> (n / a < 2 ^ 7)%Z ->
  int_of_float
    (Finite (Q2Qc (round_double (inject_Z n / inject_Z a))))
  = Return (n / a)%Z.
Proof.
  intros Hn Ha Hk. set (k := (n / a)%Z).
  assert (Hk0 : (0 <= k)%Z) by (apply Z.div_pos; lia).
  pose proof (Z.mul_div_le n a ltac:(lia)) as Hlo. fold k in Hlo.
  pose proof (Z.mul_succ_div_gt n a ltac:(lia)) as Hhi. fold k in Hhi.
  apply int_of_float_floor; [| |exact Hk0].
  - apply round_div_ge; lia.
  - set (m := ((k + 1) * 2 ^ 46 - 1)%Z).
    assert (Hm : (Z.abs m < 2 ^ 53)%Z) by (unfold m; lia).
    apply Qle_lt_trans with (inject_Z m * pow2 (- 46)).
    + rewrite <- (round_double_exact m (- 46) (inject_Z m * pow2 (- 46)) Hm)
        by (try reflexivity; lia).
      apply round_double_mono. apply Qle_shift_div_r.
      * change 0 with (inject_Z 0). rewrite <- Zlt_Qlt. lia.
      * apply Qmult_le_r with (pow2 46); [apply pow2_pos|].
        setoid_replace (inject_Z m * pow2 (- 46) * inject_Z a * pow2 46)
          with (inject_Z m * inject_Z a * (pow2 (- 46) * pow2 46))
          using relation Qeq by ring.
        rewrite <- pow2_add. change (pow2 (- 46 + 46)) with 1.
        rewrite (pow2_inject 46) by lia.
        rewrite Qmult_1_r, <- !inject_Z_mult, <- Zle_Qle. unfold m. nia.
    + apply Qmult_lt_r with (pow2 46); [apply pow2_pos|].
      setoid_replace (inject_Z m * pow2 (- 46) * pow2 46)
        with (inject_Z m * (pow2 (- 46) * pow2 46)) using relation Qeq by ring.
      rewrite <- pow2_add. change (pow2 (- 46 + 46)) with 1.
      rewrite (pow2_inject 46) by lia.
      rewrite Qmult_1_r, <- inject_Z_mult, <- Zlt_Qlt. unfold m. lia.
Qed.

(** *** The nearest double *)

(** [rne x] is an integer nearest to [x]. *)
Lemma rne_nearest (x : Q) (n : Z) :
  Qabs (inject_Z (rne x) - x) <= Qabs (inject_Z n - x).
Proof.
  pose proof (Qfloor_le x) as Hlo. pose proof (Qlt_floor x) as Hhi.
  rewrite inject_Z_plus in Hhi. change (inject_Z 1) with 1 in Hhi.
  set (f := Qfloor x) in *.
  assert (Hn : inject_Z n <= inject_Z f \/ inject_Z f + 1 <= inject_Z n).
  { destruct (Z_le_gt_dec n f) as [H|H].
    - left. rewrite <- Zle_Qle. exact H.
    - right. change 1 with (inject_Z 1). rewrite <- inject_Z_plus, <- Zle_Qle.
      lia. }
  assert (Hr : (inject_Z (rne x) == inject_Z f /\ x - inject_Z f <= 1 # 2)
               \/ (inject_Z (rne x) == inject_Z f + 1
                   /\ 1 # 2 <= x - inject_Z f)).
  { unfold rne. fold f.
    destruct (Qcompare_spec (x - inject_Z f) (1 # 2)) as [H|H|H].
    - destruct (Z.even f).
      + left. split; [reflexivity|lra].
      + right. rewrite inject_Z_plus. change (inject_Z 1) with 1.
        split; [reflexivity|lra].
    - left. split; [reflexivity|lra].
    - right. rewrite inject_Z_plus. change (inject_Z 1) with 1.
      split; [reflexivity|lra]. }
  apply Qabs_case; intros H1; apply Qabs_case; intros H2;
    destruct Hr as [[Hr Hf]|[Hr Hf]]; destruct Hn as [Hn|Hn]; lra.
Qed.

Lemma round_pos_is_double (x : Q) : 0 < x -> is_double (round_pos x).
Proof.
  intros Hx. unfold round_pos. set (u := ulp_exp x).
  assert (Hu : (-1074 <= u)%Z) by (unfold u, ulp_exp; lia).
  assert (Hk : (ilog2 x + 1 <= u + 53)%Z) by (unfold u, ulp_exp; lia).
  pose proof (pow2_pos u) as Pu.
  assert (Hlo : (0 <= rne (x / pow2 u))%Z).
  { apply rne_ge. apply Qle_shift_div_l; [exact Pu|].
    change (inject_Z 0) with 0. lra. }
  assert (Hhi : (rne (x / pow2 u) <= 2 ^ 53)%Z).
  { apply rne_le. rewrite <- (pow2_inject 53) by lia.
    apply Qle_shift_div_r; [exact Pu|]. rewrite <- pow2_add.
    destruct (ilog2_spec x Hx) as [_ Hup].
    apply Qlt_le_weak. eapply Qlt_le_trans; [exact Hup|].
    apply pow2_le. lia. }
  destruct (Z.eq_dec (rne (x / pow2 u)) (2 ^ 53)%Z) as [Heq|Hne].
  - exists 1%Z, (53 + u)%Z. split; [reflexivity|]. split; [lia|].
    rewrite Heq, <- (pow2_inject 53), pow2_add by lia.
    change (inject_Z 1) with 1. ring.
  - exists (rne (x / pow2 u)), u. split; [lia|]. split; [exact Hu|reflexivity].
Qed.

Lemma round_pos_nearest (x d : Q) :
  0 < x -> is_double d -> Qabs (round_pos x - x) <= Qabs (d - x).
Proof.
  intros Hx (m & e & Hm & He & Hd). unfold round_pos.
  set (u := ulp_exp x). pose proof (pow2_pos u) as Pu.
  set (t := x / pow2 u).
  assert (Ht : x == t * pow2 u) by (unfold t; rewrite div_pow2; reflexivity).
  assert (Hgrid : forall n : Z,
             Qabs (inject_Z (rne t) * pow2 u - x)
             <= Qabs (inject_Z n * pow2 u - x)).
  { intros n.
    setoid_replace (inject_Z (rne t) * pow2 u - x)
      with ((inject_Z (rne t) - t) * pow2 u) using relation Qeq
      by (rewrite Ht at 1; ring).
    setoid_replace (inject_Z n * pow2 u - x)
      with ((inject_Z n - t) * pow2 u) using relation Qeq
      by (rewrite Ht at 1; ring).
    rewrite !Qabs_Qmult, (Qabs_pos (pow2 u)) by lra.
    apply Qmult_le_compat_r; [apply rne_nearest|lra]. }
  destruct (Z_le_gt_dec u e) as [Hue|Hue].
  - (* [d] is on the grid of [x] *)
    specialize (Hgrid (m * 2 ^ (e - u))%Z).
    setoid_replace (d - x)
      with (inject_Z (m * 2 ^ (e - u)) * pow2 u - x) using relation Qeq;
      [exact Hgrid|].
    rewrite Hd, inject_Z_mult, <- (pow2_inject (e - u)) by lia.
    rewrite <- (pow2_sub e u). ring.
  - (* [d] is below the binade of [x] *)
    assert (Hu : u = (ilog2 x - 52)%Z) by (unfold u, ulp_exp in *; lia).
    destruct (ilog2_spec x Hx) as [Hlo _].
    assert (Hbin : pow2 (ilog2 x) == inject_Z (2 ^ 52) * pow2 u).
    { rewrite <- (pow2_inject 52), <- pow2_add by lia.
      replace (52 + u)%Z with (ilog2 x) by lia. reflexivity. }
    assert (Hdlt : d <= pow2 (ilog2 x)).
    { rewrite Hd. apply Qle_trans with (inject_Z (2 ^ 53) * pow2 e).
      - apply Qmult_le_compat_r; [|apply Qlt_le_weak, pow2_pos].
        rewrite <- Zle_Qle. lia.
      - rewrite <- (pow2_inject 53), <- pow2_add by lia.
        apply pow2_le. lia. }
    specialize (Hgrid (2 ^ 52)%Z). rewrite <- Hbin in Hgrid.
    eapply Qle_trans; [exact Hgrid|].
    rewrite (Qabs_neg (pow2 (ilog2 x) - x)) by lra.
    rewrite (Qabs_neg (d - x)) by lra. lra.
Qed.

Lemma is_double_opp (d : Q) : is_double d -> is_double (- d).
Proof.
  intros (m & e & Hm & He & Hd). exists (- m)%Z, e.
  split; [lia|]. split; [exact He|]. rewrite Hd, inject_Z_opp. ring.
Qed.

(** [round_double x] is a double, and no double is nearer to [x]. *)
Lemma round_double_is_double (x : Q) : is_double (round_double x).
Proof.
  destruct (Qcompare_spec x 0) as [Hx|Hx|Hx].
  - exists 0%Z, 0%Z. split; [reflexivity|]. split; [lia|].
    rewrite (round_double_zero x Hx). ring.
  - rewrite (round_double_neg x Hx). apply is_double_opp, round_pos_is_double.
    lra.
  - rewrite (round_double_pos x Hx). apply round_pos_is_double, Hx.
Qed.

Lemma round_double_nearest (x d : Q) :
  is_double d -> Qabs (round_double x - x) <= Qabs (d - x).
Proof.
  intros Hd. destruct (Qcompare_spec x 0) as [Hx|Hx|Hx].
  - rewrite (round_double_zero x Hx), Hx.
    setoid_replace (0 - 0) with 0 using relation Qeq by ring.
    apply Qabs_nonneg.
  - rewrite (round_double_neg x Hx).
    setoid_replace (- round_pos (- x) - x)
      with (- (round_pos (- x) - - x)) using relation Qeq by ring.
    setoid_replace (d - x) with (- (- d - - x)) using relation Qeq by ring.
    rewrite !Qabs_opp. apply round_pos_nearest; [lra|].
    apply is_double_opp, Hd.
  - rewrite (round_double_pos x Hx). apply round_pos_nearest; assumption.
Qed.

End Doubles.

(** ** Cards *)

Section Card.

Implicit Types (self card : FlashcardCard) (answer_text : string)
  (confirmed : pyval).

Lemma py_index_0 {A : Type} (l : list A) :
  py_index l 0 =
  match l with
  | [] => Raise IndexError
  | a :: _ => Return a
  end.
Proof.
  destruct l as [|a l]; [reflexivity|].
  unfold py_index. cbn [length].
  replace (0 <? 0) with false by reflexivity.
  replace (0 <? 0) with false by reflexivity. cbn [orb].
  destruct (Z.leb_spec (Z.of_nat (S (length l))) 0); [lia|reflexivity].
Qed.

(** What one call does, as a case table. *)
Lemma checkAnswer_unfold self answer_text confirmed :
  checkAnswer answer_text confirmed self =
  let self1 := set_attempts (_attempts self + 1) self in
  match confirmed with
  | PyBool true => (Return true, set_correct (_correct self + 1) self1)
  | PyBool false => (Return false, self1)
  | _ =>
      match _valid_answers self with
      | [] => (Raise IndexError, self1)
      | a0 :: _ =>
          if String.eqb answer_text a0
          then (Return true, set_correct (_correct self + 1) self1)
          else (Return false, self1)
      end
  end.
Proof.
  unfold checkAnswer, bind, modify, gets, lift_result, ret.
  destruct self as [v q va t oc n k]; cbn.
  destruct confirmed as [| [|] | |]; try reflexivity;
    rewrite py_index_0; destruct va as [|a0 rest];
    try reflexivity; unfold set_attempts, set_correct; simpl;
    destruct (String.eqb answer_text a0); reflexivity.
Qed.

Lemma checkAnswer_bounds self answer_text confirmed :
  0 <= _correct self <= _attempts self ->
  0 <= _correct (snd (checkAnswer answer_text confirmed self))
    <= _attempts (snd (checkAnswer answer_text confirmed self)).
Proof.
  intros Hb. rewrite checkAnswer_unfold.
  destruct confirmed as [| [|] | |]; cbn; try lia;
    destruct (_valid_answers self) as [|a0 rest]; cbn; try lia;
    destruct (String.eqb answer_text a0); cbn; lia.
Qed.

Lemma checkAnswers_bounds calls self :
  0 <= _correct self <= _attempts self ->
  0 <= _correct (checkAnswers calls self) <= _attempts (checkAnswers calls self).
Proof.
  revert self. induction calls as [|[a c] calls IH]; intros self Hb; [exact Hb|].
  apply IH. apply checkAnswer_bounds, Hb.
Qed.

Lemma FlashcardCard_init_fresh question valid_answers answer_type
    override_confirms card :
  FlashcardCard_init question valid_answers answer_type override_confirms
    = Return card ->
  _attempts card = 0 /\ _correct card = 0 /\ _question card = question
  /\ _valid_answers card = valid_answers.
Proof.
  unfold FlashcardCard_init.
  destruct answer_type as [t|]; [|destruct (_guessAnswerType valid_answers)];
    intros [= <-]; auto.
Qed.

(** C1. [checkAnswer] adds exactly 1 to [_attempts] on every call.  When
    [confirmed] is a boolean, [_correct] grows (by 1) iff it is [True];
    otherwise [_correct] grows iff [answer_text] is, character for character,
    [_valid_answers[0]].  The call returns [True] iff [_correct] grew.  After
    any sequence of calls on a newly constructed card,
    [0 <= _correct <= _attempts]. *)
Theorem checkAnswer_counters self answer_text confirmed :
  let r := fst (checkAnswer answer_text confirmed self) in
  let self' := snd (checkAnswer answer_text confirmed self) in
  let grew := _correct self' = _correct self + 1 in
  _attempts self' = _attempts self + 1
  /\ (grew \/ _correct self' = _correct self)
  /\ (forall b, confirmed = PyBool b -> (grew <-> b = true))
  /\ ((forall b, confirmed <> PyBool b) ->
      (grew <-> _valid_answers self !! 0%nat = Some answer_text))
  /\ (r = Return true <-> grew)
  /\ (r = Return true \/ r = Return false
      \/ (r = Raise IndexError /\ _valid_answers self = []
          /\ forall b, confirmed <> PyBool b))
  /\ (forall question valid_answers answer_type override_confirms card calls,
        FlashcardCard_init question valid_answers answer_type override_confirms
          = Return card ->
        0 <= _correct (checkAnswers calls card)
          <= _attempts (checkAnswers calls card)).
Proof.
  cbv zeta. rewrite checkAnswer_unfold. cbv zeta.
  refine (conj _ (conj _ (conj _ (conj _ (conj _ (conj _ _)))))).
  7: { intros q va t oc card calls Hinit.
       apply FlashcardCard_init_fresh in Hinit as (Ha & Hc & _).
       apply checkAnswers_bounds. lia. }
  all: destruct confirmed as [| [|] | |];
    try (destruct (_valid_answers self) as [|a0 rest] eqn:Hva;
         [|destruct (String.eqb_spec answer_text a0) as [->|Hne]]);
    cbn [fst snd set_correct set_attempts _attempts _correct _valid_answers
         lookup list_lookup].
  all: try lia.
  all: try (left; reflexivity).
  all: try (right; left; reflexivity).
  all: try (right; right; repeat split; congruence).
  all: try (intros b [= <-]; split; intros; congruence || lia).
  all: try (intros b; discriminate).
  all: try (intros Hn; exfalso; eapply Hn; reflexivity).
  all: try (split; intros; congruence || lia).
  all: try (intros _; split; intros; congruence || lia).
Qed.

Example checkAnswer_scenario :
  exists c1 c2 c3,
    FlashcardCard_init "2+2?" ["4"] None None = Return c1
    /\ _answer_type c1 = "numeric"
    /\ checkAnswer "4" PyNone c1 = (Return true, c2)
    /\ (_attempts c2, _correct c2) = (1, 1)
    /\ checkAnswer "5" PyNone c2 = (Return false, c3)
    /\ (_attempts c3, _correct c3) = (2, 1)
    /\ score c3 = Return (Finite (Q2Qc 50)).
Proof.
  do 3 eexists. repeat split; try reflexivity.
  rewrite score_rounded by (cbn; lia).
  apply (f_equal (fun q => Return (Finite q))).
  apply Q2Qc_eq_iff. vm_compute. reflexivity.
Qed.

(** *** [ranking] and [score] *)

(** C2, as stated, fails twice.  A card answered once, wrongly, has attempts
    1 and still scores and ranks 0.  And the values are floats, not exact
    quotients: with 1 answer of 3 correct the ranking is the double nearest
    to 1/3, which is not 1/3. *)
Lemma zero_score_with_attempts :
  _attempts card_0_of_1 = 1
  /\ ~ (score card_0_of_1 = Return (Finite 0%Qc) <-> _attempts card_0_of_1 = 0)
  /\ ~ (ranking card_0_of_1 = Return 0%Qc <-> _attempts card_0_of_1 = 0)
  /\ (_attempts card_1_of_3, _correct card_1_of_3) = (3, 1)
  /\ ranking card_1_of_3
     = Return (Q2Qc (6004799503160661 # 18014398509481984))
  /\ Q2Qc (6004799503160661 # 18014398509481984) <> Q2Qc (1 # 3).
Proof.
  split; [reflexivity|].
  split; [|split; [|split; [reflexivity|split]]].
  - intros [H _]. discriminate H.
    rewrite score_rounded by (vm_compute; first [discriminate|reflexivity]).
    apply (f_equal (fun q => Return (Finite q))).
    apply Q2Qc_eq_iff, round_double_zero. reflexivity.
  - intros [H _]. discriminate H.
    rewrite ranking_rounded by (vm_compute; first [discriminate|reflexivity]).
    apply (f_equal Return).
    apply Q2Qc_eq_iff, round_double_zero. reflexivity.
  - rewrite ranking_rounded by (vm_compute; first [discriminate|reflexivity]).
    apply (f_equal Return).
    apply Q2Qc_eq_iff. vm_compute. reflexivity.
  - intros H. apply Q2Qc_eq_iff in H. vm_compute in H. discriminate H.
Qed.

(** C2, amended.  [ranking] and [score] return 0 when [_attempts] is 0.
    Otherwise, for counters whose floats are exact ([100 * _correct] and
    [_attempts] below [2^53] in size), [score()] is the double nearest to
    [100 * _correct / _attempts] and [ranking()] the double nearest to
    [_correct * _correct / _attempts], and each of them is 0 exactly when
    [_correct] is 0. *)
Theorem ranking_score_values self :
  (_attempts self = 0 ->
   ranking self = Return 0%Qc /\ score self = Return (Finite 0%Qc))
  /\ (_attempts self <> 0 ->
      Z.abs (100 * _correct self) < 2 ^ 53 ->
      Z.abs (_attempts self) < 2 ^ 53 ->
      score self
      = Return (Finite (Q2Qc (round_double
                                (inject_Z (100 * _correct self)
                                 / inject_Z (_attempts self)))))
      /\ ranking self
         = Return (Q2Qc (round_double
                           (inject_Z (_correct self * _correct self)
                            / inject_Z (_attempts self))))
      /\ (ranking self = Return 0%Qc <-> _correct self = 0)
      /\ (score self = Return (Finite 0%Qc) <-> _correct self = 0)).
Proof.
  split.
  - intros H. unfold ranking, score. rewrite H. split; reflexivity.
  - intros Ha Hc Hlt.
    rewrite (score_rounded self Ha Hc Hlt).
    rewrite (ranking_rounded self Ha) by lia.
    split; [reflexivity|split; [reflexivity|split]].
    + split.
      * intros [= H]. apply Qred_eq_iff in H.
        apply round_int_div_eq_0 in H; [nia|exact Ha|exact Hlt].
      * intros H. apply (f_equal Return).
        apply Q2Qc_eq_iff, round_int_div_eq_0;
          [exact Ha|exact Hlt|rewrite H; reflexivity].
    + split.
      * intros [= H]. apply Qred_eq_iff in H.
        apply round_int_div_eq_0 in H; [lia|exact Ha|exact Hlt].
      * intros H. apply (f_equal (fun q => Return (Finite q))).
        apply Q2Qc_eq_iff, round_int_div_eq_0;
          [exact Ha|exact Hlt|rewrite H; reflexivity].
Qed.

Example ranking_scenario :
  ranking (mkCard CLASS_VERSION "Sky color?" ["Blue"; "Red"; "Green"]
             "multiple_choice" None 3 3) = Return (Q2Qc 3).
Proof.
  rewrite ranking_rounded by (cbn; lia). apply (f_equal Return).
  apply Q2Qc_eq_iff. vm_compute. reflexivity.
Qed.

(** Beyond those bounds the quotient can be lost: a ranking that is 0.0
    with [_correct] at 1, and statistics that raise. *)
Example ranking_underflow :
  ranking (mkCard CLASS_VERSION "2+2?" ["4"] "numeric" None (10 ^ 400) 1)
  = Return 0%Qc.
Proof.
  unfold ranking, int_true_div. cbn [_attempts _correct].
  change (10 ^ 400 =? 0) with false. cbv iota.
  rewrite (to_double_value _ 0); [reflexivity| |reflexivity].
  vm_compute. reflexivity.
Qed.

Example ranking_overflow :
  ranking (mkCard CLASS_VERSION "2+2?" ["4"] "numeric" None 1 (2 ^ 512))
  = Raise OverflowError.
Proof. vm_compute. reflexivity. Qed.

Example score_overflow :
  score (mkCard CLASS_VERSION "2+2?" ["4"] "numeric" None 1 (2 ^ 1024))
  = Raise OverflowError.
Proof. vm_compute. reflexivity. Qed.

(** *** Construction and the guessed answer type *)

(** C6, as stated, fails: an answer with a tab in it has whitespace, and is
    still guessed to be a word. *)
Lemma guess_tab_is_word :
  contains_whitespace tabbed_answer = true
  /\ spec_guessed_type tabbed_answer [] = "text"
  /\ _guessAnswerType [tabbed_answer] = Return "word".
Proof. repeat split. Qed.

Lemma continuation_not_space (c : ascii) (x : N) :
  continuation c = Some x -> Ascii.eqb c " " = false.
Proof.
  destruct (Ascii.eqb_spec c " ") as [->|_]; [|reflexivity].
  vm_compute. discriminate.
Qed.

(** [chars] takes one character off the front, and leaves a space of the
    rest in the rest. *)
Lemma chars_cons (c0 : ascii) (s0 : string) :
  exists t s',
    chars (String c0 s0) = t :: chars s'
    /\ String c0 s0 = snd t +:+ s'
    /\ (String.length s' <= String.length s0)%nat
    /\ (contains_space s0 = true -> contains_space s' = true)
    /\ (Ascii.eqb c0 " " = true -> Py_UNICODE_ISSPACE (fst t) = true).
Proof.
  assert (Hstray : forall t,
             snd t = String c0 EmptyString ->
             (Ascii.eqb c0 " " = true -> Py_UNICODE_ISSPACE (fst t) = true) ->
             exists t' s',
               t :: chars s0 = t' :: chars s'
               /\ String c0 s0 = snd t' +:+ s'
               /\ (String.length s' <= String.length s0)%nat
               /\ (contains_space s0 = true -> contains_space s' = true)
               /\ (Ascii.eqb c0 " " = true
                   -> Py_UNICODE_ISSPACE (fst t') = true)).
  { intros t Ht Hsp. exists t, s0. rewrite Ht.
    repeat split; [lia|auto|exact Hsp]. }
  assert (Hhigh : (N_of_ascii c0 <? 128)%N = false ->
                  Ascii.eqb c0 " " = true -> False).
  { intros Hb Heq. apply Ascii.eqb_eq in Heq. subst c0. discriminate Hb. }
  cbn [chars]. cbv zeta.
  destruct (N_of_ascii c0 <? 128)%N eqn:H128.
  { apply Hstray; [reflexivity|].
    intros Heq. apply Ascii.eqb_eq in Heq. subst c0. reflexivity. }
  assert (Hs : exists t' s',
             ((56320 + N_of_ascii c0)%N, String c0 EmptyString) :: chars s0
             = t' :: chars s'
             /\ String c0 s0 = snd t' +:+ s'
             /\ (String.length s' <= String.length s0)%nat
             /\ (contains_space s0 = true -> contains_space s' = true)
             /\ (Ascii.eqb c0 " " = true
                 -> Py_UNICODE_ISSPACE (fst t') = true)).
  { apply Hstray; [reflexivity|]. intros Heq. destruct (Hhigh eq_refl Heq). }
  destruct (N_of_ascii c0 <? 194)%N; [exact Hs|].
  destruct (N_of_ascii c0 <? 224)%N.
  { destruct s0 as [|c1 s1]; [exact Hs|].
    destruct (continuation c1) as [x1|] eqn:H1; [|exact Hs].
    eexists _, s1. split; [reflexivity|]. cbn [snd fst String.length].
    repeat split; [lia| |intros Heq; destruct (Hhigh eq_refl Heq)].
    cbn [contains_space]. rewrite (continuation_not_space c1 x1 H1). auto. }
  destruct (N_of_ascii c0 <? 240)%N.
  { destruct s0 as [|c1 [|c2 s2]]; [exact Hs|exact Hs|].
    destruct (continuation c1) as [x1|] eqn:H1; [|exact Hs].
    destruct (continuation c2) as [x2|] eqn:H2; [|exact Hs].
    match goal with |- context [if ?b then _ else _] => destruct b end;
      [|exact Hs].
    eexists _, s2. split; [reflexivity|]. cbn [snd fst String.length].
    repeat split; [lia| |intros Heq; destruct (Hhigh eq_refl Heq)].
    cbn [contains_space].
    rewrite (continuation_not_space c1 x1 H1),
      (continuation_not_space c2 x2 H2). auto. }
  destruct (N_of_ascii c0 <? 245)%N; [|exact Hs].
  destruct s0 as [|c1 [|c2 [|c3 s3]]]; [exact Hs|exact Hs|exact Hs|].
  destruct (continuation c1) as [x1|] eqn:H1; [|exact Hs].
  destruct (continuation c2) as [x2|] eqn:H2; [|exact Hs].
  destruct (continuation c3) as [x3|] eqn:H3; [|exact Hs].
  match goal with |- context [if ?b then _ else _] => destruct b end;
    [|exact Hs].
  eexists _, s3. split; [reflexivity|]. cbn [snd fst String.length].
  repeat split; [lia| |intros Heq; destruct (Hhigh eq_refl Heq)].
  cbn [contains_space].
  rewrite (continuation_not_space c1 x1 H1),
    (continuation_not_space c2 x2 H2), (continuation_not_space c3 x3 H3).
  auto.
Qed.

(** Decoding loses no byte. *)
Lemma unchars_chars (s : string) : unchars (chars s) = s.
Proof.
  remember (String.length s) as n eqn:Hn.
  assert (Hle : (String.length s <= n)%nat) by lia. clear Hn.
  revert s Hle. induction n as [|n IH]; intros [|c0 s0] Hle;
    try reflexivity; cbn [String.length] in Hle; [lia|].
  destruct (chars_cons c0 s0) as (t & s' & Hch & Hs & Hlen & _).
  rewrite Hch. cbn [unchars]. rewrite (IH s') by lia. symmetry. exact Hs.
Qed.

Lemma contains_space_whitespace (s : string) :
  contains_space s = true -> contains_whitespace s = true.
Proof.
  unfold contains_whitespace.
  remember (String.length s) as n eqn:Hn.
  assert (Hle : (String.length s <= n)%nat) by lia. clear Hn.
  revert s Hle. induction n as [|n IH]; intros [|c0 s0] Hle Hsp;
    try discriminate Hsp; cbn [String.length] in Hle; [lia|].
  destruct (chars_cons c0 s0) as (t & s' & Hch & _ & Hlen & Hrest & Hfirst).
  rewrite Hch. cbn [existsb]. cbn [contains_space] in Hsp.
  destruct (Ascii.eqb c0 " ") eqn:Hc0.
  - rewrite (Hfirst eq_refl). reflexivity.
  - cbn [orb] in Hsp. rewrite (IH s') by (try lia; auto). apply orb_true_r.
Qed.

Lemma guessAnswerType_cons (a0 : string) (rest : list string) :
  _guessAnswerType (a0 :: rest) =
  Return (match rest with
          | _ :: _ => "multiple_choice"
          | [] =>
              if String.eqb a0 "True" || String.eqb a0 "False" then "boolean"
              else if float_parses a0 then "numeric"
              else if negb (contains_space a0) then "word"
              else "text"
          end).
Proof.
  unfold _guessAnswerType. rewrite py_index_0.
  destruct rest as [|a1 rest].
  - cbn [length]. replace (1 <? Z.of_nat 1) with false by reflexivity.
    destruct (String.eqb a0 "True" || String.eqb a0 "False"); [reflexivity|].
    destruct (float_parses a0); [reflexivity|].
    destruct (contains_space a0); reflexivity.
  - cbn [length].
    destruct (Z.ltb_spec 1 (Z.of_nat (S (S (length rest))))); [reflexivity|lia].
Qed.

Lemma init_nonempty_guess (question a0 : string) (rest : list string)
    (override_confirms : option bool) :
  exists card,
    FlashcardCard_init question (a0 :: rest) None override_confirms = Return card
    /\ Return (_answer_type card) = _guessAnswerType (a0 :: rest).
Proof.
  unfold FlashcardCard_init. rewrite guessAnswerType_cons.
  eexists. split; reflexivity.
Qed.

(** C6, amended.  With a non-empty answer list and no answer type given, the
    type is [multiple_choice] for more than one answer; else [boolean] when
    the sole answer is ["True"] or ["False"]; else [numeric] when it parses as
    a float; else [word] when it has no space character [' '] in it (other
    whitespace does not count); else [text]. *)
Theorem guessAnswerType_cases (a0 : string) (rest : list string) :
  _guessAnswerType (a0 :: rest) =
  Return (match rest with
          | _ :: _ => "multiple_choice"
          | [] =>
              if String.eqb a0 "True" || String.eqb a0 "False" then "boolean"
              else if float_parses a0 then "numeric"
              else if negb (contains_space a0) then "word"
              else "text"
          end)
  /\ (forall question override_confirms,
        exists card,
          FlashcardCard_init question (a0 :: rest) None override_confirms
            = Return card
          /\ Return (_answer_type card) = _guessAnswerType (a0 :: rest))
  /\ (contains_whitespace a0 = contains_space a0 ->
      _guessAnswerType (a0 :: rest) = Return (spec_guessed_type a0 rest)).
Proof.
  split; [apply guessAnswerType_cons|split].
  - intros q oc. apply init_nonempty_guess.
  - intros Hws. rewrite guessAnswerType_cons. unfold spec_guessed_type.
    rewrite Hws. reflexivity.
Qed.

(** C7, as stated, fails: with an answer type given, a card with no answers
    at all is constructed without any error. *)
Lemma init_empty_answers_succeeds :
  FlashcardCard_init "Q" [] (Some "text") None
  = Return (mkCard CLASS_VERSION "Q" [] "text" None 0 0).
Proof. reflexivity. Qed.

(** C7, amended.  Construction with a non-empty answer list always succeeds.
    With an empty list it succeeds too when an answer type is given, and
    raises [IndexError] (from guessing the type) when none is; so it fails
    exactly for an empty list with no answer type. *)
Theorem FlashcardCard_init_errors (question : string)
    (valid_answers : list string) (answer_type : option string)
    (override_confirms : option bool) :
  (valid_answers <> [] ->
   exists card,
     FlashcardCard_init question valid_answers answer_type override_confirms
       = Return card)
  /\ (forall t,
        FlashcardCard_init question [] (Some t) override_confirms
        = Return (mkCard CLASS_VERSION question [] t override_confirms 0 0))
  /\ FlashcardCard_init question [] None override_confirms = Raise IndexError
  /\ (forall e,
        FlashcardCard_init question valid_answers answer_type override_confirms
          = Raise e
        <-> e = IndexError /\ valid_answers = [] /\ answer_type = None).
Proof.
  split; [|split; [reflexivity|split; [reflexivity|]]].
  - intros Hne. destruct valid_answers as [|a0 rest]; [contradiction|].
    destruct answer_type as [t|]; [eexists; reflexivity|].
    destruct (init_nonempty_guess question a0 rest override_confirms)
      as (card & Hc & _). eauto.
  - intros e. destruct answer_type as [t|].
    + cbn. split; [discriminate|]. intros (_ & _ & [=]).
    + destruct valid_answers as [|a0 rest].
      * cbn. split; [intros [= <-]; auto|]. intros (-> & _); reflexivity.
      * destruct (init_nonempty_guess question a0 rest override_confirms)
          as (card & Hc & _).
        rewrite Hc. split; [discriminate|]. intros (_ & [=] & _).
Qed.

End Card.

(** ** Card sets *)

Section CardSet.

Variable h : list FlashcardCard.
Implicit Types (self : FlashcardSet) (newcard x y : loc) (l : list loc).

(** The question of the card at an address. *)
Let question_at (x : loc) : string := _question (deref h x).

Lemma same_card_question x y :
  same_card h x y = true <-> question_at x = question_at y.
Proof.
  unfold same_card, card_eq, question_at. rewrite orb_true_iff. split.
  - intros [Heq|Heq].
    + apply Nat.eqb_eq in Heq. subst. reflexivity.
    + apply String.eqb_eq, Heq.
  - intros Heq. right. apply String.eqb_eq, Heq.
Qed.

Lemma py_in_question x l :
  py_in h x l = true <-> exists y, y ∈ l /\ question_at y = question_at x.
Proof.
  unfold py_in. rewrite existsb_exists. split.
  - intros (y & Hin & Hs). exists y. split.
    + apply list_elem_of_In, Hin.
    + apply same_card_question, Hs.
  - intros (y & Hin & Hq). exists y. split.
    + apply list_elem_of_In, Hin.
    + apply same_card_question, Hq.
Qed.

Lemma py_remove_first x pre old post :
  question_at old = question_at x ->
  (forall y, y ∈ pre -> question_at y <> question_at x) ->
  py_remove h x (pre ++ old :: post) = Return (pre ++ post).
Proof.
  intros Hold. induction pre as [|p pre IH]; intros Hpre; cbn.
  - apply same_card_question in Hold. rewrite Hold. reflexivity.
  - destruct (same_card h p x) eqn:Hs.
    + apply same_card_question in Hs. exfalso. apply (Hpre p); [left|exact Hs].
    + rewrite IH; [reflexivity|]. intros y Hy. apply Hpre. right. exact Hy.
Qed.

(** C4. [addCard]: when no card of the set has the new card's question, the
    card is appended and [True] returned; when one has and
    [replaceduplicate] is false, the set is unchanged and [False] returned;
    when one has and [replaceduplicate] is true, the (first) card with that
    question is removed, the new card appended and [True] returned.  Only the
    question strings are compared. *)
Theorem addCard_cases self newcard :
  let dup := fun y => _question (deref h y) = _question (deref h newcard) in
  ((forall y, y ∈ cards self -> ~ dup y) ->
   forall replaceduplicate,
     addCard h newcard replaceduplicate self
     = (Return true, set_cards (cards self ++ [newcard]) self))
  /\ ((exists y, y ∈ cards self /\ dup y) ->
      addCard h newcard false self = (Return false, self))
  /\ (forall pre old post,
        cards self = pre ++ old :: post ->
        dup old ->
        (forall y, y ∈ pre -> ~ dup y) ->
        addCard h newcard true self
        = (Return true, set_cards (pre ++ post ++ [newcard]) self)).
Proof.
  cbv zeta. fold question_at.
  unfold addCard, bind, gets, modify, ret, lift_result.
  split; [|split].
  - intros Hnone r.
    destruct (py_in h newcard (cards self)) eqn:Hin; [|reflexivity].
    apply py_in_question in Hin as (y & Hy & Hq).
    exfalso. exact (Hnone y Hy Hq).
  - intros Hdup. apply py_in_question in Hdup. rewrite Hdup. reflexivity.
  - intros pre old post Hcards Hold Hpre.
    assert (Hin : py_in h newcard (cards self) = true).
    { apply py_in_question. exists old. split; [|exact Hold].
      rewrite Hcards. set_solver. }
    rewrite Hin. cbn [negb]. rewrite Hcards.
    rewrite (py_remove_first newcard pre old post Hold Hpre).
    destruct self as [v n c cs]. cbn. rewrite <- app_assoc. reflexivity.
Qed.

End CardSet.

(** ** Sorting with a key *)

Section StableSort.

Context {K A : Type} (lt : K -> K -> bool).

(** [lt] is the strict part of a total preorder. *)
Hypothesis lt_asym : forall a b, lt a b = true -> lt b a = false.
Hypothesis le_trans :
  forall a b c, lt b a = false -> lt c b = false -> lt c a = false.

Implicit Types (x y : K * A) (l : list (K * A)).


Lemma insert_by_perm x l : insert_by lt x l ≡ₚ x :: l.
Proof.
  induction l as [|y l IH]; cbn; [reflexivity|].
  destruct (lt (fst y) (fst x)); [|reflexivity].
  rewrite IH. apply perm_swap.
Qed.

Lemma stable_sort_perm l : stable_sort lt l ≡ₚ l.
Proof.
  induction l as [|x l IH]; cbn; [reflexivity|].
  rewrite insert_by_perm, IH. reflexivity.
Qed.

Lemma stable_sort_length l : length (stable_sort lt l) = length l.
Proof. apply Permutation_length, stable_sort_perm. Qed.





End StableSort.

(** ** The sort keys of [getSortedCards] *)








(** ** Drawing the keys *)

Lemma advance_advance (n m : nat) (r : RandomState) :
  advance m (advance n r) = advance (n + m) r.
Proof. unfold advance. cbn. f_equal. lia. Qed.

Lemma draw_keys_S (r : RandomState) (n : nat) :
  draw_keys r (S n) = draws r (drawn r) :: draw_keys (advance 1 r) n.
Proof.
  unfold draw_keys. cbn [seq map]. rewrite Nat.add_0_r. f_equal.
  rewrite <- seq_shift, map_map. apply map_ext. intros i. cbn.
  f_equal. lia.
Qed.

Lemma map_M_draws {A B : Type} (f : A -> M RandomState B) (g : A -> Qc -> B) :
  (forall k r, f k r = (Return (g k (draws r (drawn r))), advance 1 r)) ->
  forall l r,
    map_M f l r
    = (Return (zip_with g l (draw_keys r (length l))), advance (length l) r).
Proof.
  intros Hf. induction l as [|a l IH]; intros r.
  - cbn. unfold ret, advance. destruct r; reflexivity.
  - cbn [map_M length]. unfold bind. rewrite Hf, IH, draw_keys_S.
    unfold ret. cbn [zip_with]. rewrite advance_advance. reflexivity.
Qed.

Lemma draw_keys_length (r : RandomState) (n : nat) : length (draw_keys r n) = n.
Proof. unfold draw_keys. rewrite length_map, length_seq. reflexivity. Qed.

Lemma sorted_draws {A K : Type} (lt : K -> K -> bool) (f : A -> M RandomState K)
    (g : A -> Qc -> K) :
  (forall k r, f k r = (Return (g k (draws r (drawn r))), advance 1 r)) ->
  forall l r,
    sorted lt l f r
    = (Return (map snd (stable_sort lt
                 (zip (zip_with g l (draw_keys r (length l))) l))),
       advance (length l) r).
Proof.
  intros Hf l r. unfold sorted, decorate, bind.
  rewrite (map_M_draws f g Hf). reflexivity.
Qed.

(** ** [getSortedCards] *)

Section GetSortedCards.

Variable h : list FlashcardCard.
Implicit Types (self : FlashcardSet) (r : RandomState).

Lemma py_slice_to_nat {A : Type} (l : list A) (n : nat) :
  py_slice_to l (Z.of_nat n) = take n l.
Proof.
  unfold py_slice_to.
  destruct (Z.ltb_spec (Z.of_nat n) 0); [lia|].
  rewrite Nat2Z.id. reflexivity.
Qed.










Lemma zip_with_snd_id {A B : Type} (l : list A) (k : list B) :
  length k = length l -> zip_with (fun _ d => d) l k = k.
Proof.
  revert k. induction l as [|a l IH]; intros [|b k]; cbn;
    try reflexivity; try discriminate.
  intros [= Hlen]. f_equal. apply IH, Hlen.
Qed.

Lemma getSortedCards_unfold self (n m : nat) r :
  getSortedCards h self (Z.of_nat n) (Z.of_nat m) r
  = (Return
       (take n (map snd (stable_sort tuple_lt
          (zip (zip (ranking_at h <$> cards self)
                    (draw_keys r (length (cards self))))
               (cards self))))
        ++ take m (map snd (stable_sort float_lt
             (zip (draw_keys (advance (length (cards self)) r)
                     (length (cards self)))
                  (cards self))))),
     advance (length (cards self) + length (cards self)) r).
Proof.
  unfold getSortedCards, bind.
  rewrite (sorted_draws tuple_lt _ (fun k d => (ranking_value (deref h k), d)))
    by reflexivity.
  rewrite (sorted_draws float_lt _ (fun k d => d)) by reflexivity.
  unfold ret. rewrite advance_advance, !py_slice_to_nat.
  repeat f_equal.
  - generalize (draw_keys r (length (cards self))).
    induction (cards self) as [|c cs IH]; intros [|d ds]; cbn; try reflexivity.
    f_equal. apply IH.
  - apply zip_with_snd_id, draw_keys_length.
Qed.


Example getSortedCards_scenario :
  let h0 := [mkCard CLASS_VERSION "A" ["a"] "word" None 0 0;
             mkCard CLASS_VERSION "B" ["b"] "word" None 5 5] in
  let s0 := mkSet CLASS_VERSION "deck" DEFAULT_confirms [1%nat; 0%nat] in
  fst (getSortedCards h0 s0 1 0 (draws_from 0 [])) = Return [0%nat]
  /\ fst (getSortedCards h0 s0 2 1 (draws_from 0 [])) = Return [0; 1; 1]%nat
  /\ fst (getSortedCards h0 s0 5 0 (draws_from 0 [])) = Return [0; 1]%nat.
Proof. vm_compute. auto. Qed.

End GetSortedCards.

(** ** Importing rows *)

Section ImportRows.

Implicit Types (w : World) (row : list string) (rows : list (list string)).

Lemma usable_answers_nonblank (columns : list string) :
  Forall (fun a => a <> EmptyString) (usable_answers columns).
Proof.
  induction columns as [|c columns IH]; cbn; [constructor|].
  destruct (String.eqb_spec (strip c) EmptyString) as [_|Hne]; cbn;
    [exact IH|constructor; assumption].
Qed.

(** A row with fewer than two fields is reported with its line number and
    skipped: nothing else changes. *)
Lemma import_rows_short row rows (linenumber questionsimported : Z) w :
  (length row < 2)%nat ->
  import_rows (row :: rows) linenumber questionsimported w
  = import_rows rows (linenumber + 1) questionsimported
      (set_stdout
         (stdout w ++
          ["Error on line " +:+ pretty (linenumber + 1)
           +:+ ": Not enough fields. Need at "
           +:+ "least 2 (question and correct answer)."]) w).
Proof.
  intros Hlen. cbn [import_rows].
  destruct (Z.ltb_spec (Z.of_nat (length row)) 2) as [_|Hge]; [|lia].
  reflexivity.
Qed.

(** A row with two fields or more, none of which after the first has
    anything but white space in it, ends the import with [IndexError]: the
    card is constructed with no answers. *)
Lemma import_rows_no_answer row rows (linenumber questionsimported : Z) w :
  (2 <= length row)%nat ->
  usable_answers (py_slice_from1 row) = [] ->
  import_rows (row :: rows) linenumber questionsimported w
  = (Raise IndexError, w).
Proof.
  intros Hlen Hnone. cbn [import_rows].
  destruct (Z.ltb_spec (Z.of_nat (length row)) 2) as [Hlt|_]; [lia|].
  destruct row as [|field0 rest]; [cbn in Hlen; lia|].
  unfold bind at 1. unfold lift_result at 1. rewrite py_index_0.
  rewrite Hnone. reflexivity.
Qed.

(** A row with a usable answer: the card is constructed from the trimmed
    first column and the usable answers, in order, and handed to [addCard]
    without replacement. *)
Lemma import_rows_usable field0 rest rows (linenumber questionsimported : Z) w
    (a0 : string) (answers : list string) :
  usable_answers rest = a0 :: answers ->
  exists card,
    FlashcardCard_init (strip field0) (a0 :: answers) None None = Return card
    /\ _question card = strip field0
    /\ _valid_answers card = a0 :: answers
    /\ let w1 := set_heap (heap w ++ [card]) w in
       let added := addCard (heap w1) (length (heap w)) false (the_set w) in
       import_rows ((field0 :: rest) :: rows) linenumber questionsimported w
       = if fst added is Return true then
           import_rows rows (linenumber + 1) (questionsimported + 1)
             (set_the_set (snd added) w1)
         else
           import_rows rows (linenumber + 1) questionsimported
             (set_stdout
                (stdout w ++
                 ["Warning on line " +:+ pretty (linenumber + 1)
                  +:+ ": Question already exists "
                  +:+ "in flashcard set: " +:+ strip field0])
                (set_the_set (snd added) w1)).
Proof.
  intros Husable.
  destruct (init_nonempty_guess (strip field0) a0 answers None)
    as (card & Hinit & _).
  exists card. split; [exact Hinit|].
  destruct (FlashcardCard_init_fresh _ _ _ _ _ Hinit) as (_ & _ & Hq & Hva).
  split; [exact Hq|]. split; [exact Hva|].
  cbv zeta. cbn [import_rows].
  destruct rest as [|a rest']; [discriminate Husable|].
  destruct (Z.ltb_spec (Z.of_nat (length (field0 :: a :: rest'))) 2) as [Hlt|_];
    [cbn in Hlt; lia|].
  unfold bind at 1. unfold lift_result at 1. rewrite py_index_0.
  change (py_slice_from1 (field0 :: a :: rest')) with (a :: rest').
  rewrite Husable, Hinit.
  unfold new_card, bind, lift_result, gets, modify, ret, with_set; cbn.
  unfold addCard, bind, gets, modify, ret, lift_result; cbn.
  destruct (py_in (heap w ++ [card]) (length (heap w)) (cards (the_set w)));
    reflexivity.
Qed.

(** C8, at the row ["Q1~"].  The reader yields the two fields ["Q1"] and
    [""] for it; the row passes the test on the number of fields, the card
    is constructed with an empty answer list, and the import stops with
    [IndexError]: no warning is printed, no later row is read. *)
Theorem import_question_only_row_raises w rows :
  csv_row "Q1~" = ["Q1"; EmptyString]
  /\ FCStateImportCSV_read (csv_row "Q1~" :: rows) w = (Raise IndexError, w).
Proof.
  split; [reflexivity|].
  unfold FCStateImportCSV_read, bind.
  rewrite import_rows_no_answer; [reflexivity|cbn; lia|reflexivity].
Qed.

End ImportRows.

(** ** The console menu *)

Section Console.

Implicit Types (w : World) (self : ConsoleMenu).

Lemma set_stdout_twice (o1 o2 : list string) w :
  set_stdout o2 (set_stdout o1 w) = set_stdout o2 w.
Proof. reflexivity. Qed.

Lemma print_run (s : string) w :
  print s w = (Return tt, set_stdout (stdout w ++ [s]) w).
Proof. reflexivity. Qed.

Lemma input_run (prompt : string) w :
  input prompt w =
  match stdin w with
  | [] => (Raise EOFError, set_stdout (stdout w ++ [prompt]) w)
  | line :: rest =>
      (Return line, set_stdin rest (set_stdout (stdout w ++ [prompt]) w))
  end.
Proof.
  unfold input, bind, print, modify, gets, raise, ret. cbn.
  destruct (stdin w); reflexivity.
Qed.

Lemma print_lines_run (lines : list string) w :
  fold_right (fun line k => print line ;; k) (ret tt) lines w
  = (Return tt, set_stdout (stdout w ++ lines) w).
Proof.
  revert w. induction lines as [|l lines IH]; intros w; cbn [fold_right].
  - unfold ret. rewrite app_nil_r. destruct w; reflexivity.
  - unfold bind. rewrite print_run, IH. cbn. rewrite <- app_assoc. reflexivity.
Qed.

Lemma displayChoices_run self w :
  displayChoices self w
  = (Return tt, set_stdout (stdout w ++ choice_lines self) w).
Proof. apply print_lines_run. Qed.

(** One round of the menu, by what the user types. *)
Lemma gather_rounds_S (fuel : nat) self w :
  gather_rounds (S fuel) self w =
  let w1 := set_stdout (stdout w ++ round_lines self) w in
  match stdin w with
  | [] => (Raise EOFError, w1)
  | textchoice :: rest =>
      let w2 := set_stdin rest w1 in
      match dict_get textchoice (_choices self) with
      | None =>
          gather_rounds fuel self
            (set_stdout (stdout w2 ++ [invalid_entry_error (_options self)]) w2)
      | Some value =>
          if manual (_options self)
             && String.eqb textchoice (manual_key (_options self))
          then
            (manualtext <- input (manual_prompt (_options self)) ;;
             ret (Some (textchoice, manualtext))) w2
          else if abstain (_options self)
                  && String.eqb textchoice (abstain_key (_options self))
          then (Return None, w2)
          else (Return (Some (textchoice, value)), w2)
      end
  end.
Proof.
  cbn [gather_rounds]. unfold bind at 1. rewrite print_run.
  unfold bind at 1. rewrite displayChoices_run.
  unfold bind at 1. rewrite input_run. cbn [stdin stdout set_stdout].
  unfold round_lines. cbv zeta.
  replace (((stdout w ++ [intro_text (_options self)]) ++ choice_lines self)
            ++ [input_text (_options self)])
    with (stdout w ++ intro_text (_options self) :: choice_lines self
            ++ [input_text (_options self)])
    by (rewrite <- !app_assoc; reflexivity).
  destruct (stdin w) as [|textchoice rest]; [reflexivity|].
  destruct (dict_get textchoice (_choices self)) as [value|]; [|reflexivity].
  destruct (manual (_options self)
            && String.eqb textchoice (manual_key (_options self)));
    [reflexivity|].
  destruct (abstain (_options self)
            && String.eqb textchoice (abstain_key (_options self)));
    reflexivity.
Qed.

(** The menu only ever adds to what was printed. *)
Lemma gather_rounds_appends (fuel : nat) self w :
  exists out, stdout (snd (gather_rounds fuel self w)) = stdout w ++ out.
Proof.
  revert w. induction fuel as [|fuel IH]; intros w.
  - exists []. cbn. rewrite app_nil_r. reflexivity.
  - rewrite gather_rounds_S. cbv zeta.
    destruct (stdin w) as [|textchoice rest]; [eexists; reflexivity|].
    destruct (dict_get textchoice (_choices self)) as [value|].
    + destruct (manual (_options self) && _).
      * unfold bind. rewrite input_run. cbn [stdin set_stdin set_stdout].
        destruct rest; cbn; rewrite <- app_assoc; eexists; reflexivity.
      * destruct (abstain (_options self) && _); eexists; reflexivity.
    + destruct (IH (set_stdout
                     (stdout (set_stdin rest
                        (set_stdout (stdout w ++ round_lines self) w))
                      ++ [invalid_entry_error (_options self)])
                     (set_stdin rest
                        (set_stdout (stdout w ++ round_lines self) w))))
        as (out & Hout).
      rewrite Hout. cbn. rewrite <- !app_assoc. eexists; reflexivity.
Qed.

(** Whatever the user types, a menu first shows its intro text, one line per
    choice, and the prompt. *)
Lemma static_quickChoice_shows (choices : list (pyval * string))
    (options : MenuOptions) w :
  exists out,
    stdout (snd (static_quickChoice choices options w))
    = stdout w ++ round_lines (ConsoleMenu_init choices options) ++ out.
Proof.
  unfold static_quickChoice, gatherUserChoice, bind, gets.
  set (self := ConsoleMenu_init choices options).
  rewrite gather_rounds_S. cbv zeta.
  destruct (stdin w) as [|textchoice rest] eqn:Hin.
  { exists []. cbn. rewrite app_nil_r. reflexivity. }
  destruct (dict_get textchoice (_choices self)) as [value|].
  - destruct (manual (_options self) && _).
    + unfold bind. rewrite input_run. cbn [stdin set_stdin set_stdout].
      destruct rest; cbn; rewrite <- app_assoc; eexists; reflexivity.
    + destruct (abstain (_options self) && _); exists []; cbn;
        rewrite app_nil_r; reflexivity.
  - match goal with
    | |- context [gather_rounds ?f ?s ?w0] =>
        destruct (gather_rounds_appends f s w0) as (out & Hout)
    end.
    rewrite Hout. cbn. rewrite <- !app_assoc. eexists; reflexivity.
Qed.

(** A valid key that is neither the manual nor the abstain key is returned
    with its value after one round. *)
Lemma static_quickChoice_valid (choices : list (pyval * string))
    (options : MenuOptions) w (key value : string) (rest : list string) :
  let self := ConsoleMenu_init choices options in
  stdin w = key :: rest ->
  dict_get key (_choices self) = Some value ->
  manual options && String.eqb key (manual_key options) = false ->
  abstain options && String.eqb key (abstain_key options) = false ->
  static_quickChoice choices options w
  = (Return (Some (key, value)),
     set_stdin rest (set_stdout (stdout w ++ round_lines self) w)).
Proof.
  intros self Hin Hget Hman Habs.
  unfold static_quickChoice, gatherUserChoice, bind, gets. fold self.
  rewrite gather_rounds_S. cbv zeta. rewrite Hin, Hget.
  change (_options self) with options. rewrite Hman, Habs. reflexivity.
Qed.

End Console.

(** ** The run menu and the card run *)

Section Run.

Implicit Types (w : World) (self : RunCardList).

Lemma set_getSortedCards_run (n m : nat) w :
  exists l,
    set_getSortedCards (Z.of_nat n) (Z.of_nat m) w
    = (Return l,
       set_rng (advance (length (cards (the_set w)) + length (cards (the_set w)))
                  (rng w)) w).
Proof.
  unfold set_getSortedCards, bind, get, with_random.
  rewrite getSortedCards_unfold. eexists. reflexivity.
Qed.

Lemma shuffle_run {A : Type} (l : list A) w :
  with_random (sorted float_lt l (fun k => random)) w
  = (Return (map snd (stable_sort float_lt
               (zip (draw_keys (rng w) (length l)) l))),
     set_rng (advance (length l) (rng w)) w).
Proof.
  unfold with_random.
  rewrite (sorted_draws float_lt _ (fun k d => d)) by reflexivity.
  rewrite zip_with_snd_id by apply draw_keys_length. reflexivity.
Qed.

Lemma shuffle_perm {A : Type} (l : list A) (ds : list Qc) :
  length ds = length l ->
  map snd (stable_sort float_lt (zip ds l)) ≡ₚ l.
Proof.
  intros Hlen. rewrite (stable_sort_perm float_lt).
  change (map snd ?x) with (x.*2). rewrite snd_zip; [reflexivity|lia].
Qed.

(** C9, at the choice [endless].  The menu accepts the key, the one-card
    list is computed and shuffled, and then the constructor call names the
    variable [endless], which is bound nowhere: the method raises
    [NameError] and no card run is entered. *)
Theorem endless_choice_raises (h : list FlashcardCard) (s : FlashcardSet)
    (rest out : list string) (r : RandomState) :
  ("endless" ∉ fc_main_globals)
  /\ fst (FCStateRunCardsMenu_run (mkWorld h s ("endless" :: rest) out r))
     = Raise (NameError "endless").
Proof.
  split; [apply (bool_decide_unpack (_ ∉ _)); vm_compute; exact I|].
  unfold FCStateRunCardsMenu_run. unfold bind at 1. unfold gets at 1.
  cbn [the_set]. unfold bind at 1.
  match goal with
  | |- context [static_quickChoice _ ?o] => set (options := o)
  end.
  rewrite (static_quickChoice_valid RunCardsMenu_choices options _
             "endless" "Run the lowest-ranking card in the set until you quit"
             rest); [|reflexivity..].
  unfold bind at 1. unfold RunCardsMenu_cardlist.
  unfold bind at 1. unfold gets at 1.
  replace (String.eqb "endless" "1") with false by reflexivity.
  replace (String.eqb "endless" "5") with false by reflexivity.
  replace (String.eqb "endless" "10") with false by reflexivity.
  replace (String.eqb "endless" "10r") with false by reflexivity.
  replace (String.eqb "endless" "15") with false by reflexivity.
  replace (String.eqb "endless" "third") with false by reflexivity.
  replace (String.eqb "endless" "half") with false by reflexivity.
  replace (String.eqb "endless" "all") with false by reflexivity.
  replace (String.eqb "endless" "endless") with true by reflexivity.
  unfold bind at 1.
  match goal with
  | |- context [set_getSortedCards 1 0 ?w0] =>
      destruct (set_getSortedCards_run 1 0 w0) as (l & Hl);
      change (Z.of_nat 1) with 1 in Hl; change (Z.of_nat 0) with 0 in Hl;
      rewrite Hl
  end.
  unfold ret at 1. unfold bind at 1. rewrite shuffle_run. reflexivity.
Qed.

Lemma bind_Return_inv {S A B : Type} (m : M S A) (k : A -> M S B)
    (s s' : S) (b : B) :
  bind m k s = (Return b, s') ->
  exists a s1, m s = (Return a, s1) /\ k a s1 = (Return b, s').
Proof.
  unfold bind. destruct (m s) as [[a|e] s1]; [eauto|discriminate].
Qed.

(** Had the run been entered in endless mode: a call of [run] that returns
    leaves the state running ([next] unchanged) with the same index and a
    newly computed card list, unless the answer was [q], which sends it back
    to the main menu. *)
Lemma endless_run_next self w self' (nxt : next_state) w' :
  truthy (_endless self) = true ->
  FCStateRunCardList_run self w = (Return (self', nxt), w') ->
  (nxt = Self /\ _index self' = _index self
   /\ _endless self' = _endless self
   /\ exists w1, fst (set_getSortedCards 1 0 w1) = Return (_cardlist self'))
  \/ (nxt = Next FCStateMainMenu /\ self' = self
      /\ exists c w0, ask_question c w0 = (Return "q", w')).
Proof.
  intros Hend Hrun. unfold FCStateRunCardList_run in Hrun.
  rewrite Hend in Hrun. cbn [negb] in Hrun.
  apply bind_Return_inv in Hrun as (_ & w1 & _ & Hrun).
  apply bind_Return_inv in Hrun as (card & w2 & _ & Hrun).
  apply bind_Return_inv in Hrun as (c & w3 & _ & Hrun).
  apply bind_Return_inv in Hrun as (answer & w4 & Hask & Hrun).
  destruct (String.eqb_spec answer "q") as [->|Hq].
  { injection Hrun as <- <- <-. right. eauto. }
  left. cbv zeta in Hrun.
  apply bind_Return_inv in Hrun as (a0 & w5 & _ & Hrun).
  apply bind_Return_inv in Hrun as (_ & w6 & _ & Hrun).
  apply bind_Return_inv in Hrun as (s & w7 & _ & Hrun).
  apply bind_Return_inv in Hrun as (uses & w8 & _ & Hrun).
  apply bind_Return_inv in Hrun as (confirmed & w9 & _ & Hrun).
  apply bind_Return_inv in Hrun as (passed & w10 & _ & Hrun).
  apply bind_Return_inv in Hrun as (self1 & w11 & Hself1 & Hrun).
  apply bind_Return_inv in Hrun as (_ & w12 & _ & Hrun).
  assert (H1 : _endless self1 = _endless self /\ _index self1 = _index self).
  { destruct passed.
    - apply bind_Return_inv in Hself1 as (_ & ? & _ & Hret).
      injection Hret as <- _. auto.
    - apply bind_Return_inv in Hself1 as (_ & ? & _ & Hret).
      injection Hret as <- _. auto. }
  destruct H1 as [He Hi]. rewrite He, Hend in Hrun.
  apply bind_Return_inv in Hrun as (l & w13 & Hl & Hret).
  injection Hret as <- <- <-.
  split; [reflexivity|]. split; [exact Hi|]. split; [exact He|].
  exists w12. rewrite Hl. reflexivity.
Qed.

End Run.

(** ** Asking a question *)

Section Ask.

Implicit Types (w : World) (c : FlashcardCard) (d : list (string * string)).

Lemma dict_set_fresh (k v : string) d :
  Forall (fun kv => fst kv <> k) d -> dict_set k v d = d ++ [(k, v)].
Proof.
  induction 1 as [|[k' v'] d Hk _ IH]; cbn; [reflexivity|].
  destruct (String.eqb_spec k' k) as [Heq|_]; [contradiction|].
  rewrite IH. reflexivity.
Qed.

(** No number is printed as [q]. *)
Lemma pretty_N_go_not_q (x : N) (s : string) :
  pretty_N_go x s = "q" -> s = "q".
Proof.
  revert s. induction (N.lt_wf_0 x) as [x _ IH]. intros s Hs.
  destruct (N.eq_dec x 0%N) as [->|Hx]; [exact Hs|].
  rewrite pretty_N_go_step in Hs by lia.
  apply IH in Hs; [|apply N.div_lt; lia].
  exfalso. injection Hs as Hc _. revert Hc.
  unfold pretty_N_char. repeat case_match; discriminate.
Qed.

Lemma pretty_Z_not_q (z : Z) : pretty z <> "q".
Proof.
  destruct z as [|p|p]; [discriminate| |discriminate].
  unfold pretty, pretty_Z, pretty, pretty_positive, pretty, pretty_N.
  case_decide; [discriminate|]. intros Hq.
  apply pretty_N_go_not_q in Hq. discriminate.
Qed.

(** The dictionary the menu makes of [dict(enumerate(l, 1))]: the keys are
    all different, so nothing is overwritten. *)
Lemma fold_enumerate (l : list string) :
  forall (k : nat) d,
    (forall i : nat,
        Forall (fun kv => fst kv <> pretty (Z.of_nat (k + i) + 1)) d) ->
    fold_left (fun d kv => dict_set (py_str (fst kv)) (snd kv) d)
      (imap (fun i v => (PyInt (Z.of_nat (k + i) + 1), v)) l) d
    = d ++ imap (fun i v => (pretty (Z.of_nat (k + i) + 1), v)) l.
Proof.
  induction l as [|a l IH]; intros k d Hd; cbn [imap fold_left].
  - rewrite app_nil_r. reflexivity.
  - cbn [fst snd py_str].
    rewrite dict_set_fresh by apply Hd.
    rewrite (imap_ext _ (fun i v => (PyInt (Z.of_nat (S k + i) + 1), v)) l)
      by (intros i x _; cbn; do 3 f_equal; lia).
    rewrite IH.
    + rewrite <- app_assoc. cbn [app]. f_equal.
      rewrite Nat.add_0_r. f_equal.
      apply imap_ext. intros i x _. cbn. do 3 f_equal. lia.
    + intros i. apply Forall_app. split.
      * replace (S k + i)%nat with (k + S i)%nat by lia. apply Hd.
      * constructor; [|constructor]. cbn. intros Heq.
        apply (inj pretty) in Heq. lia.
Qed.

Lemma enumerate_menu_lines (l : list string) (key value : string) :
  key = "q" ->
  choice_lines (ConsoleMenu_init (enumerate1 l) (abstain_options key value))
  = numbered_lines l ++ [key +:+ ") " +:+ value].
Proof.
  intros ->. unfold ConsoleMenu_init, enumerate1. cbn [manual abstain abstain_options
    abstain_key abstain_value].
  pose proof (fold_enumerate l 0 [] (fun i => List.Forall_nil _)) as Hfold.
  cbn [Nat.add app] in Hfold. rewrite Hfold.
  rewrite dict_set_fresh.
  - destruct (imap _ l ++ [("q", value)]) as [|x d] eqn:Hd.
    { destruct (imap (fun i v => (pretty (Z.of_nat i + 1), v)) l);
        discriminate Hd. }
    cbn [length Nat.eqb]. rewrite <- Hd. unfold choice_lines. cbn [_choices _options].
    rewrite map_app. cbn [map fst snd choice_suffix abstain_options].
    f_equal. unfold numbered_lines.
    change (map ?f ?x) with (f <$> x). rewrite fmap_imap. apply imap_ext.
    intros i a _. reflexivity.
  - apply Forall_forall. intros [k v] Hin.
    apply elem_of_lookup_imap in Hin as (i & a & [= -> ->] & _). cbn.
    apply pretty_Z_not_q.
Qed.

Lemma true_false_lines (key value : string) :
  key = "q" ->
  choice_lines (ConsoleMenu_init [(PyStr "1", "True"); (PyStr "2", "False")]
                  (abstain_options key value))
  = ["1) True"; "2) False"; key +:+ ") " +:+ value].
Proof. intros ->. reflexivity. Qed.

Lemma askMultipleChoice_choices_run (answers : list string) w :
  _askMultipleChoice_choices answers w =
  if true_false_answers answers
  then (Return [(PyStr "1", "True"); (PyStr "2", "False")], w)
  else (Return (enumerate1
                  (map snd (stable_sort float_lt
                     (zip (draw_keys (rng w) (length answers)) answers)))),
        set_rng (advance (length answers) (rng w)) w).
Proof.
  unfold _askMultipleChoice_choices. rewrite py_index_0.
  assert (Hcond :
    (Z.of_nat (length answers) =? 1)
    && match match answers with
             | [] => Raise IndexError
             | a :: _ => Return a
             end with
       | Return a => String.eqb a "True" || String.eqb a "False"
       | Raise _ => false
       end = true_false_answers answers).
  { destruct answers as [|a [|b rest]]; [reflexivity|reflexivity|].
    replace (Z.of_nat (length (a :: b :: rest)) =? 1) with false
      by (symmetry; apply Z.eqb_neq; cbn [length]; lia).
    reflexivity. }
  rewrite Hcond. destruct (true_false_answers answers); [reflexivity|].
  unfold bind. rewrite shuffle_run. reflexivity.
Qed.

(** What [_askMultipleChoice] prints first, whatever is typed. *)
(** What [_askMultipleChoice] prints: the question and a menu, whose entries
    are [True] and [False] for the single answer ["True"] or ["False"], and
    otherwise the answers sorted by the keys drawn for them. *)
Lemma askMultipleChoice_shows (question : string) (answers : list string) w :
  let shuffled :=
    map snd (stable_sort float_lt
               (zip (draw_keys (rng w) (length answers)) answers)) in
  shuffled ≡ₚ answers
  /\ exists out,
       stdout (snd (_askMultipleChoice question answers w))
       = stdout w
         ++ ["Question: " +:+ question; "Choose an option from below"]
         ++ (if true_false_answers answers then ["1) True"; "2) False"]
             else numbered_lines shuffled)
         ++ ["q) Return to menu"; "Enter your choice: "] ++ out.
Proof.
  cbv zeta. split; [apply shuffle_perm, draw_keys_length|].
  unfold _askMultipleChoice. unfold bind at 1. rewrite print_run.
  unfold bind at 1. rewrite askMultipleChoice_choices_run.
  set (w1 := set_stdout (stdout w ++ ["Question: " +:+ question]) w).
  change (rng w1) with (rng w).
  set (shuffled := map snd (stable_sort float_lt
                     (zip (draw_keys (rng w) (length answers)) answers))).
  destruct (true_false_answers answers).
  - destruct (static_quickChoice_shows
                [(PyStr "1", "True"); (PyStr "2", "False")]
                (abstain_options "q" "Return to menu") w1) as (out & Hout).
    exists out.
    unfold bind.
    destruct (static_quickChoice _ _ w1) as [[[[k v]|]|e] w2];
      cbn [snd] in Hout; unfold ret; cbn [snd]; rewrite Hout;
      unfold round_lines;
      rewrite true_false_lines by reflexivity; cbn; rewrite <- !app_assoc;
      reflexivity.
  - destruct (static_quickChoice_shows (enumerate1 shuffled)
                (abstain_options "q" "Return to menu")
                (set_rng (advance (length answers) (rng w)) w1))
      as (out & Hout).
    exists out.
    unfold bind.
    destruct (static_quickChoice _ _ _) as [[[[k v]|]|e] w2];
      cbn [snd] in Hout; unfold ret; cbn [snd]; rewrite Hout;
      unfold round_lines;
      rewrite enumerate_menu_lines by reflexivity; cbn;
      rewrite <- !app_assoc; reflexivity.
Qed.

Lemma askFreeform_shows (question : string) w :
  stdout (snd (_askFreeform question w))
  = stdout w ++ ["Question: " +:+ question;
                 "Enter your answer (or q to return to the menu): "].
Proof.
  unfold _askFreeform, bind. rewrite print_run, input_run.
  cbn [stdin stdout set_stdout]. rewrite <- app_assoc.
  destruct (stdin w); reflexivity.
Qed.

(** How a card is asked.  Through a menu of choices iff its answer type is
    [multiple_choice] or [boolean], and otherwise by the free-text prompt.
    The menu is the two-choice True/False menu exactly when the card's
    answer list is the single answer ["True"] or ["False"], whichever of the
    two types the card has; otherwise it lists all stored answers of the
    card, numbered from 1, in the order of the random keys drawn for them.
    Both menus end with the entry [q]. *)
Lemma ask_question_shows c w :
  let shuffled :=
    map snd (stable_sort float_lt
               (zip (draw_keys (rng w) (length (_valid_answers c)))
                    (_valid_answers c))) in
  asked_by_menu c = false /\
    stdout (snd (ask_question c w))
    = stdout w ++ ["Question: " +:+ _question c;
                   "Enter your answer (or q to return to the menu): "]
  \/
  asked_by_menu c = true /\
    shuffled ≡ₚ _valid_answers c /\
    exists out,
      stdout (snd (ask_question c w))
      = stdout w
        ++ ["Question: " +:+ _question c; "Choose an option from below"]
        ++ (if true_false_answers (_valid_answers c)
            then ["1) True"; "2) False"]
            else numbered_lines shuffled)
        ++ ["q) Return to menu"; "Enter your choice: "] ++ out.
Proof.
  cbv zeta. unfold ask_question. fold (asked_by_menu c).
  destruct (asked_by_menu c).
  - right. split; [reflexivity|].
    exact (askMultipleChoice_shows (_question c) (_valid_answers c) w).
  - left. split; [reflexivity|]. apply askFreeform_shows.
Qed.

(** C10.  The claim is not met by the code: a card of type boolean that
    stores a distractor (here built with the answers True and Maybe and the
    type boolean) is asked with a menu of its stored answers, [1) True] and
    [2) Maybe], not with the True/False menu.  [_askMultipleChoice] is not
    told the type: its comment reads "If the question is boolean, generate a
    choices dict of just True and False", its guard looks at the answers
    instead.  The same guard gives a multiple-choice card whose only answer
    is True the entry False, which it does not store. *)
Theorem boolean_with_distractor_menu :
  FlashcardCard_init "Is it?" ["True"; "Maybe"] (Some "boolean") None
  = Return boolean_with_distractor
  /\ _answer_type boolean_with_distractor = "boolean"
  /\ asked_by_menu boolean_with_distractor = true
  /\ stdout (snd (ask_question boolean_with_distractor (console_start ["1"])))
     = ["Question: Is it?"; "Choose an option from below";
        "1) True"; "2) Maybe"; "q) Return to menu"; "Enter your choice: "]
  /\ stdout (snd (ask_question
                    (mkCard CLASS_VERSION "Is it?" ["True"] "multiple_choice"
                            None 0 0)
                    (console_start ["1"])))
     = ["Question: Is it?"; "Choose an option from below";
        "1) True"; "2) False"; "q) Return to menu"; "Enter your choice: "].
Proof. repeat split; vm_compute; reflexivity. Qed.

End Ask.

(** ** No two cards with the same question *)

Section Unique.

Implicit Types (w : World) (h : list FlashcardCard) (l : list loc).

Lemma questions_app h l1 l2 :
  questions h (l1 ++ l2) = questions h l1 ++ questions h l2.
Proof. apply map_app. Qed.

Lemma py_in_false_question h x l :
  py_in h x l = false -> _question (deref h x) ∉ questions h l.
Proof.
  intros Hin Hq. apply list_elem_of_In, in_map_iff in Hq as (y & Hy & Hl).
  assert (Ht : py_in h x l = true); [|congruence].
  apply py_in_question. exists y. split; [apply list_elem_of_In, Hl|exact Hy].
Qed.

Lemma py_remove_spec h x l :
  py_in h x l = true ->
  exists pre old post,
    l = pre ++ old :: post
    /\ py_remove h x l = Return (pre ++ post)
    /\ _question (deref h old) = _question (deref h x).
Proof.
  induction l as [|y l IH]; cbn; [discriminate|].
  destruct (same_card h y x) eqn:Hs.
  - intros _. exists [], y, l. repeat split. apply same_card_question, Hs.
  - cbn. intros Hin. destruct (IH Hin) as (pre & old & post & -> & Hrem & Hq).
    exists (y :: pre), old, post. rewrite Hrem. repeat split. exact Hq.
Qed.

(** [addCard] keeps the questions of the set different from each other, with
    or without replacement, and adds at most the new card. *)
Lemma addCard_unique h (self : FlashcardSet) (newcard : loc) (r : bool) :
  NoDup (questions h (cards self)) ->
  NoDup (questions h (cards (snd (addCard h newcard r self))))
  /\ (forall x, x ∈ cards (snd (addCard h newcard r self)) ->
      x ∈ cards self \/ x = newcard).
Proof.
  intros Hnd. unfold addCard, bind, gets, modify, ret, lift_result.
  destruct (py_in h newcard (cards self)) eqn:Hin; cbn [negb].
  - destruct r; [|split; [exact Hnd|auto]].
    destruct (py_remove_spec h newcard (cards self) Hin)
      as (pre & old & post & Hl & Hrem & Hq).
    rewrite Hrem. cbn [snd cards set_cards]. rewrite Hl in *. split.
    + assert (Hperm : questions h ((pre ++ post) ++ [newcard])
                      ≡ₚ questions h (pre ++ old :: post)).
      { rewrite !questions_app.
        change (questions h (old :: post))
          with (_question (deref h old) :: questions h post).
        change (questions h [newcard]) with [_question (deref h newcard)].
        rewrite Hq.
        transitivity (_question (deref h newcard)
                      :: questions h pre ++ questions h post).
        - symmetry. apply Permutation_cons_append.
        - apply Permutation_middle. }
      rewrite Hperm. exact Hnd.
    + intros x Hx. apply elem_of_app in Hx as [Hx|Hx].
      * left. apply elem_of_app in Hx as [Hx|Hx]; apply elem_of_app;
          [left; exact Hx|right; right; exact Hx].
      * right. apply list_elem_of_singleton, Hx.
  - cbn [snd cards set_cards]. split.
    + rewrite questions_app.
      change (questions h [newcard]) with [_question (deref h newcard)].
      apply NoDup_app. split; [exact Hnd|].
      split; [|apply NoDup_singleton].
      intros q Hq1 Hq2. apply list_elem_of_singleton in Hq2 as ->.
      exact (py_in_false_question h newcard _ Hin Hq1).
    + intros x Hx. apply elem_of_app in Hx as [Hx|Hx]; [left; exact Hx|].
      right. apply list_elem_of_singleton, Hx.
Qed.

Lemma questions_alloc h (c : FlashcardCard) l :
  Forall (fun x => (x < length h)%nat) l ->
  questions (h ++ [c]) l = questions h l.
Proof.
  intros Hall. apply map_ext_in. intros x Hx.
  unfold deref. rewrite lookup_total_app_l; [reflexivity|].
  exact (proj1 (Forall_forall _ _) Hall x (proj2 (list_elem_of_In _ _) Hx)).
Qed.

(** The import keeps the questions of the set different from each other,
    also when it stops with an exception. *)
Lemma import_rows_unique (rows : list (list string)) :
  forall (linenumber questionsimported : Z) w,
    cards_allocated w -> unique_questions w ->
    cards_allocated (snd (import_rows rows linenumber questionsimported w))
    /\ unique_questions (snd (import_rows rows linenumber questionsimported w)).
Proof.
  induction rows as [|row rows IH]; intros n k w Hwf Hu; [auto|].
  destruct (le_lt_dec 2 (length row)) as [Hlen|Hlen].
  2: { rewrite import_rows_short by exact Hlen. apply IH; assumption. }
  destruct row as [|field0 rest]; [cbn in Hlen; lia|].
  destruct (usable_answers rest) as [|a0 answers] eqn:Husable.
  { rewrite import_rows_no_answer; [auto|exact Hlen|].
    destruct rest; [cbn in Hlen; lia|exact Husable]. }
  destruct (import_rows_usable field0 rest rows n k w a0 answers Husable)
    as (card & _ & _ & _ & Heq).
  cbv zeta in Heq. rewrite Heq. clear Heq.
  unfold unique_questions, cards_allocated in *.
  pose proof (addCard_unique (heap w ++ [card]) (the_set w)
                (length (heap w)) false) as Hadd.
  rewrite questions_alloc in Hadd by exact Hwf.
  destruct (Hadd Hu) as [Hnd Hsub].
  assert (Hwf' : Forall (fun x => (x < length (heap w ++ [card]))%nat)
                   (cards (snd (addCard (heap w ++ [card]) (length (heap w))
                                  false (the_set w))))).
  { apply Forall_forall. intros x Hx. rewrite length_app. cbn [length].
    destruct (Hsub x Hx) as [Hin|Heq]; [|lia].
    pose proof (proj1 (Forall_forall _ _) Hwf x Hin) as Hlt.
    cbn beta in Hlt. lia. }
  destruct (fst (addCard _ _ _ _)) as [[|]|e]; apply IH; assumption.
Qed.

Lemma two_cards_questions :
  questions (heap two_cards) (cards (the_set two_cards)) = ["Q1"; "Q2"].
Proof. reflexivity. Qed.

(** C5, at the set with the questions [Q1] and [Q2].  Editing the question
    text of the second card to [Q1] is accepted without any check against
    the other cards: afterwards two cards of the set have the question
    [Q1]. *)
Theorem edit_question_makes_duplicate :
  let edited := _changeQuestionText 1%nat (set_stdin ["Q1"] two_cards) in
  unique_questions two_cards
  /\ fst edited = Return tt
  /\ questions (heap (snd edited)) (cards (the_set (snd edited))) = ["Q1"; "Q1"]
  /\ ~ unique_questions (snd edited).
Proof.
  cbv zeta. split; [|split; [reflexivity|split; [reflexivity|]]].
  - unfold unique_questions. rewrite two_cards_questions.
    apply NoDup_cons. split; [|apply NoDup_singleton].
    rewrite list_elem_of_singleton. discriminate.
  - unfold unique_questions.
    change (questions _ _) with ["Q1"; "Q1"].
    intros Hnd. apply NoDup_cons in Hnd as [Hnotin _]. apply Hnotin. left.
Qed.

End Unique.

(** * Further properties *)

(** ** Statistics of a card *)

Section CardStatistics.

Implicit Types (self : FlashcardCard).

(** The statistics of a card with [0 <= _correct <= _attempts <= 2^46]:
    0 with no attempts, and else the quotients rounded once. *)
Lemma statistics_values self :
  0 <= _correct self <= _attempts self -> _attempts self <= 2 ^ 46 ->
  ranking self
  = Return (if _attempts self =? 0 then 0%Qc
            else Q2Qc (round_double
                         (inject_Z (_correct self * _correct self)
                          / inject_Z (_attempts self))))
  /\ score self
     = Return (Finite
                 (if _attempts self =? 0 then 0%Qc
                  else Q2Qc (round_double
                               (inject_Z (100 * _correct self)
                                / inject_Z (_attempts self))))).
Proof.
  intros Hc Ha.
  destruct (Z.eqb_spec (_attempts self) 0) as [H0|H0].
  - unfold ranking, score. rewrite H0. split; reflexivity.
  - apply statistics_rounded; lia.
Qed.

(** A card with the smaller fraction of right answers has the smaller
    statistics. *)
Lemma statistics_mono self1 self2 :
  0 <= _correct self1 <= _attempts self1 -> _attempts self1 <= 2 ^ 46 ->
  0 <= _correct self2 <= _attempts self2 -> _attempts self2 <= 2 ^ 46 ->
  (_attempts self2 = 0 -> _correct self1 = 0) ->
  _correct self1 * _attempts self2 <= _correct self2 * _attempts self1 ->
  _correct self1 * _correct self1 * _attempts self2
  <= _correct self2 * _correct self2 * _attempts self1 ->
  exists (r1 r2 s1 s2 : Qc),
    ranking self1 = Return r1 /\ ranking self2 = Return r2
    /\ score self1 = Return (Finite s1) /\ score self2 = Return (Finite s2)
    /\ (r1 <= r2)%Qc /\ (s1 <= s2)%Qc.
Proof.
  intros Hc1 Ha1 Hc2 Ha2 Hzero Hs Hr.
  destruct (statistics_values self1 Hc1 Ha1) as [Hr1 Hs1].
  destruct (statistics_values self2 Hc2 Ha2) as [Hr2 Hs2].
  do 4 eexists.
  split; [exact Hr1|]. split; [exact Hr2|].
  split; [exact Hs1|]. split; [exact Hs2|].
  destruct (Z.eqb_spec (_attempts self1) 0) as [H1|H1];
    destruct (Z.eqb_spec (_attempts self2) 0) as [H2|H2].
  - split; apply Qcle_refl.
  - split; apply Q2Qc_le; apply (round_div_ge _ _ 0); lia.
  - rewrite (Hzero H2). split; apply Q2Qc_le; apply (round_div_le _ _ 0); lia.
  - split; apply Q2Qc_le; apply round_div_mono; lia.
Qed.

(** Beyond [2^46] the bounds of X1 and X2 fail, as they do in Python:
    with all of [2^53 + 3] answers correct the ranking is above the number
    of correct answers, and after [2^53] correct answers of [2^53 + 1] one
    more correct answer lowers the score. *)
Example ranking_above_correct :
  ranking (mkCard CLASS_VERSION "2+2?" ["4"] "numeric" None
             (2 ^ 53 + 3) (2 ^ 53 + 3))
  = Return (Qc_of_Z (2 ^ 53 + 4)).
Proof.
  unfold ranking, int_true_div. cbn [_attempts _correct].
  change (2 ^ 53 + 3 =? 0) with false. cbv iota.
  rewrite (to_double_value _ (inject_Z (2 ^ 53 + 4)));
    [|vm_compute; reflexivity|reflexivity].
  rewrite Q2Qc_inject_Z. reflexivity.
Qed.

Example score_falls_on_right_answer :
  let c := mkCard CLASS_VERSION "2+2?" ["4"] "numeric" None
             (2 ^ 53 + 1) (2 ^ 53) in
  score c = Return (Finite (Qc_of_Z 100))
  /\ fst (checkAnswer "4" PyNone c) = Return true
  /\ score (snd (checkAnswer "4" PyNone c))
     = Return (Finite (Q2Qc (3518437208883199 # 35184372088832))).
Proof.
  cbv zeta. split; [|split; [reflexivity|]].
  - unfold score. cbn [_attempts _correct].
    change (2 ^ 53 + 1 =? 0) with false. cbv iota.
    unfold float_of_int.
    rewrite (to_double_value (inject_Z (2 ^ 53)) (inject_Z (2 ^ 53)));
      [|vm_compute; reflexivity|reflexivity].
    rewrite (to_double_value (inject_Z (2 ^ 53 + 1)) (inject_Z (2 ^ 53)));
      [|vm_compute; reflexivity|reflexivity].
    cbv zeta. unfold float_mul.
    rewrite (to_double_value _ (inject_Z (100 * 2 ^ 53)));
      [|vm_compute; reflexivity|reflexivity].
    unfold float_div.
    replace (Qeq_bool (Q2Qc (inject_Z (2 ^ 53))) 0) with false
      by (vm_compute; reflexivity).
    rewrite (to_double_value _ (inject_Z 100));
      [|vm_compute; reflexivity|reflexivity].
    rewrite Q2Qc_inject_Z. reflexivity.
  - rewrite checkAnswer_unfold. cbv zeta. cbn [_valid_answers].
    change (String.eqb "4" "4") with true. cbv iota. cbn [snd].
    unfold score. cbn [_attempts _correct set_correct set_attempts].
    change (2 ^ 53 + 1 + 1 =? 0) with false. cbv iota.
    unfold float_of_int.
    rewrite (to_double_value (inject_Z (2 ^ 53 + 1)) (inject_Z (2 ^ 53)));
      [|vm_compute; reflexivity|reflexivity].
    rewrite (to_double_value (inject_Z (2 ^ 53 + 1 + 1))
               (inject_Z (2 ^ 53 + 2)));
      [|vm_compute; reflexivity|reflexivity].
    cbv zeta. unfold float_mul.
    rewrite (to_double_value _ (inject_Z (100 * 2 ^ 53)));
      [|vm_compute; reflexivity|reflexivity].
    unfold float_div.
    replace (Qeq_bool (Q2Qc (inject_Z (2 ^ 53 + 2))) 0) with false
      by (vm_compute; reflexivity).
    rewrite (to_double_value _ (3518437208883199 # 35184372088832));
      [reflexivity|vm_compute; reflexivity|reflexivity].
Qed.

(** X1. For a card whose counters satisfy
    [0 <= _correct <= _attempts <= 2^46], as they do after up to [2^46]
    answers to a new card, [score()] and [ranking()] return floats, without
    error: the score is a percentage between 0 and 100, and the ranking lies
    between 0 and [_correct]; with every answer so far correct, the score is
    100 and the ranking is the number of attempts. *)
Theorem score_ranking_bounds self :
  0 <= _correct self <= _attempts self -> _attempts self <= 2 ^ 46 ->
  exists (s r : Qc),
    score self = Return (Finite s) /\ ranking self = Return r
    /\ (0 <= s)%Qc /\ (s <= Qc_of_Z 100)%Qc
    /\ (0 <= r)%Qc /\ (r <= Qc_of_Z (_correct self))%Qc
    /\ (_correct self = _attempts self -> _attempts self <> 0 ->
        s = Qc_of_Z 100 /\ r = Qc_of_Z (_attempts self)).
Proof.
  intros Hc Ha.
  destruct (statistics_values self Hc Ha) as [Hr Hs].
  do 2 eexists. split; [exact Hs|]. split; [exact Hr|].
  destruct (Z.eqb_spec (_attempts self) 0) as [H0|H0].
  - assert (Hc0 : _correct self = 0) by lia. rewrite Hc0.
    repeat split; try (intros; contradiction);
      rewrite <- ?Q2Qc_inject_Z; apply Q2Qc_le; vm_compute; discriminate.
  - rewrite <- !Q2Qc_inject_Z.
    split; [apply Q2Qc_le, (round_div_ge _ _ 0); lia|].
    split; [apply Q2Qc_le, round_div_le; lia|].
    split; [apply Q2Qc_le, (round_div_ge _ _ 0); nia|].
    split; [apply Q2Qc_le, round_div_le; nia|].
    intros Heq _. split; apply Q2Qc_eq_iff, Qle_antisym.
    + apply round_div_le; lia.
    + apply round_div_ge; lia.
    + apply round_div_le; nia.
    + apply round_div_ge; nia.
Qed.

Lemma score_ranking_bounds_witness :
  let c := mkCard CLASS_VERSION "2+2?" ["4"] "numeric" None 4 3 in
  exists (s r : Qc),
    score c = Return (Finite s) /\ ranking c = Return r
    /\ (0 <= s)%Qc /\ (s <= Qc_of_Z 100)%Qc
    /\ (0 <= r)%Qc /\ (r <= Qc_of_Z (_correct c))%Qc
    /\ (_correct c = _attempts c -> _attempts c <> 0 ->
        s = Qc_of_Z 100 /\ r = Qc_of_Z (_attempts c)).
Proof.
  apply (score_ranking_bounds
           (mkCard CLASS_VERSION "2+2?" ["4"] "numeric" None 4 3)).
  - cbn. lia.
  - cbn. lia.
Defined.

(** X2. The ranking and the score follow the answers: on a card with
    [0 <= _correct <= _attempts < 2^46], a call of [checkAnswer] that
    returns [True] lowers neither, and a call that does not (it returns
    [False] or raises) raises neither.  So a wrong answer never moves a card
    away from the front of the ranked selection. *)
Theorem checkAnswer_moves_ranking self (answer_text : string)
    (confirmed : pyval) :
  0 <= _correct self <= _attempts self -> _attempts self < 2 ^ 46 ->
  let result := fst (checkAnswer answer_text confirmed self) in
  let self' := snd (checkAnswer answer_text confirmed self) in
  exists (r r' s s' : Qc),
    ranking self = Return r /\ ranking self' = Return r'
    /\ score self = Return (Finite s) /\ score self' = Return (Finite s')
    /\ (result = Return true -> (r <= r')%Qc /\ (s <= s')%Qc)
    /\ (result <> Return true -> (r' <= r)%Qc /\ (s' <= s)%Qc).
Proof.
  intros Hc Ha. cbv zeta.
  set (up := set_correct (_correct self + 1)
               (set_attempts (_attempts self + 1) self)).
  set (down := set_attempts (_attempts self + 1) self).
  assert (Hup : exists (r r' s s' : Qc),
             ranking self = Return r /\ ranking up = Return r'
             /\ score self = Return (Finite s) /\ score up = Return (Finite s')
             /\ (r <= r')%Qc /\ (s <= s')%Qc).
  { apply statistics_mono; unfold up;
      cbn [_correct _attempts set_correct set_attempts]; try lia; nia. }
  assert (Hdown : exists (r' r s' s : Qc),
             ranking down = Return r' /\ ranking self = Return r
             /\ score down = Return (Finite s') /\ score self = Return (Finite s)
             /\ (r' <= r)%Qc /\ (s' <= s)%Qc).
  { apply statistics_mono; unfold down;
      cbn [_correct _attempts set_correct set_attempts]; try lia; nia. }
  destruct Hup as (r & ru & s & su & Hr & Hru & Hs & Hsu & Hrle & Hsle).
  destruct Hdown as (rd & r0 & sd & s0 & Hrd & Hr0 & Hsd & Hs0 & Hrdle & Hsdle).
  assert (r0 = r) as -> by congruence.
  assert (s0 = s) as -> by congruence.
  rewrite checkAnswer_unfold. cbv zeta. fold down. fold up.
  destruct confirmed as [| [|] | |];
    try (destruct (_valid_answers self) as [|a0 rest];
         [|destruct (String.eqb answer_text a0)]);
    cbn [fst snd];
    first [ exists r, ru, s, su;
            split; [exact Hr|]; split; [exact Hru|];
            split; [exact Hs|]; split; [exact Hsu|];
            split; [intros _; split; assumption
                   |intros Hn; exfalso; apply Hn; reflexivity]
          | exists r, rd, s, sd;
            split; [exact Hr|]; split; [exact Hrd|];
            split; [exact Hs|]; split; [exact Hsd|];
            split; [intros Ht; discriminate Ht
                   |intros _; split; assumption] ].
Qed.

Lemma checkAnswer_moves_ranking_witness :
  let c := mkCard CLASS_VERSION "2+2?" ["4"] "numeric" None 4 3 in
  let result := fst (checkAnswer "5" PyNone c) in
  let c' := snd (checkAnswer "5" PyNone c) in
  exists (r r' s s' : Qc),
    ranking c = Return r /\ ranking c' = Return r'
    /\ score c = Return (Finite s) /\ score c' = Return (Finite s')
    /\ (result = Return true -> (r <= r')%Qc /\ (s <= s')%Qc)
    /\ (result <> Return true -> (r' <= r)%Qc /\ (s' <= s)%Qc).
Proof.
  apply (checkAnswer_moves_ranking
           (mkCard CLASS_VERSION "2+2?" ["4"] "numeric" None 4 3) "5" PyNone).
  - cbn. lia.
  - cbn. lia.
Defined.

End CardStatistics.

(** ** Confirmation policy, slices and versions *)

Section SetExtras.

Implicit Types (self : FlashcardSet) (card : FlashcardCard).

Lemma default_confirms_lookup (t : string) :
  t ∈ ANSWER_TYPES ->
  DEFAULT_confirms !! t
  = Some (String.eqb t "numeric" || String.eqb t "word" || String.eqb t "text").
Proof.
  unfold ANSWER_TYPES. rewrite !elem_of_cons, elem_of_nil.
  intros [->|[->|[->|[->|[->|[]]]]]]; vm_compute; reflexivity.
Qed.

(** X3. In a new set (with the default policy) [usesUserConfirm] never
    raises [KeyError] for a card whose answer type is one of [ANSWER_TYPES]:
    the card's override decides when it has one, and otherwise the user
    confirms exactly the types numeric, word and text.  For a card built
    without an answer type that is: exactly when it has a single answer
    other than ["True"] and ["False"]. *)
Theorem usesUserConfirm_default (name : string) card :
  (_answer_type card ∈ ANSWER_TYPES ->
   usesUserConfirm (FlashcardSet_init name) card
   = Return (match _override_confirms card with
             | Some b => b
             | None => String.eqb (_answer_type card) "numeric"
                       || String.eqb (_answer_type card) "word"
                       || String.eqb (_answer_type card) "text"
             end))
  /\ (forall question a0 rest,
        FlashcardCard_init question (a0 :: rest) None None = Return card ->
        _answer_type card ∈ ANSWER_TYPES
        /\ usesUserConfirm (FlashcardSet_init name) card
           = Return (match rest with
                     | [] => negb (String.eqb a0 "True" || String.eqb a0 "False")
                     | _ :: _ => false
                     end)).
Proof.
  assert (Hgen : _answer_type card ∈ ANSWER_TYPES ->
    usesUserConfirm (FlashcardSet_init name) card
    = Return (match _override_confirms card with
              | Some b => b
              | None => String.eqb (_answer_type card) "numeric"
                        || String.eqb (_answer_type card) "word"
                        || String.eqb (_answer_type card) "text"
              end)).
  { intros Hin. unfold usesUserConfirm.
    destruct (_override_confirms card); [reflexivity|].
    cbn [confirms FlashcardSet_init].
    rewrite (default_confirms_lookup _ Hin). reflexivity. }
  split; [exact Hgen|].
  intros question a0 rest Hinit. unfold FlashcardCard_init in Hinit.
  rewrite guessAnswerType_cons in Hinit. injection Hinit as <-.
  cbn [_answer_type _override_confirms] in *.
  assert (Hin : match rest with
                | [] =>
                    if String.eqb a0 "True" || String.eqb a0 "False"
                    then "boolean"
                    else if float_parses a0 then "numeric"
                    else if negb (contains_space a0) then "word" else "text"
                | _ :: _ => "multiple_choice"
                end ∈ ANSWER_TYPES).
  { unfold ANSWER_TYPES.
    destruct rest; [|set_solver].
    destruct (String.eqb a0 "True" || String.eqb a0 "False"); [set_solver|].
    destruct (float_parses a0); [set_solver|].
    destruct (negb (contains_space a0)); set_solver. }
  split; [exact Hin|]. rewrite (Hgen Hin).
  destruct rest; [|reflexivity].
  destruct (String.eqb a0 "True" || String.eqb a0 "False"); [reflexivity|].
  destruct (float_parses a0); [reflexivity|].
  destruct (negb (contains_space a0)); reflexivity.
Qed.

Lemma py_slice_to_length {A : Type} (l : list A) (n : Z) :
  length (py_slice_to l n) = slice_length (length l) n.
Proof.
  unfold py_slice_to, slice_length.
  destruct (n <? 0) eqn:Hn; rewrite length_take; [|reflexivity].
  apply Z.ltb_lt in Hn. lia.
Qed.

Lemma getSortedCards_total (h : list FlashcardCard) self
    (numcards numrandomcards : Z) (r : RandomState) :
  let size := length (cards self) in
  exists l,
    getSortedCards h self numcards numrandomcards r
    = (Return l, advance (size + size) r)
    /\ length l = (slice_length size numcards
                   + slice_length size numrandomcards)%nat
    /\ (forall x, x ∈ l -> x ∈ cards self).
Proof.
  cbv zeta. unfold getSortedCards, bind.
  rewrite (sorted_draws tuple_lt _ (fun k d => (ranking_value (deref h k), d)))
    by reflexivity.
  rewrite (sorted_draws float_lt _ (fun k d => d)) by reflexivity.
  unfold ret. rewrite advance_advance. eexists. split; [reflexivity|].
  set (s1 := map snd (stable_sort tuple_lt _)).
  set (s2 := map snd (stable_sort float_lt _)).
  assert (H1 : s1 ≡ₚ cards self).
  { unfold s1. rewrite (stable_sort_perm tuple_lt).
    change (map snd ?x) with (x.*2). rewrite snd_zip; [reflexivity|].
    rewrite length_zip_with, draw_keys_length. lia. }
  assert (H2 : s2 ≡ₚ cards self).
  { unfold s2. rewrite (stable_sort_perm float_lt).
    change (map snd ?x) with (x.*2). rewrite snd_zip; [reflexivity|].
    rewrite length_zip_with, draw_keys_length. lia. }
  split.
  - rewrite length_app, !py_slice_to_length.
    rewrite (Permutation_length H1), (Permutation_length H2). reflexivity.
  - intros x Hx. apply elem_of_app in Hx as [Hx|Hx].
    + rewrite <- H1. unfold py_slice_to in Hx.
      destruct (numcards <? 0); exact (subseteq_take _ _ _ Hx).
    + rewrite <- H2. unfold py_slice_to in Hx.
      destruct (numrandomcards <? 0); exact (subseteq_take _ _ _ Hx).
Qed.




Lemma list_lt_total (a b : list Z) :
  list_lt a b = false -> list_lt b a = false -> a = b.
Proof.
  revert b. induction a as [|x a IH]; intros [|y b]; cbn;
    try reflexivity; try discriminate.
  destruct (Z.eqb_spec x y) as [->|Hne].
  - rewrite Z.eqb_refl. intros Hab Hba. f_equal. apply IH; assumption.
  - destruct (Z.eqb_spec y x) as [->|_]; [contradiction|].
    intros Hxy Hyx. apply Z.ltb_ge in Hxy, Hyx. lia.
Qed.

(** X5. Unpickling a card or a set: whatever version the state was stored
    with, an object that loads carries exactly the version of the class
    ([1, 1]) and its other attributes as stored.  A state without a version,
    or with an older one, loads; a state with a newer version is refused
    with [TOO_NEW], and one whose version is not a list with [BAD_TYPE]. *)
Theorem setstate_versions (stored : option stored_version)
    (card : FlashcardCard) (set : FlashcardSet) :
  match setstate_version stored with
  | inr v =>
      v = CLASS_VERSION
      /\ (stored = None
          \/ exists v0, stored = Some (VersionList v0)
                        /\ list_lt CLASS_VERSION v0 = false)
      /\ FlashcardCard_setstate stored card
         = inr (mkCard CLASS_VERSION (_question card) (_valid_answers card)
                  (_answer_type card) (_override_confirms card)
                  (_attempts card) (_correct card))
      /\ FlashcardSet_setstate stored set
         = inr (mkSet CLASS_VERSION (setname set) (confirms set) (cards set))
  | inl e =>
      FlashcardCard_setstate stored card = inl e
      /\ FlashcardSet_setstate stored set = inl e
      /\ ((exists v0, stored = Some (VersionList v0)
                      /\ list_lt CLASS_VERSION v0 = true
                      /\ e = TOO_NEW v0 CLASS_VERSION)
          \/ (exists o, stored = Some (VersionOther o)
                        /\ e = BAD_TYPE (VersionOther o)))
  end.
Proof.
  unfold FlashcardCard_setstate, FlashcardSet_setstate.
  destruct stored as [[v0|o]|]; cbn [setstate_version].
  - destruct (list_lt CLASS_VERSION v0) eqn:Hnew.
    + split; [reflexivity|]. split; [reflexivity|]. left. eauto.
    + destruct (list_lt v0 [1; 1]) eqn:Hold.
      * split; [reflexivity|]. split; [right; eauto|]. split; reflexivity.
      * assert (v0 = CLASS_VERSION) as ->
          by (symmetry; apply list_lt_total; assumption).
        split; [reflexivity|]. split; [right; eauto|]. split; reflexivity.
  - split; [reflexivity|]. split; [reflexivity|]. right. eauto.
  - change (list_lt CLASS_VERSION [0]) with false.
    change (list_lt [0] [1; 1]) with true. cbn iota.
    split; [reflexivity|]. split; [left; reflexivity|]. split; reflexivity.
Qed.

End SetExtras.

(** ** More on the console menu *)

Section ConsoleExtras.

Implicit Types (w : World) (self : ConsoleMenu) (d : list (string * string)).

Lemma dict_get_set_same (k v : string) d : dict_get k (dict_set k v d) = Some v.
Proof.
  induction d as [|[k' v'] d IH]; cbn.
  - rewrite String.eqb_refl. reflexivity.
  - destruct (String.eqb k' k) eqn:Hk; cbn.
    + rewrite String.eqb_refl. reflexivity.
    + rewrite Hk. exact IH.
Qed.

Lemma dict_get_set_other (k k' v : string) d :
  k <> k' -> dict_get k' (dict_set k v d) = dict_get k' d.
Proof.
  intros Hne. induction d as [|[k0 v0] d IH]; cbn.
  - destruct (String.eqb_spec k k'); [contradiction|reflexivity].
  - destruct (String.eqb_spec k0 k) as [->|Hk0]; cbn.
    + destruct (String.eqb_spec k k'); [contradiction|reflexivity].
    + destruct (String.eqb k0 k'); [reflexivity|exact IH].
Qed.

Lemma dict_set_nonempty (k v : string) d : dict_set k v d <> [].
Proof. destruct d as [|[k' v'] d]; cbn; [|destruct (String.eqb k' k)]; discriminate. Qed.

Lemma ConsoleMenu_init_entry_manual (choices : list (pyval * string))
    (options : MenuOptions) :
  manual options = true ->
  dict_get (manual_key options) (_choices (ConsoleMenu_init choices options))
  = Some (if abstain options
             && String.eqb (abstain_key options) (manual_key options)
          then abstain_value options else manual_value options).
Proof.
  intros Hman. unfold ConsoleMenu_init. cbn [_choices]. rewrite Hman.
  set (c1 := dict_set (manual_key options) (manual_value options) _).
  set (c2 := if abstain options then _ else c1).
  assert (Hne : c2 <> []).
  { unfold c2. destruct (abstain options); apply dict_set_nonempty. }
  replace (if (length c2 =? 0)%nat then _ else c2) with c2
    by (destruct c2; [contradiction|reflexivity]).
  unfold c2, c1. destruct (abstain options); cbn [andb];
    [|apply dict_get_set_same].
  destruct (String.eqb_spec (abstain_key options) (manual_key options))
    as [Heq|Hneq].
  - rewrite Heq. apply dict_get_set_same.
  - rewrite dict_get_set_other by exact Hneq. apply dict_get_set_same.
Qed.

(** X6. The menu a [ConsoleMenu] is constructed with is never empty (a
    default choice is put in when there is nothing else); with [abstain] on,
    its abstain key stands for the abstain value, whatever choice was passed
    under that key; with [manual] on, the manual key stands for the manual
    value unless the abstain key is the same; and every other key has the
    value the passed choices give it. *)
Theorem ConsoleMenu_init_choices (choices : list (pyval * string))
    (options : MenuOptions) :
  let self := ConsoleMenu_init choices options in
  let passed := fold_left (fun d kv => dict_set (py_str (fst kv)) (snd kv) d)
                  choices [] in
  _choices self <> []
  /\ _options self = options
  /\ (abstain options = true ->
      dict_get (abstain_key options) (_choices self)
      = Some (abstain_value options))
  /\ (manual options = true ->
      dict_get (manual_key options) (_choices self)
      = Some (if abstain options
                 && String.eqb (abstain_key options) (manual_key options)
              then abstain_value options else manual_value options))
  /\ (forall k,
        (manual options = true -> k <> manual_key options) ->
        (abstain options = true -> k <> abstain_key options) ->
        passed <> [] ->
        dict_get k (_choices self) = dict_get k passed)
  /\ (manual options = false -> abstain options = false -> passed = [] ->
      _choices self = [(DEFAULT_CHOICE_KEY, DEFAULT_CHOICE_VALUE)]).
Proof.
  cbv zeta. unfold ConsoleMenu_init. cbn [_choices _options].
  set (c0 := fold_left _ choices []).
  set (c1 := if manual options then _ else c0).
  set (c2 := if abstain options then _ else c1).
  assert (Hc3 : c2 <> [] ->
                (if (length c2 =? 0)%nat
                 then dict_set DEFAULT_CHOICE_KEY DEFAULT_CHOICE_VALUE c2
                 else c2) = c2).
  { intros Hne. destruct c2; [contradiction|reflexivity]. }
  split.
  { destruct c2 eqn:Hc2; [cbn; discriminate|cbn; discriminate]. }
  split; [reflexivity|]. split; [|split; [|split]].
  - intros Hab. assert (Hne : c2 <> []).
    { unfold c2. rewrite Hab. apply dict_set_nonempty. }
    rewrite (Hc3 Hne). unfold c2. rewrite Hab. apply dict_get_set_same.
  - apply ConsoleMenu_init_entry_manual.
  - intros k Hman Hab Hpassed.
    assert (Hne : c2 <> []).
    { unfold c2, c1.
      destruct (abstain options); [apply dict_set_nonempty|].
      destruct (manual options); [apply dict_set_nonempty|exact Hpassed]. }
    rewrite (Hc3 Hne). unfold c2, c1.
    destruct (abstain options).
    + rewrite dict_get_set_other by (intros Heq; apply Hab; auto).
      destruct (manual options); [|reflexivity].
      apply dict_get_set_other. intros Heq. apply Hman; auto.
    + destruct (manual options); [|reflexivity].
      apply dict_get_set_other. intros Heq. apply Hman; auto.
  - intros Hman Hab Hpassed. unfold c2, c1. rewrite Hman, Hab.
    fold c0 in Hpassed. rewrite Hpassed. reflexivity.
Qed.

(** The outcome of the loop, for enough fuel. *)
Lemma gather_rounds_result (fuel : nat) self :
  forall w,
    (length (stdin w) < fuel)%nat ->
    match fst (gather_rounds fuel self w) with
    | Return (Some (k, v)) =>
        dict_get k (_choices self) <> None
        /\ if manual (_options self)
              && String.eqb k (manual_key (_options self))
           then True
           else dict_get k (_choices self) = Some v
                /\ abstain (_options self)
                   && String.eqb k (abstain_key (_options self)) = false
    | Return None =>
        abstain (_options self) = true
        /\ dict_get (abstain_key (_options self)) (_choices self) <> None
        /\ manual (_options self)
           && String.eqb (abstain_key (_options self))
                (manual_key (_options self)) = false
    | Raise e =>
        e = EOFError /\ stdin (snd (gather_rounds fuel self w)) = []
    end.
Proof.
  induction fuel as [|fuel IH]; intros w Hfuel; [lia|].
  rewrite gather_rounds_S. cbv zeta.
  destruct (stdin w) as [|textchoice rest] eqn:Hin; [split; [reflexivity|exact Hin]|].
  destruct (dict_get textchoice (_choices self)) as [value|] eqn:Hget.
  - destruct (manual (_options self)
              && String.eqb textchoice (manual_key (_options self))) eqn:Hman.
    + unfold bind. rewrite input_run. cbn [stdin set_stdin set_stdout].
      destruct rest as [|manualtext rest']; unfold ret; cbn [fst snd].
      * split; reflexivity.
      * rewrite Hget, Hman. split; [discriminate|exact I].
    + destruct (abstain (_options self)
                && String.eqb textchoice (abstain_key (_options self)))
        eqn:Habs; cbn [fst].
      * apply andb_true_iff in Habs as [Hab Hk].
        apply String.eqb_eq in Hk. subst textchoice.
        rewrite Hget. repeat split; [exact Hab|discriminate|exact Hman].
      * rewrite Hget, Hman. repeat split; [discriminate|exact Habs].
  - apply IH. cbn [stdin set_stdin set_stdout].
    cbn [length] in Hfuel. lia.
Qed.

(** The lines a menu has read when it returns: lines that are no keys, then
    the key it returns (the abstain key, when it returns [None]) and, after
    the manual key, the line that is returned with it. *)
Lemma gather_rounds_typed (fuel : nat) self :
  forall w,
    (length (stdin w) < fuel)%nat ->
    match fst (gather_rounds fuel self w) with
    | Return r =>
        exists invalid,
          Forall (fun line => dict_get line (_choices self) = None) invalid
          /\ stdin w
             = invalid
               ++ match r with
                  | Some (k, v) =>
                      if manual (_options self)
                         && String.eqb k (manual_key (_options self))
                      then k :: v :: stdin (snd (gather_rounds fuel self w))
                      else k :: stdin (snd (gather_rounds fuel self w))
                  | None =>
                      abstain_key (_options self)
                      :: stdin (snd (gather_rounds fuel self w))
                  end
    | Raise _ => True
    end.
Proof.
  induction fuel as [|fuel IH]; intros w Hfuel; [lia|].
  rewrite gather_rounds_S. cbv zeta.
  destruct (stdin w) as [|textchoice rest] eqn:Hin; [exact I|].
  destruct (dict_get textchoice (_choices self)) as [value|] eqn:Hget.
  - destruct (manual (_options self)
              && String.eqb textchoice (manual_key (_options self))) eqn:Hman.
    + unfold bind. rewrite input_run. cbn [stdin set_stdin set_stdout].
      destruct rest as [|manualtext rest']; unfold ret; cbn [fst snd];
        [exact I|].
      exists []. split; [constructor|]. rewrite Hman. reflexivity.
    + destruct (abstain (_options self)
                && String.eqb textchoice (abstain_key (_options self)))
        eqn:Habs; cbn [fst snd].
      * apply andb_true_iff in Habs as [_ Hk].
        apply String.eqb_eq in Hk. subst textchoice.
        exists []. split; [constructor|]. reflexivity.
      * exists []. split; [constructor|]. rewrite Hman. reflexivity.
  - match goal with
    | |- context [gather_rounds fuel self ?w2] =>
        specialize (IH w2); cbn [stdin set_stdin set_stdout] in IH;
        destruct (gather_rounds fuel self w2) as [[r|e] w3]
    end; cbn [fst snd] in *; [|exact I].
    destruct IH as (invalid & Hinv & Hrest);
      [cbn [length] in Hfuel; lia|].
    exists (textchoice :: invalid). split; [constructor; assumption|].
    rewrite Hrest. reflexivity.
Qed.

(** X7. [gatherUserChoice] only returns what the menu offers, and for the
    line the user typed last.  It has read lines that are no keys of the
    menu and then a key.  A returned pair has that key and the value the
    menu holds for it; for the manual key of a menu with [manual] on the
    pair has instead the line typed next.  [None] is returned only by a
    menu with [abstain] on, for its abstain key.  The only exception it can
    end with is [EOFError], raised when the input has been read to its end:
    as long as lines come, invalid ones are asked again. *)
Theorem gatherUserChoice_offers self w :
  let w' := snd (gatherUserChoice self w) in
  match fst (gatherUserChoice self w) with
  | Return (Some (k, v)) =>
      dict_get k (_choices self) <> None
      /\ exists invalid,
           Forall (fun line => dict_get line (_choices self) = None) invalid
           /\ if manual (_options self)
                 && String.eqb k (manual_key (_options self))
              then stdin w = invalid ++ k :: v :: stdin w'
              else stdin w = invalid ++ k :: stdin w'
                   /\ dict_get k (_choices self) = Some v
                   /\ abstain (_options self)
                      && String.eqb k (abstain_key (_options self)) = false
  | Return None =>
      abstain (_options self) = true
      /\ dict_get (abstain_key (_options self)) (_choices self) <> None
      /\ manual (_options self)
         && String.eqb (abstain_key (_options self))
              (manual_key (_options self)) = false
      /\ exists invalid,
           Forall (fun line => dict_get line (_choices self) = None) invalid
           /\ stdin w = invalid ++ abstain_key (_options self) :: stdin w'
  | Raise e => e = EOFError /\ stdin w' = []
  end.
Proof.
  cbv zeta. unfold gatherUserChoice, bind, gets.
  pose proof (gather_rounds_result (S (length (stdin w))) self w
                ltac:(lia)) as Hres.
  pose proof (gather_rounds_typed (S (length (stdin w))) self w
                ltac:(lia)) as Htyped.
  destruct (gather_rounds (S (length (stdin w))) self w) as [[[[k v]|]|e] w'];
    cbn [fst snd] in *.
  - destruct Hres as [Hkey Hval]. split; [exact Hkey|].
    destruct Htyped as (invalid & Hinv & Hin). exists invalid.
    split; [exact Hinv|].
    destruct (manual (_options self)
              && String.eqb k (manual_key (_options self)));
      [exact Hin|].
    destruct Hval as [Hv Habs]. repeat split; assumption.
  - destruct Hres as (Hab & Hkey & Hman).
    split; [exact Hab|]. split; [exact Hkey|]. split; [exact Hman|].
    exact Htyped.
  - exact Hres.
Qed.


(** X8. A line that is no key of the menu is answered with the error text
    and the menu is shown again: the call goes on as a new call would on the
    rest of the input. *)
Theorem gatherUserChoice_invalid_entry self (h : list FlashcardCard)
    (s : FlashcardSet) (line : string) (rest out : list string)
    (r : RandomState) :
  dict_get line (_choices self) = None ->
  gatherUserChoice self (mkWorld h s (line :: rest) out r)
  = gatherUserChoice self
      (mkWorld h s rest
         (out ++ round_lines self ++ [invalid_entry_error (_options self)]) r).
Proof.
  intros Hget. unfold gatherUserChoice, bind, gets. cbn [stdin length].
  rewrite gather_rounds_S. cbv zeta. cbn [stdin]. rewrite Hget.
  cbn [set_stdin set_stdout stdout heap the_set stdin rng].
  rewrite <- app_assoc. reflexivity.
Qed.

Lemma gatherUserChoice_invalid_entry_witness :
  let self := ConsoleMenu_init [(PyStr "1", "True"); (PyStr "2", "False")]
                (abstain_options "q" "Return to menu") in
  gatherUserChoice self
    (mkWorld [] (FlashcardSet_init "deck") ["3"; "2"] [] (draws_from 0 []))
  = gatherUserChoice self
      (mkWorld [] (FlashcardSet_init "deck") ["2"]
         ([] ++ round_lines self ++ [invalid_entry_error (_options self)])
         (draws_from 0 [])).
Proof.
  apply (gatherUserChoice_invalid_entry
           (ConsoleMenu_init [(PyStr "1", "True"); (PyStr "2", "False")]
              (abstain_options "q" "Return to menu"))).
  reflexivity.
Defined.

(** X9. With [manual] on, typing the manual key and then a line returns the
    manual key with that line as it was typed -- also when the line is empty
    or is itself a key, and also when the abstain key is the same key. *)
Theorem static_quickChoice_manual (choices : list (pyval * string))
    (options : MenuOptions) (h : list FlashcardCard) (s : FlashcardSet)
    (text : string) (rest out : list string) (r : RandomState) :
  manual options = true ->
  static_quickChoice choices options
    (mkWorld h s (manual_key options :: text :: rest) out r)
  = (Return (Some (manual_key options, text)),
     mkWorld h s rest
       (out ++ round_lines (ConsoleMenu_init choices options)
        ++ [manual_prompt options]) r).
Proof.
  intros Hman. unfold static_quickChoice, gatherUserChoice, bind, gets.
  cbn [stdin length]. rewrite gather_rounds_S. cbv zeta. cbn [stdin].
  set (self := ConsoleMenu_init choices options).
  assert (Hkey : exists v, dict_get (manual_key options) (_choices self) = Some v).
  { pose proof (ConsoleMenu_init_entry_manual choices options Hman) as Hv.
    eexists. exact Hv. }
  destruct Hkey as (v & ->).
  change (_options self) with options. rewrite Hman, String.eqb_refl.
  cbn [andb]. unfold bind. rewrite input_run.
  cbn [set_stdin set_stdout stdout heap the_set stdin rng].
  unfold ret. rewrite <- app_assoc. reflexivity.
Qed.

Lemma static_quickChoice_manual_witness :
  let options := EditCardsMain_options in
  let choices := [(PyInt 1, "2 + 2")] in
  static_quickChoice choices options
    (mkWorld [] (FlashcardSet_init "deck")
       (manual_key options :: "q" :: ["x"]) [] (draws_from 0 []))
  = (Return (Some (manual_key options, "q")),
     mkWorld [] (FlashcardSet_init "deck") ["x"]
       ([] ++ round_lines (ConsoleMenu_init choices options)
        ++ [manual_prompt options]) (draws_from 0 [])).
Proof.
  apply (static_quickChoice_manual [(PyInt 1, "2 + 2")] EditCardsMain_options).
  reflexivity.
Defined.

End ConsoleExtras.

(** ** Import and export *)

Section ImportExport.

Implicit Types (w : World) (h : list FlashcardCard) (rows : list (list string)).

Lemma addCard_false_unfold h (newcard : loc) (self : FlashcardSet) :
  addCard h newcard false self
  = if py_in h newcard (cards self) then (Return false, self)
    else (Return true, set_cards (cards self ++ [newcard]) self).
Proof.
  unfold addCard, bind, gets, modify, ret.
  destruct (py_in h newcard (cards self)); reflexivity.
Qed.

(** What the loop of the import leaves behind, whether it ends or raises. *)
Lemma import_rows_appends rows :
  forall (linenumber questionsimported : Z) w,
    let res := import_rows rows linenumber questionsimported w in
    exists (added : list loc) (objects : list FlashcardCard),
      cards (the_set (snd res)) = cards (the_set w) ++ added
      /\ heap (snd res) = heap w ++ objects
      /\ setname (the_set (snd res)) = setname (the_set w)
      /\ confirms (the_set (snd res)) = confirms (the_set w)
      /\ stdin (snd res) = stdin w
      /\ (forall k, fst res = Return k ->
                    k = questionsimported + Z.of_nat (length added)).
Proof.
  induction rows as [|row rows IH]; intros n k w; cbv zeta.
  { exists [], []. cbn. rewrite !app_nil_r. repeat split.
    intros k' [= <-]. lia. }
  destruct (le_lt_dec 2 (length row)) as [Hlen|Hlen].
  2: { rewrite import_rows_short by exact Hlen.
       destruct (IH (n + 1) k (set_stdout
                   (stdout w ++
                    ["Error on line " +:+ pretty (n + 1)
                     +:+ ": Not enough fields. Need at "
                     +:+ "least 2 (question and correct answer)."]) w))
         as (added & objects & H). exists added, objects. exact H. }
  destruct row as [|field0 rest]; [cbn in Hlen; lia|].
  destruct (usable_answers rest) as [|a0 answers] eqn:Husable.
  { rewrite import_rows_no_answer; [|exact Hlen|].
    - exists [], []. cbn. rewrite !app_nil_r. repeat split. discriminate.
    - destruct rest; [cbn in Hlen; lia|exact Husable]. }
  destruct (import_rows_usable field0 rest rows n k w a0 answers Husable)
    as (card & _ & _ & _ & Heq).
  cbv zeta in Heq. rewrite Heq. clear Heq.
  pose proof (addCard_false_unfold (heap w ++ [card]) (length (heap w))
                (the_set w)) as Hadd.
  cbn [heap set_heap] in *.
  destruct (py_in (heap w ++ [card]) (length (heap w)) (cards (the_set w)));
    rewrite Hadd; cbn [fst snd].
  - match goal with
    | |- context [import_rows rows ?n0 ?k0 ?w0] =>
        destruct (IH n0 k0 w0) as (added & objects & Hc & Hh & Hn & Hp & Hi & Hk)
    end.
    exists added, (card :: objects). cbn in Hc, Hh, Hn, Hp, Hi.
    rewrite Hc, Hh, Hn, Hp, Hi, <- app_assoc. repeat split. exact Hk.
  - match goal with
    | |- context [import_rows rows ?n0 ?k0 ?w0] =>
        destruct (IH n0 k0 w0) as (added & objects & Hc & Hh & Hn & Hp & Hi & Hk)
    end.
    exists (length (heap w) :: added), (card :: objects).
    cbn in Hc, Hh, Hn, Hp, Hi.
    rewrite Hc, Hh, Hn, Hp, Hi, <- !app_assoc. repeat split.
    intros k' Hret. rewrite (Hk k' Hret). cbn [length]. lia.
Qed.

(** X10. The import appends and never replaces: the cards the set had stay
    where they were, their objects untouched, and new cards follow them; name
    and policy of the set do not change.  When the import ends without an
    exception, the number it reports is the number of cards it added. *)
Theorem import_appends rows w :
  let res := FCStateImportCSV_read rows w in
  exists (added : list loc) (objects : list FlashcardCard),
    cards (the_set (snd res)) = cards (the_set w) ++ added
    /\ heap (snd res) = heap w ++ objects
    /\ setname (the_set (snd res)) = setname (the_set w)
    /\ confirms (the_set (snd res)) = confirms (the_set w)
    /\ (forall nxt, fst res = Return nxt ->
          nxt = Next FCStateMainMenu
          /\ last (stdout (snd res))
             = Some (pretty (Z.of_nat (length added))
                     +:+ " questions successfully imported")).
Proof.
  cbv zeta. unfold FCStateImportCSV_read, bind.
  destruct (import_rows_appends rows 0 0 w)
    as (added & objects & Hc & Hh & Hn & Hp & _ & Hk).
  exists added, objects.
  destruct (import_rows rows 0 0 w) as [[k|e] w1]; cbn [fst snd] in *.
  - rewrite print_run. unfold ret. cbn [fst snd stdout set_stdout the_set heap].
    rewrite (Hk k eq_refl), Z.add_0_l.
    split; [exact Hc|]. split; [exact Hh|]. split; [exact Hn|].
    split; [exact Hp|]. intros nxt [= <-]. split; [reflexivity|].
    apply last_snoc.
  - split; [exact Hc|]. split; [exact Hh|]. split; [exact Hn|].
    split; [exact Hp|]. discriminate.
Qed.

(** X11. The import keeps the questions of the set different from each
    other, whatever the rows are and also when it is cut short by an
    exception: a row whose question is in the set already adds nothing. *)
Theorem import_keeps_unique_questions rows w :
  cards_allocated w -> unique_questions w ->
  unique_questions (snd (FCStateImportCSV_read rows w))
  /\ cards_allocated (snd (FCStateImportCSV_read rows w)).
Proof.
  intros Hwf Hu. unfold FCStateImportCSV_read, bind.
  destruct (import_rows_unique rows 0 0 w Hwf Hu) as [Hwf' Hu'].
  destruct (import_rows rows 0 0 w) as [[k|e] w1]; cbn [snd] in *; auto.
Qed.

Lemma import_keeps_unique_questions_witness :
  unique_questions
    (snd (FCStateImportCSV_read [csv_row "Q1~5"; csv_row "Q3~a~b"] two_cards))
  /\ cards_allocated
       (snd (FCStateImportCSV_read [csv_row "Q1~5"; csv_row "Q3~a~b"] two_cards)).
Proof.
  apply (import_keeps_unique_questions [csv_row "Q1~5"; csv_row "Q3~a~b"]
           two_cards).
  - unfold cards_allocated. cbn. repeat constructor.
  - unfold unique_questions. rewrite two_cards_questions.
    apply NoDup_cons. split; [|apply NoDup_singleton].
    rewrite list_elem_of_singleton. discriminate.
Defined.

(** X12. [addCard] keeps the questions of the set different from each other,
    with or without replacement; and it puts no card into the set but the
    new one. *)
Theorem addCard_keeps_unique_questions h (self : FlashcardSet)
    (newcard : loc) (replaceduplicate : bool) :
  NoDup (questions h (cards self)) ->
  NoDup (questions h (cards (snd (addCard h newcard replaceduplicate self))))
  /\ (forall x, x ∈ cards (snd (addCard h newcard replaceduplicate self)) ->
      x ∈ cards self \/ x = newcard).
Proof. apply addCard_unique. Qed.

Lemma addCard_keeps_unique_questions_witness :
  let h := heap two_cards in
  let self := the_set two_cards in
  NoDup (questions h (cards (snd (addCard h 1%nat true self))))
  /\ (forall x, x ∈ cards (snd (addCard h 1%nat true self)) ->
      x ∈ cards self \/ x = 1%nat).
Proof.
  apply (addCard_keeps_unique_questions (heap two_cards) (the_set two_cards)
           1%nat true).
  rewrite two_cards_questions.
  apply NoDup_cons. split; [|apply NoDup_singleton].
  rewrite list_elem_of_singleton. discriminate.
Defined.

Lemma export_rows_spec h (l : list loc) (n : Z) :
  export_rows h l n
  = (records (map (fun x => fst (card_data h x) :: snd (card_data h x)) l),
     n + Z.of_nat (length l)).
Proof.
  revert n. induction l as [|x l IH]; intros n; cbn [export_rows map length].
  - f_equal. lia.
  - rewrite IH. cbn. f_equal. lia.
Qed.

(** *** A file of plain fields, written and read *)

Lemma append_cons (c : ascii) (s t : string) :
  String c s +:+ t = String c (s +:+ t).
Proof. reflexivity. Qed.

Lemma append_nil_l (t : string) : EmptyString +:+ t = t.
Proof. reflexivity. Qed.

Lemma append_nil_r (s : string) : s +:+ EmptyString = s.
Proof.
  induction s as [|c s IH]; [reflexivity|]. rewrite append_cons. f_equal.
  exact IH.
Qed.

Lemma append_assoc (a b c : string) : (a +:+ b) +:+ c = a +:+ (b +:+ c).
Proof.
  induction a as [|x a IH]; [reflexivity|]. rewrite !append_cons. f_equal.
  exact IH.
Qed.

Lemma csv_special_false (c : ascii) :
  csv_special c = false ->
  Ascii.eqb c delimiter = false /\ Ascii.eqb c quotechar = false
  /\ Ascii.eqb c CR = false /\ Ascii.eqb c LF = false.
Proof.
  unfold csv_special. intros H.
  apply orb_false_iff in H as [H H4]. apply orb_false_iff in H as [H H3].
  apply orb_false_iff in H as [H1 H2]. auto.
Qed.

Lemma writerow_plain (row : list string) :
  Forall csv_plain row -> join_fields row <> EmptyString ->
  writerow row = join_fields row +:+ lineterminator.
Proof.
  intros Hplain. unfold writerow.
  assert (Hmap : map csv_field row = row).
  { induction Hplain as [|f row [Hf _] _ IH]; [reflexivity|].
    cbn [map]. rewrite IH. unfold csv_field. rewrite Hf. reflexivity. }
  rewrite Hmap. cbv zeta. intros Hne.
  destruct row as [|f row]; [reflexivity|].
  destruct (join_fields (f :: row)); [contradiction|reflexivity].
Qed.

Lemma split_fields_cons (s : string) :
  split_fields s = hd EmptyString (split_fields s) :: tl (split_fields s).
Proof.
  destruct s as [|c s]; [reflexivity|]. cbn [split_fields].
  destruct (Ascii.eqb c "~"); [reflexivity|].
  destruct (split_fields s); reflexivity.
Qed.

Lemma split_fields_plain (f rest : string) :
  contains_special f = false ->
  split_fields (f +:+ String delimiter rest) = f :: split_fields rest
  /\ split_fields f = [f].
Proof.
  induction f as [|c f IH]; intros Hf; [split; reflexivity|].
  cbn [contains_special] in Hf. apply orb_false_iff in Hf as [Hc Hf].
  destruct (csv_special_false c Hc) as (Hd & _).
  destruct (IH Hf) as [IH1 IH2].
  rewrite ?append_cons, ?append_nil_l; cbn [split_fields]. unfold delimiter in Hd. rewrite Hd, IH1, IH2.
  split; reflexivity.
Qed.

Lemma split_join (row : list string) :
  Forall csv_plain row -> row <> [] ->
  split_fields (join_fields row) = row.
Proof.
  induction 1 as [|f row [Hf _] Hrow IH]; intros Hne; [contradiction|].
  destruct row as [|g row].
  - cbn [join_fields]. apply split_fields_plain, Hf. exact EmptyString.
  - change (join_fields (f :: g :: row))
      with (f +:+ String delimiter (join_fields (g :: row))).
    rewrite (proj1 (split_fields_plain f _ Hf)), IH; [reflexivity|discriminate].
Qed.

Lemma plain_line_app (a b : string) :
  plain_line (a +:+ b) = plain_line a && plain_line b.
Proof.
  induction a as [|c a IH]; [reflexivity|].
  rewrite append_cons. cbn [plain_line]. rewrite IH, andb_assoc. reflexivity.
Qed.

Lemma plain_field (f : string) : contains_special f = false -> plain_line f = true.
Proof.
  induction f as [|c f IH]; [reflexivity|]. cbn [contains_special plain_line].
  intros [Hc Hf]%orb_false_iff.
  destruct (csv_special_false c Hc) as (_ & Hq & Hcr & Hlf).
  unfold is_newline. rewrite Hq, Hcr, Hlf, (IH Hf). reflexivity.
Qed.

Lemma plain_join (row : list string) :
  Forall csv_plain row -> plain_line (join_fields row) = true.
Proof.
  induction 1 as [|f row [Hf _] Hrow IH]; [reflexivity|].
  destruct row as [|g row]; [apply plain_field, Hf|].
  change (join_fields (f :: g :: row))
    with (f +:+ String delimiter (join_fields (g :: row))).
  rewrite plain_line_app, (plain_field f Hf). cbn [plain_line].
  rewrite IH. reflexivity.
Qed.

Lemma universal_newlines_line (line rest : string) :
  plain_line line = true ->
  universal_newlines (line +:+ lineterminator +:+ rest)
  = line +:+ String LF (universal_newlines rest).
Proof.
  induction line as [|c line IH]; intros Hline; [reflexivity|].
  cbn [plain_line] in Hline.
  apply andb_true_iff in Hline as [Hc Hline].
  apply andb_true_iff in Hc as [_ Hnl].
  unfold is_newline in Hnl. apply negb_true_iff, orb_false_iff in Hnl as [_ Hcr].
  rewrite ?append_cons, ?append_nil_l; cbn [universal_newlines]. rewrite Hcr, (IH Hline). reflexivity.
Qed.

Lemma file_lines_line (line rest : string) :
  plain_line line = true ->
  file_lines (line +:+ String LF rest)
  = (line +:+ String LF EmptyString) :: file_lines rest.
Proof.
  induction line as [|c line IH]; intros Hline; [reflexivity|].
  cbn [plain_line] in Hline.
  apply andb_true_iff in Hline as [Hc Hline].
  apply andb_true_iff in Hc as [_ Hnl].
  unfold is_newline in Hnl. apply negb_true_iff, orb_false_iff in Hnl as [Hlf _].
  rewrite ?append_cons, ?append_nil_l; cbn [file_lines]. rewrite Hlf, (IH Hline). reflexivity.
Qed.

(** The parser on a plain line: at the start of a field and inside one it
    splits the line at the delimiters. *)
Lemma parse_line_plain (line : string) :
  forall (st : ParserState) (fs : list string) (buf : string),
    st = START_FIELD \/ st = IN_FIELD ->
    plain_line line = true ->
    Forall (fun f => Z.of_nat (length (chars f)) <= field_limit)
      ((buf +:+ hd EmptyString (split_fields line))
       :: tl (split_fields line)) ->
    parse_line (mkReader st fs buf) (line +:+ String LF EmptyString)
    = Return (mkReader START_RECORD
                (fs ++ (buf +:+ hd EmptyString (split_fields line))
                       :: tl (split_fields line))
                EmptyString).
Proof.
  assert (Hsave : forall st fs buf next,
             Z.of_nat (length (chars buf)) <= field_limit ->
             parse_save_field (mkReader st fs buf) next
             = Return (mkReader next (fs ++ [buf]) EmptyString)).
  { intros st fs buf next Hlim. unfold parse_save_field. cbn [field fields].
    destruct (Z.ltb_spec field_limit (Z.of_nat (length (chars buf))));
      [lia|reflexivity]. }
  induction line as [|c line IH]; intros st fs buf Hst Hline Hlim.
  - cbn [split_fields hd tl] in *. rewrite append_nil_r in *.
    inversion Hlim as [|? ? Hbuf _]; subst.
    rewrite ?append_cons, ?append_nil_l; cbn [parse_line].
    assert (Hfirst : parse_process_char (mkReader st fs buf) (Some LF)
                     = Return (mkReader EAT_CRNL (fs ++ [buf]) EmptyString)).
    { destruct Hst as [-> | ->]; unfold parse_process_char;
        cbn [state]; change (is_newline LF) with true; cbv iota;
        apply Hsave, Hbuf. }
    rewrite Hfirst. reflexivity.
  - cbn [plain_line] in Hline.
    apply andb_true_iff in Hline as [Hc Hline].
    apply andb_true_iff in Hc as [Hq Hnl].
    apply negb_true_iff in Hq, Hnl.
    rewrite ?append_cons, ?append_nil_l; cbn [parse_line].
    destruct (Ascii.eqb c delimiter) eqn:Hd.
    + assert (Hsplit : split_fields (String c line)
                       = EmptyString :: split_fields line).
      { cbn [split_fields]. unfold delimiter in Hd. rewrite Hd. reflexivity. }
      rewrite Hsplit in *. cbn [hd tl] in *. rewrite append_nil_r in *.
      inversion Hlim as [|? ? Hbuf Hrest]; subst.
      assert (Hfirst : parse_process_char (mkReader st fs buf) (Some c)
                       = Return (mkReader START_FIELD (fs ++ [buf])
                                   EmptyString)).
      { destruct Hst as [-> | ->]; unfold parse_process_char;
          cbn [state]; rewrite Hnl, ?Hq, Hd; apply Hsave, Hbuf. }
      rewrite Hfirst.
      rewrite (IH START_FIELD (fs ++ [buf]) EmptyString);
        [|left; reflexivity|exact Hline
         |rewrite ?append_cons, ?append_nil_l; rewrite <- split_fields_cons; exact Hrest].
      rewrite ?append_cons, ?append_nil_l. rewrite <- split_fields_cons, <- app_assoc. reflexivity.
    + assert (Hsplit : split_fields (String c line)
                       = String c (hd EmptyString (split_fields line))
                         :: tl (split_fields line)).
      { cbn [split_fields]. unfold delimiter in Hd. rewrite Hd.
        rewrite (split_fields_cons line) at 1. reflexivity. }
      rewrite Hsplit in *. cbn [hd tl] in *.
      assert (Hfirst : parse_process_char (mkReader st fs buf) (Some c)
                       = Return (mkReader IN_FIELD fs
                                   (buf +:+ String c EmptyString))).
      { destruct Hst as [-> | ->]; unfold parse_process_char;
          cbn [state]; rewrite Hnl, ?Hq, Hd; reflexivity. }
      rewrite Hfirst.
      assert (Happ : forall t, (buf +:+ String c EmptyString) +:+ t
                               = buf +:+ String c t)
        by (intros t; rewrite append_assoc; reflexivity).
      rewrite (IH IN_FIELD fs (buf +:+ String c EmptyString));
        [|right; reflexivity|exact Hline|rewrite Happ; exact Hlim].
      rewrite Happ. reflexivity.
Qed.

(** On a plain line the reader agrees with [csv_row]. *)
Lemma reader_plain_line (line : string) (lines : list string) :
  plain_line line = true ->
  Forall (fun f => Z.of_nat (length (chars f)) <= field_limit)
    (csv_row line) ->
  reader_rows parse_reset ((line +:+ String LF EmptyString) :: lines)
  = (csv_row line :: fst (reader_rows parse_reset lines),
     snd (reader_rows parse_reset lines)).
Proof.
  intros Hline Hlim. cbn [reader_rows].
  assert (Hparse : parse_line parse_reset (line +:+ String LF EmptyString)
                   = Return (mkReader START_RECORD (csv_row line) EmptyString)).
  { destruct line as [|c line]; [reflexivity|].
    pose proof Hline as Hline'. cbn [plain_line] in Hline'.
    apply andb_true_iff in Hline' as [Hc _].
    apply andb_true_iff in Hc as [_ Hnl]. apply negb_true_iff in Hnl.
    assert (Hstart : parse_line parse_reset
                       (String c line +:+ String LF EmptyString)
                     = parse_line (mkReader START_FIELD [] EmptyString)
                         (String c line +:+ String LF EmptyString)).
    { assert (Hfirst : parse_process_char parse_reset (Some c)
                       = parse_process_char
                           (mkReader START_FIELD [] EmptyString) (Some c)).
      { unfold parse_process_char, parse_reset. cbn [state].
        rewrite Hnl. reflexivity. }
      rewrite !append_cons. cbn [parse_line]. rewrite Hfirst. reflexivity. }
    rewrite Hstart.
    rewrite (parse_line_plain (String c line) START_FIELD [] EmptyString);
      [|left; reflexivity|exact Hline
       |rewrite ?append_cons, ?append_nil_l; rewrite <- split_fields_cons; exact Hlim].
    rewrite ?append_cons, ?append_nil_l; cbn [app]. rewrite <- split_fields_cons. reflexivity. }
  rewrite Hparse. cbn [state fields].
  destruct (reader_rows parse_reset lines). reflexivity.
Qed.

(** Rows of plain fields come back from the file as they went in. *)
Lemma csv_reader_records (rows : list (list string)) :
  Forall (fun row => Forall csv_plain row
                     /\ join_fields row <> EmptyString) rows ->
  csv_reader (records rows) = (rows, None).
Proof.
  unfold csv_reader.
  induction 1 as [|row rows [Hplain Hne] _ IH]; [reflexivity|].
  cbn [records fold_right]. fold (records rows).
  rewrite (writerow_plain row Hplain Hne), append_assoc.
  pose proof (plain_join row Hplain) as Hline.
  rewrite (universal_newlines_line _ _ Hline).
  rewrite (file_lines_line _ _ Hline).
  assert (Hrow : csv_row (join_fields row) = row).
  { unfold csv_row. destruct (join_fields row) eqn:Hj; [contradiction|].
    rewrite <- Hj. apply split_join; [exact Hplain|].
    intros ->. discriminate Hj. }
  rewrite (reader_plain_line _ _ Hline).
  - rewrite IH, Hrow. reflexivity.
  - rewrite Hrow. eapply Forall_impl; [exact Hplain|].
    intros f [_ Hf]. exact Hf.
Qed.

Lemma usable_answers_id (l : list string) :
  Forall (fun a => strip a = a /\ a <> EmptyString) l -> usable_answers l = l.
Proof.
  induction 1 as [|a l [Hs Hne] _ IH]; cbn; [reflexivity|].
  rewrite Hs. destruct (String.eqb_spec a EmptyString); [contradiction|].
  cbn. rewrite IH. reflexivity.
Qed.

Lemma deref_alloc h (objects : list FlashcardCard) (x : loc) :
  (x < length h)%nat -> deref (h ++ objects) x = deref h x.
Proof. intros Hx. unfold deref. apply lookup_total_app_l, Hx. Qed.

Lemma deref_new h (c : FlashcardCard) : deref (h ++ [c]) (length h) = c.
Proof.
  unfold deref. rewrite lookup_total_app_r by lia.
  rewrite Nat.sub_diag. reflexivity.
Qed.

(** Importing the rows of questions that are new to the set and different
    from each other adds them all, in order. *)
Lemma import_rows_data (data : list (string * list string)) :
  forall (n k : Z) w,
    cards_allocated w ->
    NoDup (questions (heap w) (cards (the_set w)) ++ map fst data) ->
    Forall survives_csv data ->
    exists w',
      import_rows (map (fun qa => fst qa :: snd qa) data) n k w
      = (Return (k + Z.of_nat (length data)), w')
      /\ cards (the_set w')
         = cards (the_set w) ++ seq (length (heap w)) (length data)
      /\ length (heap w') = (length (heap w) + length data)%nat
      /\ (forall x, (x < length (heap w))%nat ->
                    deref (heap w') x = deref (heap w) x)
      /\ map (card_data (heap w')) (seq (length (heap w)) (length data)) = data
      /\ stdout w' = stdout w.
Proof.
  induction data as [|[q va] data IH]; intros n k w Hwf Hnd Hok.
  { exists w. cbn. rewrite app_nil_r, Z.add_0_r, Nat.add_0_r. repeat split. }
  inversion Hok as [|? ? (Hq & Hva & Hall) Hok']; subst. cbn [fst snd] in *.
  destruct va as [|a0 answers]; [contradiction|].
  pose proof (usable_answers_id _ Hall) as Husable.
  destruct (import_rows_usable q (a0 :: answers) (map (fun qa => fst qa :: snd qa) data)
              n k w a0 answers Husable) as (card & _ & Hcq & Hcva & Heq).
  cbv zeta in Heq. cbn [map fst snd]. rewrite Heq. clear Heq.
  rewrite Hq in Hcq.
  assert (Hin : py_in (heap w ++ [card]) (length (heap w)) (cards (the_set w))
                = false).
  { apply not_true_is_false. intros Hin.
    apply py_in_question in Hin as (y & Hy & Hyq).
    rewrite deref_new, Hcq in Hyq.
    rewrite deref_alloc in Hyq
      by exact (proj1 (Forall_forall _ _) Hwf y Hy).
    destruct (proj1 (NoDup_app _ _) Hnd) as (_ & Hdisj & _).
    apply (Hdisj q); [|left].
    rewrite <- Hyq. unfold questions. apply list_elem_of_In.
    apply (in_map (fun x => _question (deref (heap w) x))).
    apply list_elem_of_In, Hy. }
  cbn [heap set_heap]. rewrite addCard_false_unfold, Hin. cbn [fst snd].
  set (w1 := set_the_set _ (set_heap (heap w ++ [card]) w)).
  assert (Hwf1 : cards_allocated w1).
  { unfold cards_allocated, w1. cbn. rewrite length_app. cbn.
    apply Forall_app. split.
    - eapply Forall_impl; [exact Hwf|]. intros x Hx. cbn beta in *. lia.
    - constructor; [lia|constructor]. }
  assert (Hnd1 : NoDup (questions (heap w1) (cards (the_set w1))
                        ++ map fst data)).
  { unfold w1. cbn [heap the_set set_the_set set_heap cards set_cards].
    rewrite questions_app, questions_alloc by exact Hwf.
    change (questions (heap w ++ [card]) [length (heap w)])
      with [_question (deref (heap w ++ [card]) (length (heap w)))].
    rewrite deref_new, Hcq, <- app_assoc. exact Hnd. }
  destruct (IH (n + 1) (k + 1) w1 Hwf1 Hnd1 Hok')
    as (w' & Hrun & Hcards & Hlen & Hold & Hdata & Hout).
  exists w'. rewrite Hrun.
  assert (Hlen1 : length (heap w1) = S (length (heap w))).
  { unfold w1. cbn. rewrite length_app. cbn. lia. }
  rewrite Hlen1 in *.
  split; [f_equal; f_equal; cbn [length]; lia|].
  split.
  { rewrite Hcards. unfold w1. cbn [the_set set_the_set cards set_cards].
    rewrite <- app_assoc. reflexivity. }
  split; [rewrite Hlen; cbn [length]; lia|].
  split.
  { intros x Hx. rewrite Hold by lia. unfold w1. cbn [heap set_the_set set_heap].
    apply deref_alloc, Hx. }
  split; [|rewrite Hout; reflexivity].
  cbn [length seq map]. rewrite Hdata. f_equal.
  unfold card_data. rewrite Hold by lia. unfold w1.
  cbn [heap set_the_set set_heap]. rewrite deref_new, Hcq, Hcva. reflexivity.
Qed.

Lemma records_plain (rows : list (list string)) :
  Forall (fun row => Forall csv_plain row
                     /\ join_fields row <> EmptyString) rows ->
  records rows
  = fold_right
      (fun row text => (join_fields row +:+ lineterminator) +:+ text)
      EmptyString rows.
Proof.
  induction 1 as [|row rows [Hp Hne] _ IH]; [reflexivity|].
  cbn [records fold_right]. fold (records rows).
  rewrite (writerow_plain row Hp Hne), IH. reflexivity.
Qed.

Lemma join_fields_two (f g : string) (row : list string) :
  join_fields (f :: g :: row) <> EmptyString.
Proof.
  change (join_fields (f :: g :: row))
    with (f +:+ String delimiter (join_fields (g :: row))).
  destruct f; discriminate.
Qed.

(** X13. Round trip through the file: the text [_exportCSV] writes for a
    set -- for every card its question and answers with [~] between them
    and [\r\n] after them -- read back by the import, in text mode and
    through [csv.reader], into an empty set, gives cards with the same
    questions and the same answers in the same order, one per card of the
    original.  This holds provided the questions differ from each other,
    every card has an answer, no field is blank or has white space at its
    ends, and no field holds [~], a quote character, [\r] or [\n] or is
    longer than the reader allows. *)
Theorem export_import_round_trip w :
  unique_questions w ->
  Forall survives_csv (map (card_data (heap w)) (cards (the_set w))) ->
  Forall csv_plain_row (map (card_data (heap w)) (cards (the_set w))) ->
  let rows :=
    map (fun x => _question (deref (heap w) x)
                  :: _valid_answers (deref (heap w) x))
      (cards (the_set w)) in
  exists text,
    fst (_exportCSV w) = Return text
    /\ text
       = fold_right
           (fun row text => (join_fields row +:+ lineterminator) +:+ text)
           EmptyString rows
    /\ csv_reader text = (rows, None)
    /\ let res := FCStateImportCSV_text text (console_start []) in
       fst res = Return (Next FCStateMainMenu)
       /\ map (card_data (heap (snd res))) (cards (the_set (snd res)))
          = map (card_data (heap w)) (cards (the_set w))
       /\ stdout (snd res)
          = [pretty (Z.of_nat (length (cards (the_set w))))
             +:+ " questions successfully imported"].
Proof.
  intros Hu Hok Hplain. cbv zeta.
  unfold _exportCSV, bind, get, getAllCards.
  rewrite export_rows_spec. rewrite print_run. unfold ret. cbn [fst].
  eexists. split; [reflexivity|].
  set (data := map (card_data (heap w)) (cards (the_set w))) in *.
  assert (Hrows : map (fun x => fst (card_data (heap w) x)
                                :: snd (card_data (heap w) x))
                    (cards (the_set w))
                  = map (fun qa => fst qa :: snd qa) data).
  { unfold data. rewrite map_map. reflexivity. }
  change (map (fun x => _question (deref (heap w) x)
                        :: _valid_answers (deref (heap w) x))
            (cards (the_set w)))
    with (map (fun x => fst (card_data (heap w) x)
                        :: snd (card_data (heap w) x))
            (cards (the_set w))).
  rewrite Hrows.
  assert (Hall : Forall (fun row => Forall csv_plain row
                                    /\ join_fields row <> EmptyString)
                   (map (fun qa => fst qa :: snd qa) data)).
  { apply Forall_forall. intros row Hrow.
    apply list_elem_of_In, in_map_iff in Hrow as (qa & <- & Hqa).
    apply list_elem_of_In in Hqa.
    pose proof (proj1 (Forall_forall _ _) Hok qa Hqa) as (_ & Hne & _).
    pose proof (proj1 (Forall_forall _ _) Hplain qa Hqa) as Hp.
    split; [exact Hp|].
    destruct (snd qa) as [|a0 answers]; [contradiction|].
    apply join_fields_two. }
  assert (Hread : csv_reader (records (map (fun qa => fst qa :: snd qa) data))
                  = (map (fun qa => fst qa :: snd qa) data, None))
    by (apply csv_reader_records, Hall).
  split; [apply records_plain, Hall|].
  split; [exact Hread|].
  unfold FCStateImportCSV_text. rewrite Hread.
  destruct (import_rows_data data 0 0 (console_start []))
    as (w' & Hrun & Hcards & _ & _ & Hdata & Hout).
  { constructor. }
  { cbn [console_start heap the_set FlashcardSet_init cards questions map app].
    unfold data. rewrite map_map. exact Hu. }
  { exact Hok. }
  unfold FCStateImportCSV_read, bind. rewrite Hrun, print_run.
  unfold ret. cbn [fst snd stdout set_stdout the_set heap].
  split; [reflexivity|]. split.
  - rewrite Hcards. cbn [console_start heap the_set FlashcardSet_init cards
                          length app].
    exact Hdata.
  - rewrite Hout. cbn [console_start stdout app]. unfold data.
    rewrite length_map, Z.add_0_l. reflexivity.
Qed.

Lemma export_import_round_trip_witness :
  let w := two_cards in
  let rows :=
    map (fun x => _question (deref (heap w) x)
                  :: _valid_answers (deref (heap w) x))
      (cards (the_set w)) in
  exists text,
    fst (_exportCSV w) = Return text
    /\ text
       = fold_right
           (fun row text => (join_fields row +:+ lineterminator) +:+ text)
           EmptyString rows
    /\ csv_reader text = (rows, None)
    /\ let res := FCStateImportCSV_text text (console_start []) in
       fst res = Return (Next FCStateMainMenu)
       /\ map (card_data (heap (snd res))) (cards (the_set (snd res)))
          = map (card_data (heap w)) (cards (the_set w))
       /\ stdout (snd res)
          = [pretty (Z.of_nat (length (cards (the_set w))))
             +:+ " questions successfully imported"].
Proof.
  apply (export_import_round_trip two_cards).
  - unfold unique_questions. rewrite two_cards_questions.
    apply NoDup_cons. split; [|apply NoDup_singleton].
    rewrite list_elem_of_singleton. discriminate.
  - repeat constructor; discriminate.
  - repeat constructor; vm_compute; discriminate.
Defined.

(** The file of the two-card set, and a file whose fields need quotes: the
    reader takes the quotes off again, but a [\r] inside a field comes back
    as [\n], since the file is read in text mode. *)
Example export_scenario :
  fst (_exportCSV two_cards)
  = Return ("Q1~4" +:+ lineterminator +:+ "Q2~True" +:+ lineterminator)
  /\ writerow ["a~b"; "say " +:+ double_quote +:+ "hi" +:+ double_quote; EmptyString]
     = double_quote +:+ "a~b" +:+ double_quote +:+ "~"
       +:+ double_quote +:+ "say " +:+ double_quote +:+ double_quote +:+ "hi"
       +:+ double_quote +:+ double_quote +:+ double_quote +:+ "~"
       +:+ lineterminator
  /\ csv_reader (writerow ["a~b"; "say " +:+ double_quote +:+ "hi"
                                  +:+ double_quote; EmptyString])
     = ([["a~b"; "say " +:+ double_quote +:+ "hi" +:+ double_quote;
          EmptyString]], None)
  /\ csv_reader (writerow ["a" +:+ String CR "b"; "c"])
     = ([["a" +:+ String LF "b"; "c"]], None)
  /\ writerow [EmptyString] = double_quote +:+ double_quote +:+ lineterminator
  /\ csv_reader ("a~b" +:+ String LF ("c" +:+ double_quote +:+ "d"))
     = ([["a"; "b"]; ["c" +:+ double_quote +:+ "d"]], None).
Proof. repeat split. Qed.

End ImportExport.

(** ** What a screen leaves alone *)

Section Frame.

Implicit Types (w : World).

Lemma same_cards_refl w : same_cards w w.
Proof. split; reflexivity. Qed.

Lemma same_cards_trans w1 w2 w3 :
  same_cards w1 w2 -> same_cards w2 w3 -> same_cards w1 w3.
Proof. intros [H1 H2] [H3 H4]. split; congruence. Qed.

Lemma print_same (s : string) w : same_cards w (snd (print s w)).
Proof. split; reflexivity. Qed.

Lemma input_same (prompt : string) w : same_cards w (snd (input prompt w)).
Proof. rewrite input_run. destruct (stdin w); split; reflexivity. Qed.

Lemma with_random_same {A : Type} (m : M RandomState A) w :
  same_cards w (snd (with_random m w)).
Proof. unfold with_random. destruct (m (rng w)). split; reflexivity. Qed.

Lemma lift_result_same {A : Type} (r : result A) w :
  same_cards w (snd (lift_result r w)).
Proof. split; reflexivity. Qed.

(** Sequencing keeps what both parts keep. *)
Lemma bind_same {A B : Type} (m : M World A) (k : A -> M World B) w :
  same_cards w (snd (m w)) ->
  (forall a w1, same_cards w1 (snd (k a w1))) ->
  same_cards w (snd (bind m k w)).
Proof.
  intros Hm Hk. unfold bind. destruct (m w) as [[a|e] w1]; cbn [snd] in *.
  - eapply same_cards_trans; [exact Hm|apply Hk].
  - exact Hm.
Qed.

Lemma gather_rounds_same (fuel : nat) (self : ConsoleMenu) :
  forall w, same_cards w (snd (gather_rounds fuel self w)).
Proof.
  induction fuel as [|fuel IH]; intros w; [apply same_cards_refl|].
  rewrite gather_rounds_S. cbv zeta.
  destruct (stdin w) as [|textchoice rest]; [split; reflexivity|].
  destruct (dict_get textchoice (_choices self)) as [value|].
  - destruct (manual (_options self) && _).
    + eapply same_cards_trans;
        [|apply bind_same; [apply input_same|intros; apply same_cards_refl]].
      split; reflexivity.
    + destruct (abstain (_options self) && _); split; reflexivity.
  - eapply same_cards_trans; [|apply IH]. split; reflexivity.
Qed.

Lemma static_quickChoice_same (choices : list (pyval * string))
    (options : MenuOptions) w :
  same_cards w (snd (static_quickChoice choices options w)).
Proof.
  unfold static_quickChoice, gatherUserChoice, bind, gets.
  apply gather_rounds_same.
Qed.

Lemma ask_question_same (c : FlashcardCard) w :
  same_cards w (snd (ask_question c w)).
Proof.
  unfold ask_question.
  destruct (String.eqb (_answer_type c) "multiple_choice" || _).
  - unfold _askMultipleChoice. apply bind_same; [apply print_same|].
    intros _ w1. apply bind_same.
    + rewrite askMultipleChoice_choices_run.
      destruct (true_false_answers _); split; reflexivity.
    + intros choices w2. apply bind_same; [apply static_quickChoice_same|].
      intros [[k v]|] w3; apply same_cards_refl.
  - unfold _askFreeform. apply bind_same; [apply print_same|].
    intros _ w1. apply input_same.
Qed.

Lemma set_getSortedCards_same (n m : Z) w :
  same_cards w (snd (set_getSortedCards n m w)).
Proof.
  unfold set_getSortedCards, bind, get. apply with_random_same.
Qed.

End Frame.

(** ** A question of a card run *)

Section RunStep.

Implicit Types (w : World) (self : RunCardList).

Lemma same_cards_of {A : Type} (m : M World A) w (r : result A) w1 :
  same_cards w (snd (m w)) -> m w = (r, w1) -> same_cards w w1.
Proof. intros H Heq. rewrite Heq in H. exact H. Qed.

Lemma lift_result_inv {A : Type} (r : result A) w (a : A) w1 :
  lift_result r w = (Return a, w1) -> r = Return a /\ w1 = w.
Proof. unfold lift_result. intros [= -> ->]. auto. Qed.

(** What a call of [run] that returns has done. *)
Lemma run_effect self w self' (nxt : next_state) w' :
  FCStateRunCardList_run self w = (Return (self', nxt), w') ->
  exists card answer confirmed,
    py_index (_cardlist self) (_index self) = Return card
    /\ the_set w' = the_set w
    /\ _endless self' = _endless self
    /\ ((answer = "q" /\ self' = self /\ nxt = Next FCStateMainMenu
         /\ heap w' = heap w)
        \/ (answer <> "q"
            /\ exists (passed : bool) c',
                checkAnswer answer confirmed (deref (heap w) card)
                = (Return passed, c')
                /\ heap w' = <[card := c']> (heap w)
                /\ _answered self' = _answered self + 1
                /\ _passed self' = _passed self + (if passed then 1 else 0)
                /\ if truthy (_endless self)
                   then nxt = Self /\ _index self' = _index self
                   else _cardlist self' = _cardlist self
                        /\ if _index self
                              =? Z.of_nat (length (_cardlist self)) - 1
                           then nxt = Next FCStateMainMenu
                                /\ _index self' = _index self
                           else nxt = Self
                                /\ _index self' = _index self + 1)).
Proof.
  intros Hrun. unfold FCStateRunCardList_run in Hrun.
  apply bind_Return_inv in Hrun as (u & w1 & H1 & Hrun).
  assert (S1 : same_cards w w1).
  { destruct (negb (truthy (_endless self)));
      [eapply same_cards_of; [apply print_same|exact H1]|].
    injection H1 as _ <-. apply same_cards_refl. }
  apply bind_Return_inv in Hrun as (card & w2 & H2 & Hrun).
  apply lift_result_inv in H2 as [Hcard ->].
  apply bind_Return_inv in Hrun as (c & w3 & H3 & Hrun).
  injection H3 as <- <-.
  apply bind_Return_inv in Hrun as (answer & w4 & Hask & Hrun).
  assert (S4 : same_cards w1 w4)
    by (eapply same_cards_of; [apply ask_question_same|exact Hask]).
  exists card, answer.
  destruct (String.eqb_spec answer "q") as [->|Hq].
  { injection Hrun as <- <- <-. exists PyNone.
    destruct S1 as [Sh1 Ss1], S4 as [Sh4 Ss4].
    repeat split; try congruence. left. repeat split; congruence. }
  cbv zeta in Hrun.
  apply bind_Return_inv in Hrun as (a0 & w5 & H5 & Hrun).
  apply lift_result_inv in H5 as [_ ->].
  apply bind_Return_inv in Hrun as (u6 & w6 & H6 & Hrun).
  assert (S6 : same_cards w4 w6)
    by (eapply same_cards_of; [apply print_same|exact H6]).
  apply bind_Return_inv in Hrun as (s & w7 & H7 & Hrun).
  injection H7 as <- <-.
  apply bind_Return_inv in Hrun as (uses & w8 & H8 & Hrun).
  apply lift_result_inv in H8 as [_ ->].
  apply bind_Return_inv in Hrun as (confirmed & w9 & H9 & Hrun).
  assert (S9 : same_cards w6 w9).
  { destruct uses.
    - eapply same_cards_of; [|exact H9].
      apply bind_same; [apply input_same|intros; apply same_cards_refl].
    - injection H9 as _ <-. apply same_cards_refl. }
  exists confirmed.
  apply bind_Return_inv in Hrun as (passed & w10 & H10 & Hrun).
  unfold with_card in H10.
  destruct (checkAnswer answer confirmed (deref (heap w9) card))
    as [rp c'] eqn:Hcheck.
  injection H10 as -> <-.
  apply bind_Return_inv in Hrun as (self1 & w11 & H11 & Hrun).
  assert (S11 : same_cards (set_heap (<[card:=c']> (heap w9)) w9) w11
                /\ self1 = set_passed (_passed self + (if passed then 1 else 0))
                             (set_answered (_answered self + 1) self)).
  { destruct passed.
    - apply bind_Return_inv in H11 as (u11 & w11' & Hp & Hret).
      injection Hret as <- <-. split.
      + eapply same_cards_of; [apply print_same|exact Hp].
      + reflexivity.
    - apply bind_Return_inv in H11 as (u11 & w11' & Hp & Hret).
      injection Hret as <- <-. split.
      + eapply same_cards_of; [apply print_same|exact Hp].
      + unfold set_passed, set_answered. cbn. rewrite Z.add_0_r.
        reflexivity. }
  destruct S11 as [S11 ->].
  apply bind_Return_inv in Hrun as (u12 & w12 & H12 & Hrun).
  assert (S12 : same_cards w11 w12)
    by (eapply same_cards_of; [apply print_same|exact H12]).
  assert (Hheap : heap w9 = heap w /\ the_set w9 = the_set w).
  { destruct S1, S4, S6, S9. split; congruence. }
  destruct Hheap as [Hh9 Hs9].
  assert (Hfinal : heap w12 = <[card:=c']> (heap w) /\ the_set w12 = the_set w).
  { destruct S11 as [Sh Ss], S12 as [Sh' Ss']. cbn in Sh, Ss.
    split; congruence. }
  destruct Hfinal as [Hh12 Hs12].
  rewrite Hh9 in Hcheck.
  cbn [_endless set_passed set_answered _index _cardlist] in Hrun.
  destruct (truthy (_endless self)) eqn:Hend.
  - apply bind_Return_inv in Hrun as (l & w13 & H13 & Hret).
    assert (S13 : same_cards w12 w13)
      by (eapply same_cards_of; [apply set_getSortedCards_same|exact H13]).
    injection Hret as <- <- <-. destruct S13 as [Sh Ss].
    split; [exact Hcard|]. split; [congruence|]. split; [reflexivity|].
    right. split; [exact Hq|]. exists passed, c'.
    repeat split; try reflexivity; try congruence.
  - destruct (_index self =? Z.of_nat (length (_cardlist self)) - 1) eqn:Hlast;
      injection Hrun as <- <- <-;
      (split; [exact Hcard|]); (split; [congruence|]);
      (split; [reflexivity|]); right; (split; [exact Hq|]);
      exists passed, c'; rewrite ?Hlast;
      repeat split; try reflexivity; try congruence.
Qed.

Lemma checkAnswer_fields (answer : string) (confirmed : pyval)
    (c : FlashcardCard) :
  let c' := snd (checkAnswer answer confirmed c) in
  _question c' = _question c /\ _valid_answers c' = _valid_answers c
  /\ _answer_type c' = _answer_type c
  /\ _override_confirms c' = _override_confirms c
  /\ _attempts c' = _attempts c + 1
  /\ _correct c'
     = _correct c + (if fst (checkAnswer answer confirmed c) is Return true
                     then 1 else 0).
Proof.
  cbv zeta. rewrite checkAnswer_unfold. cbv zeta.
  destruct c as [v q va t o n k]. cbn [_valid_answers].
  destruct confirmed as [| [|] | |];
    try (destruct va as [|a0 rest]; [|destruct (String.eqb answer a0)]);
    unfold set_correct, set_attempts; cbn; repeat split; lia.
Qed.

(** X14. A call of [FCStateRunCardList.run] that returns changes nothing but
    the card it asked: the card set is the same, no card object is added or
    removed, every other card is untouched, and the asked card keeps its
    question, answers, answer type and override. *)
Theorem run_changes_only_asked_card self w self' (nxt : next_state) :
  fst (FCStateRunCardList_run self w) = Return (self', nxt) ->
  let w' := snd (FCStateRunCardList_run self w) in
  the_set w' = the_set w
  /\ length (heap w') = length (heap w)
  /\ exists card,
      py_index (_cardlist self) (_index self) = Return card
      /\ (forall x, x <> card -> deref (heap w') x = deref (heap w) x)
      /\ _question (deref (heap w') card) = _question (deref (heap w) card)
      /\ _valid_answers (deref (heap w') card)
         = _valid_answers (deref (heap w) card)
      /\ _answer_type (deref (heap w') card)
         = _answer_type (deref (heap w) card)
      /\ _override_confirms (deref (heap w') card)
         = _override_confirms (deref (heap w) card).
Proof.
  intros Hfst. cbv zeta.
  destruct (FCStateRunCardList_run self w) as [r w'] eqn:Hrun.
  cbn [fst snd] in *. subst r.
  destruct (run_effect self w self' nxt w' Hrun)
    as (card & answer & confirmed & Hcard & Hset & _ & Hcase).
  split; [exact Hset|].
  destruct Hcase as [(_ & _ & _ & Hheap)|(_ & passed & c' & Hcheck & Hheap & _)].
  - rewrite Hheap. split; [reflexivity|]. exists card. repeat split. exact Hcard.
  - rewrite Hheap, length_insert. split; [reflexivity|]. exists card.
    split; [exact Hcard|]. split.
    { intros x Hx. unfold deref. apply list_lookup_total_insert_ne. congruence. }
    pose proof (checkAnswer_fields answer confirmed (deref (heap w) card))
      as Hf. cbv zeta in Hf. rewrite Hcheck in Hf. cbn [fst snd] in Hf.
    destruct Hf as (Hq & Hva & Ht & Ho & _).
    unfold deref at 1 3 5 7. rewrite list_lookup_total_insert.
    case_decide; [auto|]. repeat split; reflexivity.
Qed.

Lemma run_changes_only_asked_card_witness :
  let self := run_start in
  let w := run_world in
  let w' := snd (FCStateRunCardList_run self w) in
  the_set w' = the_set w
  /\ length (heap w') = length (heap w)
  /\ exists card,
      py_index (_cardlist self) (_index self) = Return card
      /\ (forall x, x <> card -> deref (heap w') x = deref (heap w) x)
      /\ _question (deref (heap w') card) = _question (deref (heap w) card)
      /\ _valid_answers (deref (heap w') card)
         = _valid_answers (deref (heap w) card)
      /\ _answer_type (deref (heap w') card)
         = _answer_type (deref (heap w) card)
      /\ _override_confirms (deref (heap w') card)
         = _override_confirms (deref (heap w) card).
Proof.
  apply (run_changes_only_asked_card run_start run_world
           (mkRun [1%nat; 0%nat] (PyBool false) 1 1 1) Self).
  reflexivity.
Defined.

(** X15. The tallies of a run agree with the cards: a call of [run] that
    returns either was answered with [q] and changed nothing, or it counted
    one more answered question and, on the asked card, one more attempt; and
    it counted one more passed question exactly when the card counted one
    more correct answer.  So [0 <= _passed <= _answered] stays true. *)
Theorem run_tallies self w self' (nxt : next_state) :
  fst (FCStateRunCardList_run self w) = Return (self', nxt) ->
  let w' := snd (FCStateRunCardList_run self w) in
  exists card,
    py_index (_cardlist self) (_index self) = Return card
    /\ ((self' = self /\ nxt = Next FCStateMainMenu /\ heap w' = heap w)
        \/ (_answered self' = _answered self + 1
            /\ (_passed self' = _passed self
                \/ _passed self' = _passed self + 1)
            /\ ((card < length (heap w))%nat ->
                _attempts (deref (heap w') card)
                = _attempts (deref (heap w) card) + 1
                /\ _correct (deref (heap w') card)
                   - _correct (deref (heap w) card)
                   = _passed self' - _passed self)))
    /\ (0 <= _passed self <= _answered self ->
        0 <= _passed self' <= _answered self').
Proof.
  intros Hfst. cbv zeta.
  destruct (FCStateRunCardList_run self w) as [r w'] eqn:Hrun.
  cbn [fst snd] in *. subst r.
  destruct (run_effect self w self' nxt w' Hrun)
    as (card & answer & confirmed & Hcard & Hset & _ & Hcase).
  exists card. split; [exact Hcard|].
  destruct Hcase as [(_ & -> & -> & Hheap)
                    |(_ & passed & c' & Hcheck & Hheap & Ha & Hp & _)].
  - split; [left; auto|auto].
  - split; [|destruct passed; lia].
    right. split; [exact Ha|]. split; [destruct passed; lia|].
    intros Halloc. rewrite Hheap. unfold deref at 1 3.
    rewrite !list_lookup_total_insert_eq by exact Halloc.
    pose proof (checkAnswer_fields answer confirmed (deref (heap w) card))
      as Hf. cbv zeta in Hf. rewrite Hcheck in Hf. cbn [fst snd] in Hf.
    destruct Hf as (_ & _ & _ & _ & Hatt & Hcor).
    fold (deref (heap w) card). split; [exact Hatt|].
    rewrite Hcor, Hp. destruct passed; lia.
Qed.

Lemma run_tallies_witness :
  let self := run_start in
  let w := run_world in
  let self' := mkRun [1%nat; 0%nat] (PyBool false) 1 1 1 in
  let w' := snd (FCStateRunCardList_run self w) in
  exists card,
    py_index (_cardlist self) (_index self) = Return card
    /\ ((self' = self /\ Self = Next FCStateMainMenu /\ heap w' = heap w)
        \/ (_answered self' = _answered self + 1
            /\ (_passed self' = _passed self
                \/ _passed self' = _passed self + 1)
            /\ ((card < length (heap w))%nat ->
                _attempts (deref (heap w') card)
                = _attempts (deref (heap w) card) + 1
                /\ _correct (deref (heap w') card)
                   - _correct (deref (heap w) card)
                   = _passed self' - _passed self)))
    /\ (0 <= _passed self <= _answered self ->
        0 <= _passed self' <= _answered self').
Proof.
  apply (run_tallies run_start run_world
           (mkRun [1%nat; 0%nat] (PyBool false) 1 1 1) Self).
  reflexivity.
Defined.

(** X16. Outside endless mode a run walks its list once: a call of [run]
    that returns keeps the card list; it stays in the run only by moving to
    the next index, which is then still inside the list; and it leaves, to
    the main menu, exactly when it was answered with [q] or it asked the last
    card of the list. *)
Theorem run_walks_the_list self w self' (nxt : next_state) :
  fst (FCStateRunCardList_run self w) = Return (self', nxt) ->
  truthy (_endless self) = false ->
  0 <= _index self ->
  _cardlist self' = _cardlist self
  /\ 0 <= _index self < Z.of_nat (length (_cardlist self))
  /\ (nxt = Self
      /\ _index self' = _index self + 1
      /\ _index self' < Z.of_nat (length (_cardlist self))
      \/ nxt = Next FCStateMainMenu
         /\ _index self' = _index self
         /\ (self' = self
             \/ _index self = Z.of_nat (length (_cardlist self)) - 1)).
Proof.
  intros Hfst Hend Hidx.
  destruct (FCStateRunCardList_run self w) as [r w'] eqn:Hrun.
  cbn [fst] in *. subst r.
  destruct (run_effect self w self' nxt w' Hrun)
    as (card & answer & confirmed & Hcard & _ & _ & Hcase).
  assert (Hrange : 0 <= _index self < Z.of_nat (length (_cardlist self))).
  { unfold py_index in Hcard.
    destruct (Z.ltb_spec (_index self) 0); [lia|].
    destruct (Z.ltb_spec (_index self) 0); [lia|]. cbn [orb] in Hcard.
    destruct (Z.leb_spec (Z.of_nat (length (_cardlist self))) (_index self));
      [discriminate|lia]. }
  destruct Hcase as [(_ & -> & -> & _)|(_ & passed & c' & _ & _ & _ & _ & Hstep)].
  - split; [reflexivity|]. split; [exact Hrange|]. right. auto.
  - rewrite Hend in Hstep. destruct Hstep as [Hlist Hstep].
    split; [exact Hlist|]. split; [exact Hrange|].
    destruct (Z.eqb_spec (_index self) (Z.of_nat (length (_cardlist self)) - 1))
      as [Hlast|Hnot]; destruct Hstep as [-> Hi].
    + right. auto.
    + left. split; [reflexivity|]. split; [exact Hi|]. lia.
Qed.

Lemma run_walks_the_list_witness :
  let self := run_start in
  let self' := mkRun [1%nat; 0%nat] (PyBool false) 1 1 1 in
  _cardlist self' = _cardlist self
  /\ 0 <= _index self < Z.of_nat (length (_cardlist self))
  /\ (Self = Self
      /\ _index self' = _index self + 1
      /\ _index self' < Z.of_nat (length (_cardlist self))
      \/ Self = Next FCStateMainMenu
         /\ _index self' = _index self
         /\ (self' = self
             \/ _index self = Z.of_nat (length (_cardlist self)) - 1)).
Proof.
  apply (run_walks_the_list run_start run_world
           (mkRun [1%nat; 0%nat] (PyBool false) 1 1 1) Self);
    [reflexivity|reflexivity|cbn; lia].
Defined.

End RunStep.

(** ** Numbered menus *)

Section NumberedMenus.

Lemma pretty_N_char_digit (x : N) :
  (x < 10)%N ->
  is_digit (pretty_N_char x) = true
  /\ digit_value (pretty_N_char x) = Z.of_N x.
Proof.
  intros Hx.
  destruct x as [|p]; [split; reflexivity|].
  do 4 (destruct p as [p|p|]; try lia; try (split; reflexivity)).
Qed.

Lemma digit_not_space (c : ascii) :
  is_digit c = true ->
  Py_ISSPACE c = false /\ Ascii.eqb c "+" || Ascii.eqb c "-" = false
  /\ (N_of_ascii c <? 128)%N = true.
Proof.
  destruct c as [[] [] [] [] [] [] [] []]; vm_compute; intros H;
    first [discriminate H | repeat split; reflexivity].
Qed.

Lemma pretty_N_go_digits (x : N) :
  forall s, all_digits s = true -> all_digits (pretty_N_go x s) = true.
Proof.
  induction (N.lt_wf_0 x) as [x _ IH]. intros s Hs.
  destruct (N.eq_dec x 0%N) as [->|Hx]; [exact Hs|].
  rewrite pretty_N_go_step by lia.
  apply IH; [apply N.div_lt; lia|].
  cbn [all_digits]. rewrite Hs, andb_true_r.
  apply pretty_N_char_digit. apply N.mod_lt. lia.
Qed.

Lemma pretty_N_go_parse (x : N) :
  forall s,
    (0 < x)%N ->
    exists c s',
      pretty_N_go x s = String c s'
      /\ is_digit c = true
      /\ int_digits (digit_value c) false s' = int_digits (Z.of_N x) false s.
Proof.
  induction (N.lt_wf_0 x) as [x _ IH]. intros s Hx.
  rewrite pretty_N_go_step by lia.
  destruct (pretty_N_char_digit (x `mod` 10)%N) as [Hd Hv];
    [apply N.mod_lt; lia|].
  destruct (N.eq_dec (x `div` 10)%N 0%N) as [H0|Hpos].
  - rewrite H0. exists (pretty_N_char (x `mod` 10)%N), s.
    split; [reflexivity|]. split; [exact Hd|].
    rewrite Hv. f_equal.
    pose proof (N.div_mod x 10 ltac:(lia)). lia.
  - destruct (IH (x `div` 10)%N) with (s := String (pretty_N_char (x `mod` 10)) s)
      as (c & s' & Heq & Hc & Hparse);
      [apply N.div_lt; lia|apply N.neq_0_lt_0; exact Hpos|].
    exists c, s'. split; [exact Heq|]. split; [exact Hc|].
    rewrite Hparse. cbn [int_digits]. rewrite Hd, Hv. f_equal.
    pose proof (N.div_mod x 10 ltac:(lia)). lia.
Qed.

Lemma skip_trailing_digits (s : string) :
  all_digits s = true -> skip_trailing s = s.
Proof.
  induction s as [|c s IH]; [reflexivity|]. cbn [all_digits skip_trailing].
  intros [Hc Hs]%andb_true_iff. rewrite (IH Hs).
  destruct s; [|reflexivity].
  destruct (digit_not_space c Hc) as [-> _]. reflexivity.
Qed.

Lemma digits_ascii (s : string) :
  all_digits s = true -> PyUnicode_IS_ASCII s = true.
Proof.
  unfold PyUnicode_IS_ASCII.
  induction s as [|c s IH]; [reflexivity|].
  cbn [all_digits list_ascii_of_string forallb].
  intros [Hc Hs]%andb_true_iff. rewrite (IH Hs).
  destruct (digit_not_space c Hc) as (_ & _ & ->). reflexivity.
Qed.

(** A text of digits is the text of the number. *)
Lemma number_text_digits (s : string) :
  all_digits s = true -> number_text s = s.
Proof.
  intros Hall. unfold number_text, _PyUnicode_TransformDecimalAndSpaceToASCII.
  rewrite (digits_ascii s Hall).
  destruct s as [|c s]; [reflexivity|].
  cbn [all_digits] in Hall. pose proof Hall as [Hc _]%andb_true_iff.
  cbn [skip_leading]. destruct (digit_not_space c Hc) as [-> _].
  apply skip_trailing_digits. cbn [all_digits]. exact Hall.
Qed.

(** [int(str(n)) == n] for the numbers a menu counts with. *)
Lemma py_int_pretty (n : nat) :
  py_int (pretty (Z.of_nat n + 1)) = Return (Z.of_nat n + 1).
Proof.
  destruct (Z.of_nat n + 1) as [|p|p] eqn:Hz; [lia| |lia].
  unfold pretty, pretty_Z, pretty, pretty_positive, pretty, pretty_N.
  case_decide; [discriminate|].
  destruct (pretty_N_go_parse (N.pos p) EmptyString) as (c & s' & Heq & Hc & Hp);
    [lia|].
  pose proof (pretty_N_go_digits (N.pos p) EmptyString eq_refl) as Hall.
  unfold py_int. cbv zeta.
  rewrite (number_text_digits _ Hall), Heq. cbn [skip_sign].
  destruct (digit_not_space c Hc) as (_ & Hsign & _). rewrite Hsign, Hc, Hp.
  cbn [int_digits].
  apply orb_false_iff in Hsign as [_ ->]. reflexivity.
Qed.

End NumberedMenus.

(** ** The run menu and the end of a run *)

Section RunMenu.

Implicit Types (w : World).

Lemma bind_raises {A B : Type} (P : exn -> Prop) (m : M World A)
    (k : A -> M World B) :
  raises_only P m -> (forall a, raises_only P (k a)) ->
  raises_only P (bind m k).
Proof.
  intros Hm Hk w e. unfold bind.
  destruct (m w) as [[a|e'] w1] eqn:Hmw.
  - apply Hk.
  - cbn [fst]. intros [= <-]. apply (Hm w). rewrite Hmw. reflexivity.
Qed.

Lemma ret_raises {A : Type} (P : exn -> Prop) (a : A) : raises_only P (ret a).
Proof. intros w e. discriminate. Qed.

Lemma print_raises (P : exn -> Prop) (s : string) : raises_only P (print s).
Proof. intros w e. discriminate. Qed.

Lemma gets_raises {A : Type} (P : exn -> Prop) (f : World -> A) :
  raises_only P (gets f).
Proof. intros w e. discriminate. Qed.

Lemma input_raises (P : exn -> Prop) (prompt : string) :
  P EOFError -> raises_only P (input prompt).
Proof.
  intros HP w e. rewrite input_run.
  destruct (stdin w); cbn [fst]; [intros [= <-]; exact HP|discriminate].
Qed.

Lemma static_quickChoice_result (choices : list (pyval * string))
    (options : MenuOptions) w :
  let self := ConsoleMenu_init choices options in
  match fst (static_quickChoice choices options w) with
  | Return (Some (k, v)) =>
      dict_get k (_choices self) <> None
      /\ if manual options && String.eqb k (manual_key options)
         then True
         else dict_get k (_choices self) = Some v
              /\ abstain options && String.eqb k (abstain_key options) = false
  | Return None =>
      abstain options = true
      /\ dict_get (abstain_key options) (_choices self) <> None
      /\ manual options
         && String.eqb (abstain_key options) (manual_key options) = false
  | Raise e =>
      e = EOFError /\ stdin (snd (static_quickChoice choices options w)) = []
  end.
Proof.
  cbv zeta. unfold static_quickChoice, gatherUserChoice, bind, gets.
  apply (gather_rounds_result _ (ConsoleMenu_init choices options)). lia.
Qed.

Lemma static_quickChoice_raises (P : exn -> Prop)
    (choices : list (pyval * string)) (options : MenuOptions) :
  P EOFError -> raises_only P (static_quickChoice choices options).
Proof.
  intros HP w e He.
  pose proof (static_quickChoice_result choices options w) as H.
  cbv zeta in H. rewrite He in H. destruct H as [-> _]. exact HP.
Qed.

Lemma set_getSortedCards_total (n m : Z) w :
  exists l,
    set_getSortedCards n m w
    = (Return l,
       set_rng (advance (length (cards (the_set w)) + length (cards (the_set w)))
                  (rng w)) w)
    /\ forall x, x ∈ l -> x ∈ cards (the_set w).
Proof.
  destruct (getSortedCards_total (heap w) (the_set w) n m (rng w))
    as (l & Hl & _ & Hin). cbv zeta in Hl.
  exists l. split; [|exact Hin].
  unfold set_getSortedCards, bind, get, with_random. rewrite Hl. reflexivity.
Qed.


Lemma sorted_branch_result (n m : Z) w (r : option (list loc)) w' :
  (l <- set_getSortedCards n m ;; ret (Some l)) w = (Return r, w') ->
  exists l, r = Some l /\ forall x, x ∈ l -> x ∈ cards (the_set w).
Proof.
  unfold bind. destruct (set_getSortedCards_total n m w) as (l & -> & Hin).
  intros [= <- <-]. exists l. auto.
Qed.

Lemma RunCardsMenu_cardlist_result (key : string) w (l : list loc) w' :
  RunCardsMenu_cardlist key w = (Return (Some l), w') ->
  forall x, x ∈ l -> x ∈ cards (the_set w).
Proof.
  unfold RunCardsMenu_cardlist. unfold bind at 1, gets at 1.
  repeat match goal with
         | |- context [if String.eqb key ?k then bind (set_getSortedCards ?n ?m) _ else _] =>
             destruct (String.eqb key k);
             [intros H; apply sorted_branch_result in H as (l' & [= <-] & Hin);
              exact Hin|]
         end.
  destruct (String.eqb key "all"); [intros [= <- <-]; auto|].
  destruct (String.eqb key "endless");
    [intros H; apply sorted_branch_result in H as (l' & [= <-] & Hin);
     exact Hin|].
  destruct (String.eqb key "custom");
    [|intros [= <- <-] x Hx; inversion Hx].
  intros H.
  apply bind_Return_inv in H as (a & w1 & Ha & H).
  apply bind_Return_inv in H as (b & w2 & Hb & H).
  assert (Hset : the_set w2 = the_set w).
  { pose proof (input_same "Enter the number of lowest-scoring cards to run: " w)
      as [_ S1]. rewrite Ha in S1.
    pose proof (input_same "Enter the number of random cards to run: " w1)
      as [_ S2]. rewrite Hb in S2. cbn [snd] in *. congruence. }
  destruct (py_int a) as [numranked|]; [destruct (py_int b) as [numrandom|]|].
  - apply sorted_branch_result in H as (l' & [= <-] & Hin).
    rewrite <- Hset. exact Hin.
  - apply bind_Return_inv in H as (u & w3 & _ & [=]).
  - apply bind_Return_inv in H as (u & w3 & _ & [=]).
Qed.



Lemma load_endless_raises w :
  load_global "endless" w = (Raise (NameError "endless"), w).
Proof. reflexivity. Qed.

(** The body of [FCStateRunCardsMenu.run], for rewriting. *)
Lemma FCStateRunCardsMenu_run_unfold :
  FCStateRunCardsMenu_run
  = (s <- gets the_set ;;
     choice <- static_quickChoice RunCardsMenu_choices
                 (abstain_intro_options "q" "Return to main menu"
                    (pretty (Z.of_nat (length (getAllCards s)))
                     +:+ " cards in set. "
                     +:+ "Choose a run from the list below")) ;;
     match choice with
     | None => ret (Next FCStateMainMenu)
     | Some (key, _) =>
         cardlist <- RunCardsMenu_cardlist key ;;
         match cardlist with
         | None => ret Self
         | Some cardlist =>
             cardlist <- with_random
                           (sorted float_lt cardlist (fun k => random)) ;;
             if String.eqb key "endless" then
               endless <- load_global "endless" ;;
               ret (Next (FCStateRunCardList
                            (FCStateRunCardList_init cardlist endless)))
             else
               ret (Next (FCStateRunCardList
                            (FCStateRunCardList_init cardlist (PyBool false))))
         end
     end).
Proof. reflexivity. Qed.

(** What a call of the run menu that returns has returned. *)
Lemma run_menu_effect w (nxt : next_state) w' :
  FCStateRunCardsMenu_run w = (Return nxt, w') ->
  nxt = Self \/ nxt = Next FCStateMainMenu
  \/ exists l,
      nxt = Next (FCStateRunCardList (FCStateRunCardList_init l (PyBool false)))
      /\ forall x, x ∈ l -> x ∈ cards (the_set w).
Proof.
  intros H. rewrite FCStateRunCardsMenu_run_unfold in H.
  apply bind_Return_inv in H as (s & w0 & [= <- <-] & H).
  apply bind_Return_inv in H as (choice & w1 & Hc & H).
  assert (S1 : same_cards w w1)
    by (eapply same_cards_of; [apply static_quickChoice_same|exact Hc]).
  destruct choice as [[key value]|]; [|injection H as <- <-; auto].
  apply bind_Return_inv in H as (cardlist & w2 & Hl & H).
  destruct cardlist as [cardlist|]; [|injection H as <- <-; auto].
  apply bind_Return_inv in H as (shuffled & w3 & Hsh & H).
  rewrite shuffle_run in Hsh. injection Hsh as <- <-.
  destruct (String.eqb key "endless").
  { apply bind_Return_inv in H as (endless & w4 & He & _).
    rewrite load_endless_raises in He. discriminate. }
  injection H as <- <-. right. right. eexists. split; [reflexivity|].
  intros x Hx. rewrite shuffle_perm in Hx by apply draw_keys_length.
  destruct S1 as [_ <-].
  exact (RunCardsMenu_cardlist_result key w1 cardlist w2 Hl x Hx).
Qed.




(** X18. On a set without cards every run the menu starts fails at once:
    the card list of the run is empty, and the first call of
    [FCStateRunCardList.run] raises [IndexError], whatever the rest of the
    program state is. *)
Theorem run_on_empty_set_raises w (run : RunCardList) :
  cards (the_set w) = [] ->
  fst (FCStateRunCardsMenu_run w) = Return (Next (FCStateRunCardList run)) ->
  _cardlist run = []
  /\ forall w0, fst (FCStateRunCardList_run run w0) = Raise IndexError.
Proof.
  intros Hempty Hfst.
  destruct (FCStateRunCardsMenu_run w) as [r w'] eqn:Hrun.
  cbn [fst] in Hfst. subst r.
  destruct (run_menu_effect w _ w' Hrun) as [[=]| [[=]|(l & [= ->] & Hin)]].
  assert (Hl : l = []).
  { destruct l as [|x l]; [reflexivity|].
    specialize (Hin x ltac:(left)). rewrite Hempty in Hin. inversion Hin. }
  subst l. split; [reflexivity|]. intros w0. reflexivity.
Qed.

Lemma run_on_empty_set_raises_witness :
  _cardlist (FCStateRunCardList_init [] (PyBool false)) = []
  /\ forall w0,
      fst (FCStateRunCardList_run (FCStateRunCardList_init [] (PyBool false)) w0)
      = Raise IndexError.
Proof.
  apply (run_on_empty_set_raises (console_start ["10r"])); reflexivity.
Defined.


(** X19. The choice [custom] reads both numbers before it looks at either:
    when one of the two lines is no integer, both lines are used up, the
    error text is printed, and the menu returns to itself with the cards,
    the set and the random generator untouched. *)
Theorem custom_run_not_an_integer (h : list FlashcardCard) (s : FlashcardSet)
    (a b : string) (rest out : list string) (r : RandomState) :
  py_int a = Raise ValueError \/ py_int b = Raise ValueError ->
  exists shown,
    FCStateRunCardsMenu_run (mkWorld h s ("custom" :: a :: b :: rest) out r)
    = (Return Self,
       mkWorld h s rest
         (out ++ shown
          ++ ["Enter the number of lowest-scoring cards to run: ";
              "Enter the number of random cards to run: ";
              "ERROR: One of the inputs above was not an integer. Returning to run menu."])
         r).
Proof.
  intros Hbad. rewrite FCStateRunCardsMenu_run_unfold.
  unfold bind at 1. unfold gets at 1. cbn [the_set]. unfold bind at 1.
  match goal with
  | |- context [static_quickChoice _ ?o] => set (options := o)
  end.
  rewrite (static_quickChoice_valid RunCardsMenu_choices options _
             "custom" "Define a custom run of the cards" (a :: b :: rest));
    [|reflexivity..].
  exists (round_lines (ConsoleMenu_init RunCardsMenu_choices options)).
  unfold bind at 1. unfold RunCardsMenu_cardlist.
  unfold bind at 1. unfold gets at 1.
  replace (String.eqb "custom" "1") with false by reflexivity.
  replace (String.eqb "custom" "5") with false by reflexivity.
  replace (String.eqb "custom" "10") with false by reflexivity.
  replace (String.eqb "custom" "10r") with false by reflexivity.
  replace (String.eqb "custom" "15") with false by reflexivity.
  replace (String.eqb "custom" "third") with false by reflexivity.
  replace (String.eqb "custom" "half") with false by reflexivity.
  replace (String.eqb "custom" "all") with false by reflexivity.
  replace (String.eqb "custom" "endless") with false by reflexivity.
  replace (String.eqb "custom" "custom") with true by reflexivity.
  unfold bind at 1. rewrite input_run.
  cbn [stdin set_stdin set_stdout stdout heap the_set rng].
  unfold bind at 1. rewrite input_run.
  cbn [stdin set_stdin set_stdout stdout heap the_set rng].
  assert (Hprint :
            match py_int a, py_int b with
            | Return numranked, Return numrandom =>
                l <- set_getSortedCards numranked numrandom ;; ret (Some l)
            | _, _ =>
                print "ERROR: One of the inputs above was not an integer. Returning to run menu." ;;
                ret None
            end
            = (print "ERROR: One of the inputs above was not an integer. Returning to run menu." ;;
               ret None)).
  { destruct Hbad as [-> | ->]; [reflexivity|].
    destruct (py_int a); reflexivity. }
  rewrite Hprint. unfold bind at 1. rewrite print_run.
  cbn [stdin set_stdin set_stdout stdout heap the_set rng].
  unfold ret. rewrite <- !app_assoc. reflexivity.
Qed.

Lemma custom_run_not_an_integer_witness :
  exists shown,
    FCStateRunCardsMenu_run
      (mkWorld [] (FlashcardSet_init "deck") ("custom" :: "two" :: "3" :: [])
         [] (draws_from 0 []))
    = (Return Self,
       mkWorld [] (FlashcardSet_init "deck") []
         ([] ++ shown
          ++ ["Enter the number of lowest-scoring cards to run: ";
              "Enter the number of random cards to run: ";
              "ERROR: One of the inputs above was not an integer. Returning to run menu."])
         (draws_from 0 [])).
Proof.
  apply (custom_run_not_an_integer [] (FlashcardSet_init "deck") "two" "3").
  left. reflexivity.
Defined.

Lemma str_repeat_length (c : ascii) (n : nat) :
  String.length (str_repeat c n) = n.
Proof. induction n as [|n IH]; cbn; [reflexivity|]. rewrite IH. reflexivity. Qed.

Lemma passedpct_floor (self : RunCardList) :
  0 <= _passed self <= _answered self -> _answered self <= 2 ^ 46 ->
  passedpct self
  = Return (if 0 <? _answered self
            then 100 * _passed self / _answered self else 0).
Proof.
  intros Hpa Hlt. unfold passedpct.
  destruct (Z.ltb_spec 0 (_answered self)) as [Hpos|Hzero]; [|reflexivity].
  rewrite (float_of_int_exact (_passed self)) by lia.
  rewrite (float_of_int_exact (_answered self)) by lia.
  cbv zeta. rewrite (float_mul_ints 100 (_passed self)) by lia.
  rewrite float_div_ints by lia.
  apply round_div_floor; [lia|lia|].
  apply Z.div_lt_upper_bound; lia.
Qed.

(** With larger tallies the float quotient can round up to the next
    integer before it is cut. *)
Example passedpct_rounds_up :
  passedpct (mkRun [] (PyBool false) 300000000000000000 299999999999999999 0)
  = Return 100.
Proof. vm_compute. reflexivity. Qed.

(** X20. The summary at the end of a run is a box: two borders as wide as
    the text line between them, and a blank line before and after.  For
    tallies with [0 <= _passed <= _answered <= 2^46] the percentage shown is
    between 0 and 100 and is the quotient rounded down (2 of 3 shows 66);
    with nothing answered it is 0. *)
Theorem exit_prints_box (self : RunCardList) w :
  0 <= _passed self <= _answered self -> _answered self <= 2 ^ 46 ->
  exists (borders : string) (pct : Z),
    FCStateRunCardList_exit self w
    = (Return tt,
       set_stdout
         (stdout w
          ++ [EmptyString; borders;
              "* Passed/Answered = " +:+ pretty (_passed self) +:+ "/"
              +:+ pretty (_answered self) +:+ " = " +:+ pretty pct +:+ "% *";
              borders; EmptyString]) w)
    /\ String.length borders
       = String.length
           ("* Passed/Answered = " +:+ pretty (_passed self) +:+ "/"
            +:+ pretty (_answered self) +:+ " = " +:+ pretty pct +:+ "% *")
    /\ 0 <= pct <= 100
    /\ pct * _answered self <= 100 * _passed self
    /\ (_answered self = 0 /\ pct = 0
        \/ 100 * _passed self < (pct + 1) * _answered self).
Proof.
  intros Hpa Hlt.
  set (pct := if 0 <? _answered self
              then 100 * _passed self / _answered self else 0).
  exists (str_repeat "*" (String.length (exit_line self pct))), pct.
  split; [|split; [apply str_repeat_length|]].
  - unfold FCStateRunCardList_exit, bind.
    rewrite print_run. unfold lift_result.
    rewrite (passedpct_floor self Hpa Hlt). fold pct.
    rewrite !print_run.
    cbn [set_stdout stdout heap the_set stdin rng].
    rewrite <- !app_assoc. reflexivity.
  - unfold pct. destruct (Z.ltb_spec 0 (_answered self)) as [Hpos|Hzero].
    + pose proof (Z.mul_div_le (100 * _passed self) (_answered self) Hpos).
      pose proof (Z.mul_succ_div_gt (100 * _passed self) (_answered self) Hpos).
      assert (100 * _passed self / _answered self <= 100)
        by (apply Z.div_le_upper_bound; lia).
      assert (0 <= 100 * _passed self / _answered self)
        by (apply Z.div_pos; lia).
      repeat split; lia.
    + repeat split; lia.
Qed.

Lemma exit_prints_box_witness :
  exists (borders : string) (pct : Z),
    FCStateRunCardList_exit (mkRun [] (PyBool false) 3 2 0) (console_start [])
    = (Return tt,
       set_stdout
         (stdout (console_start [])
          ++ [EmptyString; borders;
              "* Passed/Answered = " +:+ pretty 2 +:+ "/"
              +:+ pretty 3 +:+ " = " +:+ pretty pct +:+ "% *";
              borders; EmptyString]) (console_start []))
    /\ String.length borders
       = String.length
           ("* Passed/Answered = " +:+ pretty 2 +:+ "/"
            +:+ pretty 3 +:+ " = " +:+ pretty pct +:+ "% *")
    /\ 0 <= pct <= 100
    /\ pct * 3 <= 100 * 2
    /\ (3 = 0 /\ pct = 0 \/ 100 * 2 < (pct + 1) * 3).
Proof.
  apply (exit_prints_box (mkRun [] (PyBool false) 3 2 0) (console_start [])).
  - cbn. lia.
  - cbn. lia.
Defined.

End RunMenu.

(** ** The edit screens *)

Section EditScreens.

Implicit Types (w : World) (h : list FlashcardCard) (l : list string).

Lemma bind_inv {S A B : Type} (m : M S A) (k : A -> M S B) (s s' : S)
    (r : result B) :
  bind m k s = (r, s') ->
  (exists e, m s = (Raise e, s') /\ r = Raise e)
  \/ (exists a s1, m s = (Return a, s1) /\ k a s1 = (r, s')).
Proof.
  unfold bind. destruct (m s) as [[a|e] s1].
  - intros H. right. exists a, s1. auto.
  - intros [= <- <-]. left. exists e. auto.
Qed.

Lemma py_index_nat {A : Type} (l : list A) (i : nat) (a : A) :
  l !! i = Some a -> py_index l (Z.of_nat i) = Return a.
Proof.
  intros Hi. pose proof (lookup_lt_Some _ _ _ Hi) as Hlt.
  unfold py_index. cbv zeta.
  destruct (Z.ltb_spec (Z.of_nat i) 0); [lia|].
  destruct (Z.ltb_spec (Z.of_nat i) 0); [lia|].
  destruct (Z.leb_spec (Z.of_nat (length l)) (Z.of_nat i)); [lia|].
  cbn [orb]. rewrite Nat2Z.id, Hi. reflexivity.
Qed.

Lemma dict_get_numbered l :
  forall (k : nat) (key v : string),
    dict_get key (imap (fun i v => (pretty (Z.of_nat (k + i) + 1), v)) l)
    = Some v ->
    exists i : nat, key = pretty (Z.of_nat (k + i) + 1) /\ l !! i = Some v.
Proof.
  induction l as [|a l IH]; intros k key v; cbn [imap dict_get];
    [discriminate|].
  destruct (String.eqb_spec (pretty (Z.of_nat (k + 0) + 1)) key) as [<-|Hne].
  - intros [= <-]. exists 0%nat. auto.
  - rewrite (imap_ext _ (fun i v => (pretty (Z.of_nat (S k + i) + 1), v)) l)
      by (intros i x _; cbn; do 3 f_equal; lia).
    intros Hget. destruct (IH (S k) key v Hget) as (i & -> & Hi).
    exists (S i). split; [do 3 f_equal; lia|exact Hi].
Qed.

Lemma dict_get_fold_other (extra : list (pyval * string)) (key : string) :
  Forall (fun kv => py_str (fst kv) <> key) extra ->
  forall d,
    dict_get key
      (fold_left (fun d kv => dict_set (py_str (fst kv)) (snd kv) d) extra d)
    = dict_get key d.
Proof.
  induction 1 as [|kv extra Hkv _ IH]; intros d; cbn [fold_left];
    [reflexivity|].
  rewrite IH. apply dict_get_set_other. exact Hkv.
Qed.

Lemma ConsoleMenu_init_lookup (choices : list (pyval * string))
    (options : MenuOptions) (key : string) :
  abstain options = true ->
  manual options && String.eqb key (manual_key options) = false ->
  String.eqb key (abstain_key options) = false ->
  dict_get key (_choices (ConsoleMenu_init choices options))
  = dict_get key
      (fold_left (fun d kv => dict_set (py_str (fst kv)) (snd kv) d)
         choices []).
Proof.
  intros Hab Hman Hkey. unfold ConsoleMenu_init. cbv zeta. cbn [_choices].
  rewrite Hab.
  assert (Hq : abstain_key options <> key).
  { intros <-. rewrite String.eqb_refl in Hkey. discriminate. }
  match goal with
  | |- context [(length ?d =? 0)%nat] =>
      assert (Hlen : (length d =? 0)%nat = false)
        by (destruct d eqn:Hd;
            [exfalso; exact (dict_set_nonempty _ _ _ Hd)|reflexivity])
  end.
  rewrite Hlen. rewrite dict_get_set_other by exact Hq.
  destruct (manual options); [|reflexivity].
  cbn [andb] in Hman. apply dict_get_set_other.
  intros <-. rewrite String.eqb_refl in Hman. discriminate.
Qed.

(** A key of a numbered menu that is not one of its other keys is a number
    of the list, and names the entry shown with it. *)
Lemma numbered_choice l (extra : list (pyval * string))
    (options : MenuOptions) (key v : string) :
  abstain options = true ->
  manual options && String.eqb key (manual_key options) = false ->
  String.eqb key (abstain_key options) = false ->
  Forall (fun kv => py_str (fst kv) <> key) extra ->
  dict_get key (_choices (ConsoleMenu_init (enumerate1 l ++ extra) options))
  = Some v ->
  exists i : nat, py_int key = Return (Z.of_nat i + 1) /\ l !! i = Some v.
Proof.
  intros Hab Hman Hkey Hextra.
  rewrite ConsoleMenu_init_lookup by assumption.
  rewrite fold_left_app, dict_get_fold_other by exact Hextra.
  pose proof (fold_enumerate l 0 []) as Hfold. cbn [app Nat.add] in Hfold.
  unfold enumerate1. rewrite Hfold by (intros; constructor).
  intros Hget. destruct (dict_get_numbered l 0 key v Hget) as (i & -> & Hi).
  exists i. split; [apply py_int_pretty|exact Hi].
Qed.


Lemma bind_post {A B : Type} (m : M World A) (k : A -> M World B)
    (Q : B -> Prop) (P : exn -> Prop) :
  raises_only P m ->
  (forall a w,
      match fst (k a w) with Return b => Q b | Raise e => P e end) ->
  forall w,
    match fst (bind m k w) with Return b => Q b | Raise e => P e end.
Proof.
  intros Hm Hk w. unfold bind.
  destruct (m w) as [[a|e] w1] eqn:Hmw; [apply Hk|].
  cbn [fst]. apply (Hm w). rewrite Hmw. reflexivity.
Qed.

Lemma read_answers_S (fuel : nat) (acc : list string) w :
  read_answers (S fuel) acc w
  = match stdin w with
    | [] => (Raise EOFError, set_stdout (stdout w ++ ["Enter answer: "]) w)
    | line :: rest =>
        let w1 := set_stdin rest (set_stdout (stdout w ++ ["Enter answer: "]) w) in
        if negb (String.eqb line EmptyString)
        then read_answers fuel (acc ++ [line]) w1
        else (Return acc, w1)
    end.
Proof.
  cbn [read_answers]. unfold bind at 1. rewrite input_run.
  destruct (stdin w) as [|line rest]; [reflexivity|].
  cbv zeta. destruct (negb (String.eqb line EmptyString)); reflexivity.
Qed.

Lemma read_answers_result (fuel : nat) :
  forall acc w,
    same_cards w (snd (read_answers fuel acc w))
    /\ forall e, fst (read_answers fuel acc w) = Raise e -> e = EOFError.
Proof.
  induction fuel as [|fuel IH]; intros acc w.
  - split; [apply same_cards_refl|]. intros e [= <-]. reflexivity.
  - rewrite read_answers_S. destruct (stdin w) as [|line rest].
    + split; [split; reflexivity|]. intros e [= <-]. reflexivity.
    + cbv zeta. destruct (negb (String.eqb line EmptyString)).
      * destruct (IH (acc ++ [line])
                    (set_stdin rest
                       (set_stdout (stdout w ++ ["Enter answer: "]) w)))
          as [Hs He].
        split; [|exact He].
        eapply same_cards_trans; [|exact Hs]. split; reflexivity.
      * split; [split; reflexivity|]. intros e [=].
Qed.

Lemma enter_answers_same (fuel : nat) :
  forall w, same_cards w (snd (enter_answers fuel w)).
Proof.
  induction fuel as [|fuel IH]; intros w; [apply same_cards_refl|].
  cbn [enter_answers].
  do 4 (apply bind_same; [apply print_same|]; intros _ ?w).
  apply bind_same; [apply same_cards_refl|]. intros lines w5.
  apply bind_same; [apply read_answers_result|]. intros va w6.
  destruct (length va =? 0)%nat; [|apply same_cards_refl].
  apply bind_same; [apply print_same|]. intros _ w7. apply IH.
Qed.

Lemma enter_answers_result (fuel : nat) :
  forall w,
    match fst (enter_answers fuel w) with
    | Return va => va <> []
    | Raise e => e = EOFError
    end.
Proof.
  induction fuel as [|fuel IH]; intros w; [reflexivity|].
  cbn [enter_answers].
  do 4 (apply bind_post; [apply print_raises|]; intros _; clear w; intros w).
  apply bind_post; [apply gets_raises|]. intros lines. clear w. intros w.
  apply bind_post.
  { intros w0 e. apply read_answers_result. }
  intros va. clear w. intros w.
  destruct va as [|a0 rest]; cbn [length Nat.eqb]; [|discriminate].
  apply bind_post; [apply print_raises|]. intros _ w0. apply IH.
Qed.

Lemma new_card_run (c : FlashcardCard) w :
  new_card (Return c) w
  = (Return (length (heap w)), set_heap (heap w ++ [c]) w).
Proof. reflexivity. Qed.

Lemma addCard_true h (newcard : loc) (self : FlashcardSet) :
  exists kept,
    addCard h newcard true self
    = (Return true, set_cards (kept ++ [newcard]) self)
    /\ forall x, x ∈ kept -> x ∈ cards self.
Proof.
  unfold addCard, bind, gets, modify, ret, lift_result.
  destruct (py_in h newcard (cards self)) eqn:Hin; cbn [negb].
  - destruct (py_remove_spec h newcard (cards self) Hin)
      as (pre & old & post & Hl & Hrem & _).
    rewrite Hrem. exists (pre ++ post). split; [reflexivity|].
    intros x Hx. rewrite Hl.
    apply elem_of_app in Hx as [Hx|Hx]; apply elem_of_app;
      [left; exact Hx|right; right; exact Hx].
  - exists (cards self). split; [reflexivity|auto].
Qed.

Lemma questions_lookup h (cs : list loc) (i : nat) (q : string) :
  questions h cs !! i = Some q ->
  exists x, cs !! i = Some x /\ q = _question (deref h x).
Proof.
  revert i. induction cs as [|x cs IH]; intros [|i]; cbn;
    try discriminate.
  - intros [= <-]. exists x. auto.
  - apply IH.
Qed.

Lemma FCStateEditCardsMain_run_unfold :
  FCStateEditCardsMain_run
  = (w <- get ;;
     choice <- static_quickChoice
                 (enumerate1 (questions (heap w) (getAllCards (the_set w))))
                 EditCardsMain_options ;;
     match choice with
     | None => ret (Next FCStateMainMenu)
     | Some (key, value) =>
         if String.eqb key "n" then
           lines <- gets stdin ;;
           valid_answers <- enter_answers (S (length lines)) ;;
           card <- new_card (FlashcardCard_init value valid_answers None None) ;;
           h <- gets heap ;;
           with_set (addCard h card true) ;;
           ret Self
         else
           i <- lift_result (py_int key) ;;
           card <- lift_result (py_index (getAllCards (the_set w)) (i - 1)) ;;
           ret (Next (FCStateEditCard card))
     end).
Proof. reflexivity. Qed.

(** What a call of the edit menu has done when it ends. *)
Lemma edit_menu_effect w (r : result next_state) w' :
  FCStateEditCardsMain_run w = (r, w') ->
  match r with
  | Return Self =>
      exists (question a0 : string) (rest : list string) (c : FlashcardCard),
        FlashcardCard_init question (a0 :: rest) None None = Return c
        /\ heap w' = heap w ++ [c]
        /\ the_set w'
           = snd (addCard (heap w ++ [c]) (length (heap w)) true (the_set w))
  | Return (Next FCStateMainMenu) => same_cards w w'
  | Return (Next (FCStateEditCard card)) =>
      same_cards w w' /\ exists i : nat, cards (the_set w) !! i = Some card
  | Return _ => False
  | Raise e => e = EOFError
  end.
Proof.
  intros H. rewrite FCStateEditCardsMain_run_unfold in H.
  unfold bind at 1, get at 1 in H.
  apply bind_inv in H as [(e & Hc & ->)|(choice & w1 & Hc & H)].
  { match type of Hc with
    | static_quickChoice ?c ?o _ = _ =>
        pose proof (static_quickChoice_result c o w) as Hres
    end.
    cbv zeta in Hres. rewrite Hc in Hres. apply Hres. }
  assert (S1 : same_cards w w1)
    by (eapply same_cards_of; [apply static_quickChoice_same|exact Hc]).
  match type of Hc with
  | static_quickChoice ?c ?o _ = _ =>
      pose proof (static_quickChoice_result c o w) as Hres
  end.
  cbv zeta in Hres. rewrite Hc in Hres. cbn [fst] in Hres.
  destruct choice as [[key value]|]; [|injection H as <- <-; exact S1].
  destruct Hres as [_ Hres].
  change (manual EditCardsMain_options) with true in Hres.
  change (manual_key EditCardsMain_options) with "n" in Hres.
  change (abstain EditCardsMain_options) with true in Hres.
  change (abstain_key EditCardsMain_options) with "q" in Hres.
  cbn [andb] in Hres.
  destruct (String.eqb key "n") eqn:Hn.
  - clear Hres.
    apply bind_inv in H as [(e & [=] & _)|(lines & w2 & [= <- <-] & H)].
    apply bind_inv in H as [(e & Hea & ->)|(va & w3 & Hea & H)].
    { pose proof (enter_answers_result (S (length (stdin w1))) w1) as Hr.
      rewrite Hea in Hr. exact Hr. }
    pose proof (enter_answers_result (S (length (stdin w1))) w1) as Hne.
    rewrite Hea in Hne. cbn [fst] in Hne.
    assert (S3 : same_cards w1 w3)
      by (eapply same_cards_of; [apply enter_answers_same|exact Hea]).
    destruct va as [|a0 rest]; [contradiction|].
    destruct (init_nonempty_guess value a0 rest None) as (c & Hinit & _).
    rewrite Hinit in H. unfold bind at 1 in H. rewrite new_card_run in H.
    unfold bind at 1, gets at 1 in H. cbn [heap set_heap] in H.
    unfold bind at 1, with_set at 1 in H. cbn [the_set set_heap] in H.
    destruct S1 as [Sh1 Ss1], S3 as [Sh3 Ss3].
    rewrite Sh3, Sh1, Ss3, Ss1 in H.
    destruct (addCard_true (heap w ++ [c]) (length (heap w)) (the_set w))
      as (kept & Hadd & _).
    rewrite Hadd in H. injection H as <- <-.
    exists value, a0, rest, c. split; [exact Hinit|].
    rewrite Hadd. cbn. auto.
  - destruct Hres as [Hget Hq].
    rewrite <- (app_nil_r (enumerate1 _)) in Hget.
    apply numbered_choice in Hget as (i & Hint & Hi);
      [|reflexivity|cbn; rewrite Hn; reflexivity|exact Hq|constructor].
    apply questions_lookup in Hi as (card & Hcard & _).
    rewrite Hint in H. unfold bind at 1, lift_result at 1 in H.
    replace (Z.of_nat i + 1 - 1) with (Z.of_nat i) in H by lia.
    rewrite (py_index_nat _ _ _ Hcard) in H.
    injection H as <- <-. split; [exact S1|]. exists i. exact Hcard.
Qed.

(** The lines the answer loops have read when they return. *)
Lemma read_answers_typed (fuel : nat) :
  forall acc w,
    match fst (read_answers fuel acc w) with
    | Return l =>
        exists new,
          l = acc ++ new
          /\ Forall (fun a => a <> EmptyString) new
          /\ stdin w
             = new ++ EmptyString :: stdin (snd (read_answers fuel acc w))
    | Raise _ => True
    end.
Proof.
  induction fuel as [|fuel IH]; intros acc w; [exact I|].
  rewrite read_answers_S. destruct (stdin w) as [|line rest]; [exact I|].
  cbv zeta. destruct (String.eqb_spec line EmptyString) as [->|Hne];
    cbn [negb].
  - exists []. rewrite app_nil_r. repeat split. constructor.
  - match goal with
    | |- context [read_answers fuel _ ?w1] =>
        specialize (IH (acc ++ [line]) w1);
        cbn [stdin set_stdin set_stdout] in IH;
        destruct (read_answers fuel (acc ++ [line]) w1) as [[l|e] w2]
    end; cbn [fst snd] in *; [|exact I].
    destruct IH as (new & -> & Hnew & Hrest).
    exists (line :: new). rewrite <- app_assoc. split; [reflexivity|].
    split; [constructor; assumption|]. rewrite Hrest. reflexivity.
Qed.

Lemma enter_answers_typed (fuel : nat) :
  forall w,
    match fst (enter_answers fuel w) with
    | Return l =>
        exists blanks,
          Forall (fun line => line = EmptyString) blanks
          /\ Forall (fun a => a <> EmptyString) l
          /\ stdin w
             = blanks ++ l ++ EmptyString :: stdin (snd (enter_answers fuel w))
    | Raise _ => True
    end.
Proof.
  induction fuel as [|fuel IH]; intros w; [exact I|].
  destruct (enter_answers (S fuel) w) as [[l|e] wf] eqn:H; cbn [fst snd];
    [|exact I].
  cbn [enter_answers] in H.
  do 4 (unfold bind at 1 in H; rewrite print_run in H).
  unfold bind at 1, gets at 1 in H. cbn [stdin set_stdout] in H.
  apply bind_inv in H as [(e & _ & [=])|(va & w2 & Hread & H)].
  match type of Hread with
  | read_answers ?f [] ?w1 = _ =>
      pose proof (read_answers_typed f [] w1) as Htyped
  end.
  rewrite Hread in Htyped. cbn [fst snd stdin set_stdout] in Htyped.
  destruct Htyped as (new & -> & Hnew & Hrest). cbn [app] in H.
  destruct new as [|a0 rest]; cbn [length Nat.eqb] in H.
  - apply bind_inv in H as [(e & _ & [=])|(u & w3 & Hp & H)].
    rewrite print_run in Hp. injection Hp as _ <-.
    specialize (IH (set_stdout
                      (stdout w2
                       ++ ["ERROR: At least one answer must be entered."])
                      w2)).
    rewrite H in IH. cbn [fst snd stdin set_stdout] in IH.
    destruct IH as (blanks & Hblanks & Hl & Hin).
    exists (EmptyString :: blanks). split; [constructor; auto|].
    split; [exact Hl|]. rewrite Hrest. cbn [app]. rewrite Hin. reflexivity.
  - injection H as <- <-. exists []. split; [constructor|].
    split; [exact Hnew|]. exact Hrest.
Qed.

Lemma static_quickChoice_typed (choices : list (pyval * string))
    (options : MenuOptions) w :
  let self := ConsoleMenu_init choices options in
  let w' := snd (static_quickChoice choices options w) in
  match fst (static_quickChoice choices options w) with
  | Return r =>
      exists invalid,
        Forall (fun line => dict_get line (_choices self) = None) invalid
        /\ stdin w
           = invalid
             ++ match r with
                | Some (k, v) =>
                    if manual (_options self)
                       && String.eqb k (manual_key (_options self))
                    then k :: v :: stdin w'
                    else k :: stdin w'
                | None => abstain_key (_options self) :: stdin w'
                end
  | Raise _ => True
  end.
Proof.
  cbv zeta. unfold static_quickChoice, gatherUserChoice, bind, gets.
  apply gather_rounds_typed. lia.
Qed.

(** [l.remove(x)] takes out the first card with the question of [x]. *)
Lemma py_remove_splits h (x : loc) (l : list loc) :
  py_in h x l = true ->
  exists pre old post,
    l = pre ++ old :: post
    /\ py_remove h x l = Return (pre ++ post)
    /\ _question (deref h old) = _question (deref h x)
    /\ Forall (fun y => _question (deref h y) <> _question (deref h x)) pre.
Proof.
  induction l as [|y l IH]; cbn; [discriminate|].
  destruct (same_card h y x) eqn:Hs.
  - intros _. exists [], y, l. repeat split; [|constructor].
    apply same_card_question, Hs.
  - cbn. intros Hin.
    destruct (IH Hin) as (pre & old & post & -> & Hrem & Hq & Hpre).
    exists (y :: pre), old, post. rewrite Hrem. repeat split; [exact Hq|].
    constructor; [|exact Hpre]. intros Hy.
    apply same_card_question in Hy. congruence.
Qed.

Lemma py_in_false_all h (x : loc) (l : list loc) :
  py_in h x l = false ->
  Forall (fun y => _question (deref h y) <> _question (deref h x)) l.
Proof.
  unfold py_in. induction l as [|y l IH]; cbn; [constructor|].
  intros [Hy Hl]%orb_false_iff. constructor; [|apply IH, Hl].
  intros Hq. apply same_card_question in Hq. congruence.
Qed.

(** [addCard(card, True)]: the card goes to the end, in place of the first
    card with its question, if there is one. *)
Lemma addCard_replaces h (newcard : loc) (self : FlashcardSet) :
  exists kept,
    addCard h newcard true self
    = (Return true, set_cards (kept ++ [newcard]) self)
    /\ (Forall (fun y => _question (deref h y) <> _question (deref h newcard))
          (cards self)
        /\ kept = cards self
        \/ exists pre old post,
             cards self = pre ++ old :: post
             /\ _question (deref h old) = _question (deref h newcard)
             /\ Forall (fun y => _question (deref h y)
                                 <> _question (deref h newcard)) pre
             /\ kept = pre ++ post).
Proof.
  unfold addCard, bind, gets, modify, ret, lift_result.
  destruct (py_in h newcard (cards self)) eqn:Hin; cbn [negb].
  - destruct (py_remove_splits h newcard (cards self) Hin)
      as (pre & old & post & Hl & Hrem & Hq & Hpre).
    rewrite Hrem. exists (pre ++ post). split; [reflexivity|].
    right. exists pre, old, post. auto.
  - exists (cards self). split; [reflexivity|].
    left. split; [apply py_in_false_all, Hin|reflexivity].
Qed.

Lemma init_fields (question : string) (valid_answers : list string)
    (c : FlashcardCard) :
  FlashcardCard_init question valid_answers None None = Return c ->
  _question c = question /\ _valid_answers c = valid_answers
  /\ _attempts c = 0 /\ _correct c = 0.
Proof.
  unfold FlashcardCard_init.
  destruct (_guessAnswerType valid_answers); [|discriminate].
  intros [= <-]. repeat split.
Qed.

(** The edit menu, when it has made a new card: what was typed, and what
    became of it. *)
Lemma edit_menu_new_card w w' :
  FCStateEditCardsMain_run w = (Return Self, w') ->
  exists (invalid : list string) (question : string) (blanks : list string)
         (a0 : string) (rest : list string) (c : FlashcardCard),
    stdin w
    = invalid ++ "n" :: question :: blanks ++ (a0 :: rest)
      ++ EmptyString :: stdin w'
    /\ Forall (fun line =>
                 dict_get line
                   (_choices (ConsoleMenu_init
                                (enumerate1 (questions (heap w)
                                               (getAllCards (the_set w))))
                                EditCardsMain_options)) = None) invalid
    /\ Forall (fun line => line = EmptyString) blanks
    /\ Forall (fun a => a <> EmptyString) (a0 :: rest)
    /\ FlashcardCard_init question (a0 :: rest) None None = Return c
    /\ heap w' = heap w ++ [c]
    /\ the_set w'
       = snd (addCard (heap w ++ [c]) (length (heap w)) true (the_set w)).
Proof.
  intros H. rewrite FCStateEditCardsMain_run_unfold in H.
  unfold bind at 1, get at 1 in H.
  apply bind_inv in H as [(e & Hc & [=])|(choice & w1 & Hc & H)].
  assert (S1 : same_cards w w1)
    by (eapply same_cards_of; [apply static_quickChoice_same|exact Hc]).
  match type of Hc with
  | static_quickChoice ?c ?o _ = _ =>
      pose proof (static_quickChoice_result c o w) as Hres;
      pose proof (static_quickChoice_typed c o w) as Htyped
  end.
  cbv zeta in Hres, Htyped. rewrite Hc in Hres, Htyped.
  cbn [fst snd] in Hres, Htyped.
  destruct choice as [[key value]|]; [|discriminate H].
  destruct Hres as [_ Hres]. destruct Htyped as (invalid & Hinv & Hin).
  change (manual (_options (ConsoleMenu_init _ EditCardsMain_options)))
    with true in Hin, Hres.
  change (manual_key (_options (ConsoleMenu_init _ EditCardsMain_options)))
    with "n" in Hin, Hres.
  cbn [andb] in Hin, Hres.
  destruct (String.eqb_spec key "n") as [->|Hn].
  - clear Hres.
    apply bind_inv in H as [(e & [=] & _)|(lines & w2 & [= <- <-] & H)].
    apply bind_inv in H as [(e & Hea & [=])|(va & w3 & Hea & H)].
    pose proof (enter_answers_result (S (length (stdin w1))) w1) as Hne.
    pose proof (enter_answers_typed (S (length (stdin w1))) w1) as Hans.
    rewrite Hea in Hne, Hans. cbn [fst snd] in Hne, Hans.
    destruct Hans as (blanks & Hblanks & Hva & Hin1).
    assert (S3 : same_cards w1 w3)
      by (eapply same_cards_of; [apply enter_answers_same|exact Hea]).
    destruct va as [|a0 rest]; [contradiction|].
    destruct (init_nonempty_guess value a0 rest None) as (c & Hinit & _).
    rewrite Hinit in H. unfold bind at 1 in H. rewrite new_card_run in H.
    unfold bind at 1, gets at 1 in H. cbn [heap set_heap] in H.
    unfold bind at 1, with_set at 1 in H. cbn [the_set set_heap] in H.
    destruct S1 as [Sh1 Ss1], S3 as [Sh3 Ss3].
    rewrite Sh3, Sh1, Ss3, Ss1 in H.
    destruct (addCard_true (heap w ++ [c]) (length (heap w)) (the_set w))
      as (kept & Hadd & _).
    rewrite Hadd in H. injection H as <-.
    exists invalid, value, blanks, a0, rest, c.
    cbn [stdin heap the_set set_the_set set_heap].
    split; [rewrite Hin, Hin1; reflexivity|].
    split; [exact Hinv|]. split; [exact Hblanks|]. split; [exact Hva|].
    split; [exact Hinit|]. rewrite Hadd. cbn. auto.
  - exfalso.
    destruct (py_int key) as [i|e];
      unfold bind at 1, lift_result at 1 in H; [|discriminate H].
    destruct (py_index (getAllCards (the_set w)) (i - 1)) as [card|e];
      unfold bind at 1, lift_result at 1 in H; discriminate H.
Qed.

(** X21. The edit menu ends in one of three ways.  Left with [q], it goes to
    the main menu.  With the number shown next to a question it opens a card
    of the set.  With [n] it makes a new card from the line typed next, as
    the question, and the answers typed after it, up to the first empty
    line -- at least one: as long as the first line is empty it asks again.
    The new card goes to the end of the set, in place of the first card
    with the same question if there was one, and the other cards keep their
    places; the questions of the set stay different from each other.  The
    cards that were there are not changed.  The only exception is
    [EOFError], at the end of the input. *)
Theorem edit_menu_outcome w :
  let w' := snd (FCStateEditCardsMain_run w) in
  let menu :=
    ConsoleMenu_init
      (enumerate1 (questions (heap w) (getAllCards (the_set w))))
      EditCardsMain_options in
  match fst (FCStateEditCardsMain_run w) with
  | Return Self =>
      exists (invalid : list string) (question : string)
             (blanks : list string) (a0 : string) (rest : list string)
             (c : FlashcardCard) (kept : list loc),
        stdin w
        = invalid ++ "n" :: question :: blanks ++ (a0 :: rest)
          ++ EmptyString :: stdin w'
        /\ Forall (fun line => dict_get line (_choices menu) = None) invalid
        /\ Forall (fun line => line = EmptyString) blanks
        /\ Forall (fun a => a <> EmptyString) (a0 :: rest)
        /\ FlashcardCard_init question (a0 :: rest) None None = Return c
        /\ _question c = question
        /\ _valid_answers c = a0 :: rest
        /\ heap w' = heap w ++ [c]
        /\ cards (the_set w') = kept ++ [length (heap w)]
        /\ (Forall (fun y => _question (deref (heap w') y) <> question)
              (cards (the_set w))
            /\ kept = cards (the_set w)
            \/ exists pre old post,
                 cards (the_set w) = pre ++ old :: post
                 /\ _question (deref (heap w') old) = question
                 /\ Forall (fun y => _question (deref (heap w') y)
                                     <> question) pre
                 /\ kept = pre ++ post)
        /\ (cards_allocated w -> unique_questions w ->
            cards_allocated w' /\ unique_questions w')
  | Return (Next FCStateMainMenu) => same_cards w w'
  | Return (Next (FCStateEditCard card)) =>
      same_cards w w' /\ exists i : nat, cards (the_set w) !! i = Some card
  | Return _ => False
  | Raise e => e = EOFError
  end.
Proof.
  cbv zeta.
  destruct (FCStateEditCardsMain_run w) as [r w'] eqn:Hrun.
  pose proof (edit_menu_effect w r w' Hrun) as Heff. cbn [fst snd].
  destruct r as [[| [] |]|e]; try exact Heff.
  clear Heff.
  destruct (edit_menu_new_card w w' Hrun)
    as (invalid & question & blanks & a0 & rest & c
        & Hin & Hinv & Hblanks & Hva & Hinit & Hheap & Hset).
  destruct (init_fields _ _ _ Hinit) as (Hq & Hans & _).
  destruct (addCard_replaces (heap w ++ [c]) (length (heap w)) (the_set w))
    as (kept & Hadd & Hkept).
  assert (Hnew : _question (deref (heap w ++ [c]) (length (heap w)))
                 = question).
  { unfold deref. rewrite lookup_total_app_r by lia.
    rewrite Nat.sub_diag. exact Hq. }
  rewrite Hnew in Hkept.
  exists invalid, question, blanks, a0, rest, c, kept.
  split; [exact Hin|]. split; [exact Hinv|]. split; [exact Hblanks|].
  split; [exact Hva|]. split; [exact Hinit|]. split; [exact Hq|].
  split; [exact Hans|]. split; [exact Hheap|].
  split; [rewrite Hset, Hadd; reflexivity|].
  split; [rewrite Hheap; exact Hkept|].
  intros Hwf Hu. unfold cards_allocated, unique_questions in *.
  rewrite Hheap, Hset.
  pose proof (addCard_unique (heap w ++ [c]) (the_set w)
                (length (heap w)) true) as Haddu.
  rewrite questions_alloc in Haddu by exact Hwf.
  destruct (Haddu Hu) as [Hnd Hsub]. split; [|exact Hnd].
  apply Forall_forall. intros x Hx. rewrite length_app. cbn [length].
  destruct (Hsub x Hx) as [Hin'|Heq]; [|lia].
  pose proof (proj1 (Forall_forall _ _) Hwf x Hin') as Hlt.
  cbn beta in Hlt. lia.
Qed.


Lemma with_card_modify (card : loc) (f : FlashcardCard -> FlashcardCard) w :
  with_card card (modify f) w
  = (Return tt, set_heap (<[card := f (deref (heap w) card)]> (heap w)) w).
Proof. reflexivity. Qed.

Lemma py_setitem_nat {A : Type} (l : list A) (i : nat) (v : A) :
  (i < length l)%nat -> py_setitem l (Z.of_nat i) v = Return (<[i := v]> l).
Proof.
  intros Hlt. unfold py_setitem. cbv zeta.
  destruct (Z.ltb_spec (Z.of_nat i) 0); [lia|].
  destruct (Z.ltb_spec (Z.of_nat i) 0); [lia|].
  destruct (Z.leb_spec (Z.of_nat (length l)) (Z.of_nat i)); [lia|].
  cbn [orb]. rewrite Nat2Z.id. reflexivity.
Qed.

Lemma input_inv (prompt : string) w (r : result string) w' :
  input prompt w = (r, w') ->
  same_cards w w'
  /\ match r with Return _ => True | Raise e => e = EOFError end.
Proof.
  rewrite input_run. destruct (stdin w); intros [= <- <-];
    (split; [split; reflexivity|reflexivity]).
Qed.

(** What [_changeAnswer] has done when it ends, for an index of the list. *)
Lemma changeAnswer_effect (card : loc) (i : nat) (a : string) w
    (r : result unit) w' :
  _valid_answers (deref (heap w) card) !! i = Some a ->
  _changeAnswer card (Z.of_nat i) w = (r, w') ->
  the_set w' = the_set w
  /\ match r with
     | Return _ =>
         heap w' = heap w
         \/ exists new,
             new <> EmptyString
             /\ heap w'
                = <[card := set_valid_answers
                              (<[i := new]> (_valid_answers (deref (heap w) card)))
                              (deref (heap w) card)]> (heap w)
     | Raise e => e = EOFError /\ heap w' = heap w
     end.
Proof.
  intros Hi H. pose proof (lookup_lt_Some _ _ _ Hi) as Hlt.
  unfold _changeAnswer in H. unfold bind at 1, gets at 1 in H.
  rewrite (py_index_nat _ _ _ Hi) in H.
  unfold bind at 1, lift_result at 1 in H.
  unfold bind at 1 in H. rewrite print_run in H.
  unfold bind at 1 in H. rewrite print_run in H.
  apply bind_inv in H as [(e & Hin & ->)|(newtext & w1 & Hin & H)].
  - apply input_inv in Hin as [[Sh Ss] ->]. cbn in Sh, Ss. auto.
  - apply input_inv in Hin as [[Sh Ss] _]. cbn in Sh, Ss.
    destruct (String.eqb_spec newtext EmptyString) as [->|Hne]; cbn [negb] in H.
    + injection H as <- <-. auto.
    + rewrite (py_setitem_nat _ _ _ Hlt) in H.
      unfold bind at 1, lift_result at 1 in H.
      rewrite with_card_modify in H. injection H as <- <-.
      cbn [heap the_set set_heap]. split; [exact Ss|].
      right. exists newtext. split; [exact Hne|]. rewrite Sh. reflexivity.
Qed.

Lemma index_in_range {A : Type} (l : list A) (z : Z) :
  (0 <=? z) && (z <? Z.of_nat (length l)) = true ->
  exists (i : nat) (a : A),
    z = Z.of_nat i /\ (i < length l)%nat /\ l !! i = Some a
    /\ py_index l z = Return a.
Proof.
  intros [H0 H1]%andb_true_iff.
  apply Z.leb_le in H0. apply Z.ltb_lt in H1.
  assert (Hlt : (Z.to_nat z < length l)%nat) by lia.
  destruct (lookup_lt_is_Some_2 l _ Hlt) as [a Ha].
  exists (Z.to_nat z), a. split; [lia|]. split; [exact Hlt|].
  split; [exact Ha|]. rewrite <- (py_index_nat _ _ _ Ha). f_equal. lia.
Qed.

(** What [_chooseAnswer] has done when it ends. *)
Lemma chooseAnswer_effect (card : loc) w (r : result unit) w' :
  _chooseAnswer card w = (r, w') ->
  the_set w' = the_set w
  /\ match r with
     | Return _ =>
         heap w' = heap w
         \/ exists l',
             answers_change (_valid_answers (deref (heap w) card)) l'
             /\ heap w'
                = <[card := set_valid_answers l' (deref (heap w) card)]> (heap w)
     | Raise e => e = EOFError /\ heap w' = heap w
     end.
Proof.
  intros H. unfold _chooseAnswer in H.
  unfold bind at 1, gets at 1 in H. cbv zeta in H.
  set (c := deref (heap w) card) in *.
  set (l := _valid_answers c) in *.
  apply bind_inv in H as [(e & Hc & ->)|(choice & w1 & Hc & H)].
  { match type of Hc with
    | static_quickChoice ?cs ?o _ = _ =>
        pose proof (static_quickChoice_result cs o w) as Hres;
        pose proof (static_quickChoice_same cs o w) as [Sh Ss]
    end.
    cbv zeta in Hres. rewrite Hc in Hres, Sh, Ss. cbn [fst snd] in *.
    destruct Hres as [-> _]. auto. }
  match type of Hc with
  | static_quickChoice ?cs ?o _ = _ =>
      pose proof (static_quickChoice_result cs o w) as Hres;
      pose proof (static_quickChoice_same cs o w) as [Sh Ss]
  end.
  cbv zeta in Hres. rewrite Hc in Hres, Sh, Ss. cbn [fst snd] in *.
  destruct choice as [[key value]|]; [|injection H as <- <-; auto].
  destruct Hres as [_ Hres].
  change (manual _chooseAnswer_options) with true in Hres.
  change (manual_key _chooseAnswer_options) with "a" in Hres.
  change (abstain _chooseAnswer_options) with true in Hres.
  change (abstain_key _chooseAnswer_options) with "q" in Hres.
  cbn [andb] in Hres.
  destruct (String.eqb key "a") eqn:Ha.
  { rewrite with_card_modify in H. injection H as <- <-.
    cbn [heap the_set set_heap]. split; [exact Ss|].
    right. exists (l ++ [value]). split; [constructor|].
    rewrite Sh. reflexivity. }
  destruct Hres as [Hget Hq].
  destruct (String.eqb key "c") eqn:Hkc.
  { apply bind_inv in H as [(e & Hin & ->)|(inputtext & w2 & Hin & H)].
    - apply input_inv in Hin as [[Sh2 Ss2] ->]. split; [congruence|].
      split; [reflexivity|congruence].
    - apply input_inv in Hin as [[Sh2 Ss2] _].
      destruct (typed_index inputtext) as [newcorrect|];
        [|injection H as <- <-; split; [congruence|left; congruence]].
      destruct ((0 <=? newcorrect) && (newcorrect <? Z.of_nat (length l)))
        eqn:Hrange;
        [|injection H as <- <-; split; [congruence|left; congruence]].
      destruct (index_in_range l newcorrect Hrange)
        as (i & a & -> & Hlt & Hi & Hidx).
      rewrite Hidx in H. unfold bind at 1, lift_result at 1 in H.
      rewrite with_card_modify in H. injection H as <- <-.
      cbn [heap the_set set_heap]. split; [congruence|].
      right. exists (a :: delete i l). split; [constructor; exact Hi|].
      rewrite Nat2Z.id, Sh2, Sh. reflexivity. }
  destruct (String.eqb key "d") eqn:Hkd.
  { apply bind_inv in H as [(e & Hin & ->)|(inputtext & w2 & Hin & H)].
    - apply input_inv in Hin as [[Sh2 Ss2] ->]. split; [congruence|].
      split; [reflexivity|congruence].
    - apply input_inv in Hin as [[Sh2 Ss2] _].
      destruct (typed_index inputtext) as [deleteindex|];
        [|injection H as <- <-; split; [congruence|left; congruence]].
      destruct ((0 <=? deleteindex) && (deleteindex <? Z.of_nat (length l)))
        eqn:Hrange;
        [|injection H as <- <-; split; [congruence|left; congruence]].
      destruct (index_in_range l deleteindex Hrange)
        as (i & a & -> & Hlt & Hi & Hidx).
      rewrite with_card_modify in H. injection H as <- <-.
      cbn [heap the_set set_heap]. split; [congruence|].
      right. exists (delete i l). split; [constructor; exact Hlt|].
      rewrite Nat2Z.id, Sh2, Sh. reflexivity. }
  apply numbered_choice in Hget as (i & Hint & Hi);
    [|reflexivity|cbn; rewrite Ha; reflexivity|exact Hq|].
  2: { repeat constructor; cbn [py_str fst]; intros <-; discriminate. }
  rewrite Hint in H. unfold bind at 1, lift_result at 1 in H.
  replace (Z.of_nat i + 1 - 1) with (Z.of_nat i) in H by lia.
  assert (Hi1 : _valid_answers (deref (heap w1) card) !! i = Some value)
    by (rewrite Sh; exact Hi).
  destruct (changeAnswer_effect card i value w1 r w' Hi1 H) as [Ss' Hr].
  split; [congruence|]. rewrite Sh in Hr.
  destruct r as [u|e]; [|destruct Hr; split; congruence].
  destruct Hr as [Hsame|(new & Hne & Hheap)]; [left; congruence|].
  right. exists (<[i := new]> l). split; [|exact Hheap].
  constructor; [exact (lookup_lt_Some _ _ _ Hi)|exact Hne].
Qed.

(** X22. The answers screen of a card changes nothing but the answer list
    of that card: the set, the other cards, and the question, the type, the
    override and the tallies of the card stay as they are -- the type is not
    guessed again.  The list is left alone, or it gets a new answer at its
    end, or one answer is moved to the front, deleted, or given a new text
    that is not empty.  The keys shown with the answers always work; the
    only exception is [EOFError], at the end of the input. *)
Theorem chooseAnswer_outcome (card : loc) w :
  let c := deref (heap w) card in
  let w' := snd (_chooseAnswer card w) in
  the_set w' = the_set w
  /\ match fst (_chooseAnswer card w) with
     | Return _ =>
         heap w' = heap w
         \/ exists l',
             answers_change (_valid_answers c) l'
             /\ heap w' = <[card := set_valid_answers l' c]> (heap w)
     | Raise e => e = EOFError /\ heap w' = heap w
     end.
Proof.
  cbv zeta. destruct (_chooseAnswer card w) as [r w'] eqn:Hrun.
  exact (chooseAnswer_effect card w r w' Hrun).
Qed.


(** X23. The type screen of a card changes nothing but the answer type of
    that card, and only to one of the five types of [ANSWER_TYPES], the one
    shown with the number typed; the answers are not looked at.  The only
    exception is [EOFError], at the end of the input. *)
Theorem changeAnswerType_outcome (card : loc) w :
  let c := deref (heap w) card in
  let w' := snd (_changeAnswerType card w) in
  the_set w' = the_set w
  /\ match fst (_changeAnswerType card w) with
     | Return _ =>
         heap w' = heap w
         \/ exists t,
             t ∈ ANSWER_TYPES
             /\ heap w' = <[card := set_answer_type t c]> (heap w)
     | Raise e => e = EOFError /\ heap w' = heap w
     end.
Proof.
  cbv zeta. destruct (_changeAnswerType card w) as [r w'] eqn:H.
  cbn [fst snd]. unfold _changeAnswerType in H.
  unfold bind at 1, gets at 1 in H. cbv zeta in H.
  match type of H with
  | context [static_quickChoice _ ?o] => set (options := o) in H
  end.
  apply bind_inv in H as [(e & Hc & ->)|(choice & w1 & Hc & H)].
  { pose proof (static_quickChoice_result (enumerate1 ANSWER_TYPES) options w)
      as Hres.
    pose proof (static_quickChoice_same (enumerate1 ANSWER_TYPES) options w)
      as [Sh Ss].
    cbv zeta in Hres. rewrite Hc in Hres, Sh, Ss. cbn [fst snd] in *.
    destruct Hres as [-> _]. auto. }
  pose proof (static_quickChoice_result (enumerate1 ANSWER_TYPES) options w)
    as Hres.
  pose proof (static_quickChoice_same (enumerate1 ANSWER_TYPES) options w)
    as [Sh Ss].
  cbv zeta in Hres. rewrite Hc in Hres, Sh, Ss. cbn [fst snd] in *.
  destruct choice as [[key value]|]; [|injection H as <- <-; auto].
  destruct Hres as [_ Hres].
  change (manual options) with false in Hres.
  change (abstain options) with true in Hres.
  change (abstain_key options) with "q" in Hres.
  cbn [andb] in Hres. destruct Hres as [Hget Hq].
  rewrite <- (app_nil_r (enumerate1 _)) in Hget.
  apply numbered_choice in Hget as (i & Hint & Hi);
    [|reflexivity|reflexivity|exact Hq|constructor].
  rewrite Hint in H. unfold bind at 1, lift_result at 1 in H.
  replace (Z.of_nat i + 1 - 1) with (Z.of_nat i) in H by lia.
  rewrite (py_index_nat _ _ _ Hi) in H.
  unfold bind at 1, lift_result at 1 in H.
  rewrite with_card_modify in H. injection H as <- <-.
  cbn [heap the_set set_heap]. split; [exact Ss|].
  right. exists value. split; [exact (list_elem_of_lookup_2 _ _ _ Hi)|].
  rewrite Sh. reflexivity.
Qed.

(** X24. The override screen of a card changes nothing but the override of
    that card, and only to [True] or [False]: once a card has an override,
    this screen cannot give it back to the policy of the set.  The only
    exception is [EOFError], at the end of the input. *)
Theorem changeOverrideConfirm_outcome (card : loc) w :
  let c := deref (heap w) card in
  let w' := snd (_changeOverrideConfirm card w) in
  the_set w' = the_set w
  /\ match fst (_changeOverrideConfirm card w) with
     | Return _ =>
         heap w' = heap w
         \/ exists b : bool,
             heap w' = <[card := set_override_confirms (Some b) c]> (heap w)
     | Raise e => e = EOFError /\ heap w' = heap w
     end.
Proof.
  cbv zeta. destruct (_changeOverrideConfirm card w) as [r w'] eqn:H.
  cbn [fst snd]. unfold _changeOverrideConfirm in H.
  unfold bind at 1, gets at 1 in H. cbv zeta in H.
  match type of H with
  | context [static_quickChoice ?cs ?o] =>
      pose proof (static_quickChoice_result cs o w) as Hres;
      pose proof (static_quickChoice_same cs o w) as [Sh Ss]
  end.
  cbv zeta in Hres.
  apply bind_inv in H as [(e & Hc & ->)|(choice & w1 & Hc & H)];
    rewrite Hc in Hres, Sh, Ss; cbn [fst snd] in *.
  { destruct Hres as [-> _]. auto. }
  destruct choice as [[key value]|]; [|injection H as <- <-; auto].
  rewrite with_card_modify in H. injection H as <- <-.
  cbn [heap the_set set_heap]. split; [exact Ss|].
  right. eexists. rewrite Sh. reflexivity.
Qed.

End EditScreens.

(** ** A card that has lost its answers *)

Section NoAnswers.

Implicit Types (w : World) (self : RunCardList).

Lemma ask_question_raises (c : FlashcardCard) :
  raises_only (fun e => e = EOFError) (ask_question c).
Proof.
  unfold ask_question.
  destruct (String.eqb (_answer_type c) "multiple_choice"
            || String.eqb (_answer_type c) "boolean").
  - unfold _askMultipleChoice.
    apply bind_raises; [apply print_raises|]. intros _.
    apply bind_raises.
    { unfold _askMultipleChoice_choices.
      destruct ((Z.of_nat (length (_valid_answers c)) =? 1) && _);
        [apply ret_raises|].
      apply bind_raises; [|intros; apply ret_raises].
      intros w e. rewrite shuffle_run. discriminate. }
    intros choices.
    apply bind_raises; [apply static_quickChoice_raises; reflexivity|].
    intros [[key value]|]; apply ret_raises.
  - unfold _askFreeform.
    apply bind_raises; [apply print_raises|]. intros _.
    apply input_raises. reflexivity.
Qed.

(** X25. The answers screen can delete the last answer of a card.  A run
    does not get past such a card: a call of [FCStateRunCardList.run] that
    reaches it returns only when the user leaves with [q], with the run
    object as it was; any other answer ends the call with [IndexError],
    raised where the correct answer is to be shown, and the end of the
    input ends it with [EOFError].  In every case the cards, with their
    counts of attempts and of correct answers, and the set are left as they
    were.  (The run object is not followed once the call has raised: its
    count of answered questions has gone up by then.) *)
Theorem run_card_without_answers self w (card : loc) :
  py_index (_cardlist self) (_index self) = Return card ->
  _valid_answers (deref (heap w) card) = [] ->
  same_cards w (snd (FCStateRunCardList_run self w))
  /\ match fst (FCStateRunCardList_run self w) with
     | Return (self', nxt) => self' = self /\ nxt = Next FCStateMainMenu
     | Raise e => e = IndexError \/ e = EOFError
     end.
Proof.
  intros Hcard Hnone.
  destruct (FCStateRunCardList_run self w) as [r w'] eqn:H. cbn [fst snd].
  unfold FCStateRunCardList_run in H.
  apply bind_inv in H as [(e & H1 & ->)|(u & w1 & H1 & H)].
  { destruct (negb (truthy (_endless self))); discriminate H1. }
  assert (S1 : same_cards w w1).
  { destruct (negb (truthy (_endless self)));
      [eapply same_cards_of; [apply print_same|exact H1]|].
    injection H1 as _ <-. apply same_cards_refl. }
  rewrite Hcard in H. unfold bind at 1, lift_result at 1 in H.
  unfold bind at 1, gets at 1 in H.
  destruct S1 as [Sh1 Ss1]. rewrite Sh1 in H.
  apply bind_inv in H as [(e & Hask & ->)|(answer & w4 & Hask & H)].
  - assert (S4 : same_cards w1 w')
      by (eapply same_cards_of; [apply ask_question_same|exact Hask]).
    destruct S4 as [Sh4 Ss4]. split; [split; congruence|]. right.
    apply (ask_question_raises (deref (heap w) card) w1).
    rewrite Hask. reflexivity.
  - assert (S4 : same_cards w1 w4)
      by (eapply same_cards_of; [apply ask_question_same|exact Hask]).
    destruct S4 as [Sh4 Ss4].
    destruct (String.eqb answer "q").
    + injection H as <- <-. split; [split; congruence|auto].
    + cbv zeta in H. rewrite Hnone in H.
      unfold bind at 1, lift_result at 1 in H.
      change (py_index (@nil string) 0) with (@Raise string IndexError) in H.
      injection H as <- <-. split; [split; congruence|auto].
Qed.

Lemma run_card_without_answers_witness :
  let w := set_heap [set_valid_answers [] (deref (heap two_cards) 0%nat)]
             (set_the_set (set_cards [0%nat] (the_set two_cards))
                (set_stdin ["x"] two_cards)) in
  let self := FCStateRunCardList_init [0%nat] (PyBool false) in
  same_cards w (snd (FCStateRunCardList_run self w))
  /\ match fst (FCStateRunCardList_run self w) with
     | Return (self', nxt) => self' = self /\ nxt = Next FCStateMainMenu
     | Raise e => e = IndexError \/ e = EOFError
     end.
Proof.
  apply (run_card_without_answers
           (FCStateRunCardList_init [0%nat] (PyBool false)) _ 0%nat);
    reflexivity.
Defined.

End NoAnswers.

(** ** Deleting an answer *)

Section DeleteAnswer.

(** X26. Deleting by number takes out the answer shown with that number,
    whichever it is: the first one -- the correct answer -- and the only
    one left are deleted like any other, without a check. *)
Theorem chooseAnswer_delete (card : loc) (h : list FlashcardCard)
    (s : FlashcardSet) (i : nat) (rest out : list string) (r : RandomState) :
  let c := deref h card in
  (i < length (_valid_answers c))%nat ->
  exists shown,
    _chooseAnswer card
      (mkWorld h s ("d" :: pretty (Z.of_nat i + 1) :: rest) out r)
    = (Return tt,
       mkWorld (<[card := set_valid_answers (delete i (_valid_answers c)) c]> h)
         s rest (out ++ shown) r).
Proof.
  cbv zeta. intros Hlt. unfold _chooseAnswer.
  unfold bind at 1, gets at 1. cbv zeta. cbn [heap].
  set (c := deref h card) in *. set (l := _valid_answers c) in *.
  match goal with
  | |- context [static_quickChoice ?cs ?o] =>
      set (choices := cs); set (options := o)
  end.
  assert (Hd : dict_get "d" (_choices (ConsoleMenu_init choices options))
               = Some "Delete an answer").
  { rewrite ConsoleMenu_init_lookup by reflexivity.
    unfold choices. rewrite fold_left_app. cbn [fold_left fst snd py_str].
    apply dict_get_set_same. }
  unfold bind at 1.
  rewrite (static_quickChoice_valid choices options _ "d" "Delete an answer"
             (pretty (Z.of_nat i + 1) :: rest));
    [|reflexivity|exact Hd|reflexivity|reflexivity].
  exists (round_lines (ConsoleMenu_init choices options)
          ++ ["Enter key for the answer to delete: "]).
  replace (String.eqb "d" "a") with false by reflexivity.
  replace (String.eqb "d" "c") with false by reflexivity.
  replace (String.eqb "d" "d") with true by reflexivity.
  unfold bind at 1. rewrite input_run.
  cbn [stdin set_stdin set_stdout stdout heap the_set rng].
  unfold typed_index. rewrite py_int_pretty.
  replace (Z.of_nat i + 1 - 1) with (Z.of_nat i) by lia.
  replace ((0 <=? Z.of_nat i) && (Z.of_nat i <? Z.of_nat (length l)))
    with true by (symmetry; apply andb_true_iff; split;
                  [apply Z.leb_le|apply Z.ltb_lt]; lia).
  rewrite with_card_modify.
  cbn [stdin set_stdin set_stdout stdout heap the_set rng set_heap].
  rewrite Nat2Z.id, <- app_assoc. reflexivity.
Qed.

Lemma chooseAnswer_delete_witness :
  let h := heap two_cards in
  let c := deref h 0%nat in
  exists shown,
    _chooseAnswer 0%nat
      (mkWorld h (the_set two_cards)
         ("d" :: pretty (Z.of_nat 0 + 1) :: []) [] (draws_from 0 []))
    = (Return tt,
       mkWorld (<[0%nat := set_valid_answers (delete 0%nat (_valid_answers c)) c]> h)
         (the_set two_cards) [] ([] ++ shown) (draws_from 0 [])).
Proof.
  apply (chooseAnswer_delete 0%nat (heap two_cards) (the_set two_cards) 0%nat).
  vm_compute. lia.
Defined.

End DeleteAnswer.

(** ** Opening a card by its number *)

Section OpenCard.

Lemma dict_get_numbered_fwd (l : list string) :
  forall (k i : nat) (v : string),
    l !! i = Some v ->
    dict_get (pretty (Z.of_nat (k + i) + 1))
      (imap (fun i v => (pretty (Z.of_nat (k + i) + 1), v)) l)
    = Some v.
Proof.
  induction l as [|a l IH]; intros k [|i] v; cbn [imap dict_get lookup];
    try discriminate.
  - intros [= <-]. cbn. rewrite String.eqb_refl. reflexivity.
  - intros Hi. change ((a :: l) !! S i) with (l !! i) in Hi.
    destruct (String.eqb_spec (pretty (Z.of_nat (k + 0) + 1))
                (pretty (Z.of_nat (k + S i) + 1))) as [Heq|_].
    { apply (inj pretty) in Heq. lia. }
    rewrite (imap_ext _ (fun i v => (pretty (Z.of_nat (S k + i) + 1), v)) l)
      by (intros j x _; cbn; do 3 f_equal; lia).
    replace (k + S i)%nat with (S k + i)%nat by lia. apply IH. exact Hi.
Qed.

Lemma dict_get_elem (k v : string) (d : list (string * string)) :
  dict_get k d = Some v -> (k, v) ∈ d.
Proof.
  induction d as [|[k' v'] d IH]; cbn; [discriminate|].
  destruct (String.eqb_spec k' k) as [->|_].
  - intros [= ->]. left.
  - intros H. right. apply IH, H.
Qed.

Lemma number_is_no_letter (i : nat) (key : string) :
  py_int key = Raise ValueError ->
  String.eqb (pretty (Z.of_nat i + 1)) key = false.
Proof.
  intros Hkey. destruct (String.eqb_spec (pretty (Z.of_nat i + 1)) key)
    as [Heq|]; [|reflexivity].
  rewrite <- Heq, py_int_pretty in Hkey. discriminate.
Qed.

(** X27. The edit menu shows every card of the set as a line with its
    number and its question, and the number opens that card: typing the
    number of the line returns the edit state of the card at that place of
    the set, with nothing changed. *)
Theorem edit_menu_opens_card (h : list FlashcardCard) (s : FlashcardSet)
    (i : nat) (card : loc) (rest out : list string) (r : RandomState) :
  cards s !! i = Some card ->
  exists shown,
    FCStateEditCardsMain_run
      (mkWorld h s (pretty (Z.of_nat i + 1) :: rest) out r)
    = (Return (Next (FCStateEditCard card)),
       mkWorld h s rest (out ++ shown) r)
    /\ pretty (Z.of_nat i + 1) +:+ ") " +:+ _question (deref h card) ∈ shown.
Proof.
  intros Hcard. rewrite FCStateEditCardsMain_run_unfold.
  unfold bind at 1, get at 1. cbn [heap the_set].
  set (key := pretty (Z.of_nat i + 1)).
  set (ql := questions h (getAllCards s)).
  set (menu := ConsoleMenu_init (enumerate1 ql) EditCardsMain_options).
  assert (Hq : ql !! i = Some (_question (deref h card))).
  { unfold ql, questions, getAllCards.
    change (map ?f ?l) with (f <$> l). rewrite list_lookup_fmap, Hcard.
    reflexivity. }
  assert (Hn : String.eqb key "n" = false)
    by (apply number_is_no_letter; reflexivity).
  assert (Hkq : String.eqb key "q" = false)
    by (apply number_is_no_letter; reflexivity).
  assert (Hget : dict_get key (_choices menu)
                 = Some (_question (deref h card))).
  { unfold menu.
    rewrite ConsoleMenu_init_lookup;
      [|reflexivity|cbn; rewrite Hn; reflexivity|exact Hkq].
    pose proof (fold_enumerate ql 0 []) as Hfold. cbn [app Nat.add] in Hfold.
    unfold enumerate1. rewrite Hfold by (intros; constructor).
    exact (dict_get_numbered_fwd ql 0 i _ Hq). }
  exists (round_lines menu). split.
  - unfold bind at 1.
    rewrite (static_quickChoice_valid (enumerate1 ql) EditCardsMain_options _
               key (_question (deref h card)) rest);
      [|reflexivity|exact Hget|cbn; rewrite Hn; reflexivity
       |cbn; rewrite Hkq; reflexivity].
    rewrite Hn. unfold key. rewrite py_int_pretty.
    unfold bind at 1, lift_result at 1.
    replace (Z.of_nat i + 1 - 1) with (Z.of_nat i) by lia.
    unfold getAllCards. rewrite (py_index_nat _ _ _ Hcard).
    reflexivity.
  - unfold round_lines. right. apply elem_of_app. left.
    unfold choice_lines. apply list_elem_of_In, in_map_iff.
    exists (key, _question (deref h card)). split; [reflexivity|].
    apply list_elem_of_In, dict_get_elem, Hget.
Qed.

Lemma edit_menu_opens_card_witness :
  exists shown,
    FCStateEditCardsMain_run
      (mkWorld (heap two_cards) (the_set two_cards)
         (pretty (Z.of_nat 1 + 1) :: []) [] (draws_from 0 []))
    = (Return (Next (FCStateEditCard 1%nat)),
       mkWorld (heap two_cards) (the_set two_cards) [] ([] ++ shown)
         (draws_from 0 []))
    /\ pretty (Z.of_nat 1 + 1) +:+ ") "
       +:+ _question (deref (heap two_cards) 1%nat) ∈ shown.
Proof.
  apply (edit_menu_opens_card (heap two_cards) (the_set two_cards) 1%nat 1%nat).
  reflexivity.
Defined.

End OpenCard.

(** ** A whole run *)

Section WholeRun.

Implicit Types (w : World) (self : RunCardList).

Lemma run_while_self_S (fuel : nat) self w :
  run_while_self (S fuel) self w
  = match FCStateRunCardList_run self w with
    | (Return (self', Self), w1) => run_while_self fuel self' w1
    | (Return (self', nxt), w1) => (Return (Some (self', nxt)), w1)
    | (Raise e, w1) => (Raise e, w1)
    end.
Proof.
  cbn [run_while_self]. unfold bind at 1.
  destruct (FCStateRunCardList_run self w) as [[[self' [| |]]|e] w1];
    reflexivity.
Qed.

Lemma run_while_self_ends (fuel : nat) :
  forall self w,
    truthy (_endless self) = false ->
    0 <= _index self ->
    Z.of_nat (length (_cardlist self)) - _index self <= Z.of_nat (S fuel) ->
    match fst (run_while_self (S fuel) self w) with
    | Return None => False
    | Return (Some (self', nxt)) =>
        nxt = Next FCStateMainMenu
        /\ _cardlist self' = _cardlist self
        /\ 0 <= _answered self' - _answered self
           <= Z.of_nat (length (_cardlist self)) - _index self
        /\ 0 <= _passed self' - _passed self
           <= _answered self' - _answered self
    | Raise e => True
    end.
Proof.
  induction fuel as [|fuel IH]; intros self w Hend Hidx Hfuel.
  - rewrite run_while_self_S.
    destruct (FCStateRunCardList_run self w) as [[[self' nxt]|e] w1] eqn:Hrun;
      [|exact I].
    destruct (run_effect self w self' nxt w1 Hrun)
      as (card & answer & confirmed & Hcard & _ & _ & Hcase).
    assert (Hrange : _index self < Z.of_nat (length (_cardlist self))).
    { unfold py_index in Hcard.
      destruct (Z.ltb_spec (_index self) 0); [lia|].
      destruct (Z.ltb_spec (_index self) 0); [lia|]. cbn [orb] in Hcard.
      destruct (Z.leb_spec (Z.of_nat (length (_cardlist self))) (_index self));
        [discriminate|lia]. }
    destruct Hcase as [(_ & -> & -> & _)
                      |(_ & passed & c' & _ & _ & Ha & Hp & Hstep)].
    + cbn. repeat split; lia.
    + rewrite Hend in Hstep. destruct Hstep as [Hlist Hstep].
      destruct (Z.eqb_spec (_index self)
                  (Z.of_nat (length (_cardlist self)) - 1)) as [Hlast|Hnot];
        destruct Hstep as [-> Hi]; [|lia].
      cbn. destruct passed; repeat split; lia || exact Hlist.
  - rewrite run_while_self_S.
    destruct (FCStateRunCardList_run self w) as [[[self' nxt]|e] w1] eqn:Hrun;
      [|exact I].
    destruct (run_effect self w self' nxt w1 Hrun)
      as (card & answer & confirmed & Hcard & _ & Hend' & Hcase).
    assert (Hrange : _index self < Z.of_nat (length (_cardlist self))).
    { unfold py_index in Hcard.
      destruct (Z.ltb_spec (_index self) 0); [lia|].
      destruct (Z.ltb_spec (_index self) 0); [lia|]. cbn [orb] in Hcard.
      destruct (Z.leb_spec (Z.of_nat (length (_cardlist self))) (_index self));
        [discriminate|lia]. }
    destruct Hcase as [(_ & -> & -> & _)
                      |(_ & passed & c' & _ & _ & Ha & Hp & Hstep)].
    + cbn. repeat split; lia.
    + rewrite Hend in Hstep. destruct Hstep as [Hlist Hstep].
      destruct (Z.eqb_spec (_index self)
                  (Z.of_nat (length (_cardlist self)) - 1)) as [Hlast|Hnot];
        destruct Hstep as [-> Hi].
      * cbn. destruct passed; repeat split; lia || exact Hlist.
      * specialize (IH self' w1).
        rewrite Hend', Hlist, Hi in IH. specialize (IH Hend).
        assert (H1 : 0 <= _index self + 1) by lia.
        assert (H2 : Z.of_nat (length (_cardlist self)) - (_index self + 1)
                     <= Z.of_nat (S fuel)) by lia.
        specialize (IH H1 H2).
        destruct (fst (run_while_self (S fuel) self' w1)) as [[[self2 nxt2]|]|e];
          [|exact IH|exact I].
        destruct IH as (-> & Hl2 & Ha2 & Hp2).
        split; [reflexivity|]. split; [exact Hl2|].
        destruct passed; split; lia.
Qed.

(** X28. A run through a list of cards -- not in endless mode -- ends: from
    the start of a run, as many calls of [FCStateRunCardList.run] as the
    list has cards (one call for an empty list) always leave the loop of
    [FlashcardMain.run], with an exception or for the main menu.  When the
    loop is left for the main menu the card list is the one the run began
    with, at most one answer per card of the list was counted, and
    [0 <= _passed <= _answered] holds. *)
Theorem run_through_list_ends (cardlist : list loc) w :
  let self := FCStateRunCardList_init cardlist (PyBool false) in
  match fst (run_while_self (Nat.max 1 (length cardlist)) self w) with
  | Return None => False
  | Return (Some (self', nxt)) =>
      nxt = Next FCStateMainMenu
      /\ _cardlist self' = cardlist
      /\ 0 <= _passed self' <= _answered self'
      /\ _answered self' <= Z.of_nat (length cardlist)
  | Raise e => True
  end.
Proof.
  cbv zeta.
  destruct (Nat.max 1 (length cardlist)) as [|fuel] eqn:Hfuel; [lia|].
  pose proof (run_while_self_ends fuel
                (FCStateRunCardList_init cardlist (PyBool false)) w
                eq_refl) as H.
  cbn [_index _cardlist _answered _passed FCStateRunCardList_init] in H.
  specialize (H ltac:(lia) ltac:(lia)).
  destruct (fst (run_while_self (S fuel) _ w)) as [[[self' nxt]|]|e];
    [|exact H|exact I].
  destruct H as (-> & Hl & Ha & Hp). repeat split; try assumption; lia.
Qed.

End WholeRun.
